(** * khelper: the selection wizard, the fuzzy list and the log viewer

    A shallow embedding of [pkg/ui] (fuzzylist.go, logviewer.go and the
    wizard model) and of the parts of [pkg/config] the wizard calls.

    Conventions of the embedding.
    - A Go [string] is a sequence of bytes: [string] of the Standard
      Library.  Positions in a string are byte offsets, as in Go.
    - A Go [int] is modelled by [Z].  The arithmetic on window sizes,
      whose operands come from a message, is written with its 64-bit
      wrap-around ([wrap]).  Cursors and selected indexes are compared
      with the length of a slice and moved by one row or by one page (ten
      rows, or half the height of a pane): for slices that fit in memory
      these sums stay far from 2^63, and they are written in [Z] as they
      stand.  Go's [/] truncates towards zero: [Z.quot].
    - A Go [error] is [option string]: [None] is [nil], [Some msg] an
      error whose [Error()] is [msg].
    - Methods on pointer receivers become functions from the old value of
      the receiver to the new one.
    - Styled rendering ([View], the viewport contents, lipgloss styles) is
      presentation only and is not part of the embedding. *)

From stdpp Require Import base list strings gmap sorting.
From Stdlib Require Import ZArith Lia Ascii.

Local Open Scope Z_scope.

(** ** Machine integers *)

Definition int_min : Z := - 2 ^ 63.
Definition int_max : Z := 2 ^ 63 - 1.

(** Two's complement wrap-around of a 64-bit [int]. *)
Definition wrap (x : Z) : Z := (x + 2 ^ 63) `mod` 2 ^ 64 - 2 ^ 63.

(** ** The functions of Go's [strings] and [strconv] the code calls *)

Module GoStrings.

(** [len(s)], in bytes. *)
Definition len (s : string) : Z := Z.of_nat (String.length s).

(** [strings.HasPrefix(s, prefix)]. *)
Fixpoint HasPrefix (s prefix : string) : bool :=
  match prefix, s with
  | EmptyString, _ => true
  | String p prefix', String c s' =>
      if decide (c = p) then HasPrefix s' prefix' else false
  | String _ _, EmptyString => false
  end.

(** [strings.Index(s, substr)], counted from offset [i]: the offset of the
    first occurrence, or -1. *)
Fixpoint Index_from (i : Z) (s substr : string) : Z :=
  if HasPrefix s substr then i
  else match s with
       | EmptyString => -1
       | String _ s' => Index_from (i + 1) s' substr
       end.

Definition Index (s substr : string) : Z := Index_from 0 s substr.

(** [strings.Contains(s, substr)] is [Index(s, substr) >= 0]. *)
Definition Contains (s substr : string) : bool :=
  bool_decide (0 <= Index s substr).

(** [s[:n]] and [s[n:]] for [0 <= n <= len(s)]. *)
Fixpoint take_bytes (n : nat) (s : string) : string :=
  match n, s with
  | S k, String c s' => String c (take_bytes k s')
  | _, _ => EmptyString
  end.

Fixpoint drop_bytes (n : nat) (s : string) : string :=
  match n, s with
  | S k, String _ s' => drop_bytes k s'
  | _, _ => s
  end.

(** [strings.Split(s, sep)] for a non-empty separator (every call of the
    code passes a constant one): [s] is cut at each occurrence of [sep],
    scanning from the left; [skip] counts the bytes of a separator still
    to pass, [cur] is the piece being read. *)
Fixpoint split_go (sep : string) (skip : nat) (cur : string) (s : string)
  : list string :=
  match s with
  | EmptyString => [cur]
  | String c s' =>
      match skip with
      | S k => split_go sep k cur s'
      | O =>
          if HasPrefix s sep
          then cur :: split_go sep (String.length sep - 1) EmptyString s'
          else split_go sep O (cur +:+ String c EmptyString) s'
      end
  end.

Definition Split (s sep : string) : list string :=
  split_go sep O EmptyString s.

(** [strings.SplitN(s, sep, 2)]: cut at the first occurrence only. *)
Definition SplitN2 (s sep : string) : list string :=
  let i := Index s sep in
  if bool_decide (i < 0) then [s]
  else [take_bytes (Z.to_nat i) s;
        drop_bytes (Z.to_nat i + String.length sep) s].

(** The decimal digit a byte stands for. *)
Definition digit_of (c : ascii) : option Z :=
  let n := Z.of_nat (nat_of_ascii c) in
  if bool_decide (48 <= n <= 57) then Some (n - 48) else None.

(** The value of a non-empty run of decimal digits, most significant
    first; [None] on any other byte. *)
Fixpoint digits_value (acc : Z) (s : string) : option Z :=
  match s with
  | EmptyString => Some acc
  | String c s' =>
      match digit_of c with
      | Some d => digits_value (10 * acc + d) s'
      | None => None
      end
  end.

(** [strconv.ParseInt(s, 10, 64)]: an optional sign, then decimal digits;
    [None] stands for a non-nil error (a syntax error, or a value out of
    the range of a 64-bit integer). *)
Definition ParseInt10 (s : string) : option Z :=
  let '(neg, body) :=
    match s with
    | String "-" s' => (true, s')
    | String "+" s' => (false, s')
    | _ => (false, s)
    end in
  match body with
  | EmptyString => None
  | _ =>
      match digits_value 0 body with
      | Some v =>
          let n := if neg then - v else v in
          if bool_decide (int_min <= n <= int_max) then Some n else None
      | None => None
      end
  end.

(** [strconv.Atoi(s)]: [ParseInt(s, 10, 0)] on a 64-bit platform. *)
Definition Atoi (s : string) : option Z := ParseInt10 s.

(** [strings.ToLower] on ASCII input: the letters A to Z are mapped to a
    to z.  (Go also lower-cases the letters outside ASCII; the viewer is
    stated over any lower-casing function, see [Lowering].) *)
Definition ascii_lower (c : ascii) : ascii :=
  let n := nat_of_ascii c in
  if bool_decide (65 <= n <= 90)%nat then ascii_of_nat (n + 32) else c.

Fixpoint ToLowerASCII (s : string) : string :=
  match s with
  | EmptyString => EmptyString
  | String c s' => String (ascii_lower c) (ToLowerASCII s')
  end.

End GoStrings.

(** [strings.ToLower] is a function of Go's library: the code is embedded
    over any lower-casing function that maps the empty string to itself. *)
Class Lowering := {
  ToLower : string → string;
  ToLower_empty : ToLower EmptyString = EmptyString
}.


(** ** Messages *)

(** [k8s.Client]: only the kubeconfig path is read by the wizard; the
    clientset and the REST configuration are opaque to it. *)
Record Client := { kubeconfig_path : string }.

(** The values of [tea.Msg] the program handles.  A [tea.KeyMsg] is
    represented by its [String()] rendering, the only thing the code
    inspects; [OtherMsg] is any message of the runtime or of a child
    component (a cursor blink, for instance). *)
Inductive Msg :=
| KeyMsg (key : string)
| WindowSizeMsg (Width Height : Z)
| NamespacesLoadedMsg (namespaces : list string) (err : option string)
| DeploymentsLoadedMsg (deployments : list string) (err : option string)
| PodsLoadedMsg (pods : list string) (err : option string)
| ContainersLoadedMsg (containers : list string) (err : option string)
| CommandResultMsg (result : string) (err : option string)
| ExecCompleteMsg (err : option string)
| LogsLoadedMsg (logs : string) (err : option string)
| LogLineMsg (line : string)
| LogStreamEndMsg (err : option string)
| KubeConfigsLoadedMsg (configs : list string) (err : option string)
| KubeConfigChangedMsg (client : option Client) (path : string)
                       (err : option string)
| AssetFoldersLoadedMsg (folders : list string) (err : option string)
| FastDeployCompleteMsg (result : string) (err : option string)
| logStreamMsg (line : string)
| OtherMsg.

(** [key] is one of the strings of a [case] clause. *)
Definition key_in (key : string) (keys : list string) : bool :=
  bool_decide (key ∈ keys).

(** ** The text input of the bubbles library *)

Module textinput.

(** [textinput.Model] is a type of a library: the code is embedded over
    any type with its operations.  The laws are the ones the proofs use:
    a new input is empty, [SetValue("")] empties it, and moving the focus
    does not edit the text. *)
Class Model (T : Type) := {
  New : T;
  Value : T → string;
  SetValue : string → T → T;
  SetPlaceholder : string → T → T;
  Focus : T → T;
  Blur : T → T;
  Focused : T → bool;
  Update : T → Msg → T;
  Value_New : Value New = EmptyString;
  Value_SetValue_empty : ∀ t, Value (SetValue EmptyString t) = EmptyString;
  Value_Focus : ∀ t, Value (Focus t) = Value t;
  Value_Blur : ∀ t, Value (Blur t) = Value t
}.

(** A small instance, to run the code on concrete inputs: the text, and
    the focus flag.  A focused input appends a typed printable byte and
    drops its last byte on backspace. *)
Record simple := { text : string; focus : bool }.

Fixpoint drop_last (s : string) : string :=
  match s with
  | EmptyString => EmptyString
  | String c EmptyString => EmptyString
  | String c s' => String c (drop_last s')
  end.

Definition simple_Update (t : simple) (msg : Msg) : simple :=
  if focus t then
    match msg with
    | KeyMsg key =>
        if decide (key = "backspace")
        then {| text := drop_last (text t); focus := true |}
        else if decide (String.length key = 1%nat)
        then {| text := text t +:+ key; focus := true |}
        else t
    | _ => t
    end
  else t.

#[global] Instance simple_Model : Model simple := {|
  New := {| text := EmptyString; focus := false |};
  Value := text;
  SetValue v t := {| text := v; focus := focus t |};
  SetPlaceholder _ t := t;
  Focus t := {| text := text t; focus := true |};
  Blur t := {| text := text t; focus := false |};
  Focused := focus;
  Update := simple_Update;
  Value_New := eq_refl;
  Value_SetValue_empty _ := eq_refl;
  Value_Focus _ := eq_refl;
  Value_Blur _ := eq_refl
|}.

End textinput.

(** ** Fuzzy matches *)

Module fuzzy.

(** [fuzzy.Match]: the matched string, its index in the data, and the
    byte offsets of the matched characters. *)
Record Match := {
  Str : string;
  Index : Z;
  MatchedIndexes : list Z
}.

(** [fuzzy.Find(pattern, data)] belongs to github.com/sahilm/fuzzy: the
    selector is embedded over any such function. *)
Class Finder := Find : string → list string → list Match.

(** The leftmost positions at which the bytes of [q] occur, in order, in
    [s], counted from offset [i]; [None] when [q] is not a subsequence. *)
Fixpoint match_positions (i : Z) (q s : string) {struct s}
  : option (list Z) :=
  match q with
  | EmptyString => Some []
  | String qc q' =>
      match s with
      | EmptyString => None
      | String c s' =>
          if decide (c = qc)
          then (i ::.) <$> match_positions (i + 1) q' s'
          else match_positions (i + 1) q s'
      end
  end.

Fixpoint find_from (i : nat) (q : string) (data : list string)
  : list Match :=
  match data with
  | [] => []
  | item :: data' =>
      match match_positions 0 q item with
      | Some pos =>
          {| Str := item; Index := Z.of_nat i; MatchedIndexes := pos |}
          :: find_from (S i) q data'
      | None => find_from (S i) q data'
      end
  end.

(** Modelled from the spec: [fuzzy.Find], the matcher of the third-party
    package github.com/sahilm/fuzzy, whose code is not part of the
    sources.  Section 4.1 asks for subsequence matching with
    match-position tracking and leaves the order of the matches to the
    implementation: an item matches when the characters of the query
    occur in it in order, the positions recorded are the leftmost such
    occurrence, and the matches keep the order of the data. *)
Definition Find_spec : Finder := find_from 0.

End fuzzy.

(** ** The fuzzy list (fuzzylist.go) *)

Module FL.
Section defs.
Context {T : Type} {TI : textinput.Model T} {FZ : fuzzy.Finder}.
Import textinput fuzzy.

Record FuzzyList := {
  textInput : T;
  items : list string;
  recentItems : list string;
  filtered : list Match;
  filteredRecent : list Match;
  cursor : Z;
  maxVisible : Z;
  scrollOffset : Z;
  title : string;
  loading : bool;
  err : option string;
  inRecentSection : bool
}.

Definition set_textInput (v : T) (f : FuzzyList) : FuzzyList :=
  {| textInput := v; items := items f; recentItems := recentItems f;
     filtered := filtered f; filteredRecent := filteredRecent f;
     cursor := cursor f; maxVisible := maxVisible f;
     scrollOffset := scrollOffset f; title := title f;
     loading := loading f; err := err f;
     inRecentSection := inRecentSection f |}.

Definition set_items (v : list string) (f : FuzzyList) : FuzzyList :=
  {| textInput := textInput f; items := v; recentItems := recentItems f;
     filtered := filtered f; filteredRecent := filteredRecent f;
     cursor := cursor f; maxVisible := maxVisible f;
     scrollOffset := scrollOffset f; title := title f;
     loading := loading f; err := err f;
     inRecentSection := inRecentSection f |}.

Definition set_recentItems (v : list string) (f : FuzzyList) : FuzzyList :=
  {| textInput := textInput f; items := items f; recentItems := v;
     filtered := filtered f; filteredRecent := filteredRecent f;
     cursor := cursor f; maxVisible := maxVisible f;
     scrollOffset := scrollOffset f; title := title f;
     loading := loading f; err := err f;
     inRecentSection := inRecentSection f |}.

Definition set_cursor (v : Z) (f : FuzzyList) : FuzzyList :=
  {| textInput := textInput f; items := items f;
     recentItems := recentItems f;
     filtered := filtered f; filteredRecent := filteredRecent f;
     cursor := v; maxVisible := maxVisible f;
     scrollOffset := scrollOffset f; title := title f;
     loading := loading f; err := err f;
     inRecentSection := inRecentSection f |}.

Definition set_scrollOffset (v : Z) (f : FuzzyList) : FuzzyList :=
  {| textInput := textInput f; items := items f;
     recentItems := recentItems f;
     filtered := filtered f; filteredRecent := filteredRecent f;
     cursor := cursor f; maxVisible := maxVisible f;
     scrollOffset := v; title := title f;
     loading := loading f; err := err f;
     inRecentSection := inRecentSection f |}.

Definition set_loading (v : bool) (f : FuzzyList) : FuzzyList :=
  {| textInput := textInput f; items := items f;
     recentItems := recentItems f;
     filtered := filtered f; filteredRecent := filteredRecent f;
     cursor := cursor f; maxVisible := maxVisible f;
     scrollOffset := scrollOffset f; title := title f;
     loading := v; err := err f;
     inRecentSection := inRecentSection f |}.

Definition set_err (v : option string) (f : FuzzyList) : FuzzyList :=
  {| textInput := textInput f; items := items f;
     recentItems := recentItems f;
     filtered := filtered f; filteredRecent := filteredRecent f;
     cursor := cursor f; maxVisible := maxVisible f;
     scrollOffset := scrollOffset f; title := title f;
     loading := loading f; err := v;
     inRecentSection := inRecentSection f |}.

Definition set_inRecentSection (v : bool) (f : FuzzyList) : FuzzyList :=
  {| textInput := textInput f; items := items f;
     recentItems := recentItems f;
     filtered := filtered f; filteredRecent := filteredRecent f;
     cursor := cursor f; maxVisible := maxVisible f;
     scrollOffset := scrollOffset f; title := title f;
     loading := loading f; err := err f;
     inRecentSection := v |}.

(** [len] of a slice. *)
Definition len {A} (l : list A) : Z := Z.of_nat (length l).

(** [NewFuzzyList(title)]; the placeholder, the width, the character
    limit and the styles of the text input are presentation. *)
Definition NewFuzzyList (title : string) : FuzzyList :=
  {| textInput := Focus New;
     items := []; recentItems := [];
     filtered := []; filteredRecent := [];
     cursor := 0; maxVisible := 10; scrollOffset := 0;
     title := title; loading := true; err := None;
     inRecentSection := true |}.

(** [totalItems]. *)
Definition totalItems (f : FuzzyList) : Z :=
  len (filteredRecent f) + len (filtered f).

(** The loop of [filterItems] for the empty query: every item matches,
    with its index and no matched position. *)
Definition all_match (l : list string) : list Match :=
  imap (λ i item,
          {| Str := item; Index := Z.of_nat i; MatchedIndexes := [] |}) l.

(** The items that are not recent ([itemsWithoutRecent]); [recentSet] is
    the [map[string]bool] whose keys are the recent items. *)
Definition itemsWithoutRecent (f : FuzzyList) : list string :=
  let recentSet : gset string := list_to_set (recentItems f) in
  filter (λ item, item ∉ recentSet) (items f).

Definition filterItems (f : FuzzyList) : FuzzyList :=
  let query := Value (textInput f) in
  let filteredRecent' :=
    if bool_decide (0 < len (recentItems f)) then
      if decide (query = EmptyString) then all_match (recentItems f)
      else Find query (recentItems f)
    else [] in
  let filtered' :=
    if decide (query = EmptyString) then all_match (itemsWithoutRecent f)
    else Find query (itemsWithoutRecent f) in
  let total := len filteredRecent' + len filtered' in
  let cursor' := if bool_decide (cursor f >= total) then 0 else cursor f in
  {| textInput := textInput f; items := items f;
     recentItems := recentItems f;
     filtered := filtered'; filteredRecent := filteredRecent';
     cursor := cursor'; maxVisible := maxVisible f;
     scrollOffset := 0; title := title f;
     loading := loading f; err := err f;
     inRecentSection := bool_decide (cursor' < len filteredRecent') |}.

(** [SetItems], [SetRecentItems], [SetError], [SetLoading]. *)
Definition SetItems (its : list string) (f : FuzzyList) : FuzzyList :=
  filterItems (set_loading false (set_items its f)).

Definition SetRecentItems (its : list string) (f : FuzzyList)
  : FuzzyList :=
  filterItems (set_recentItems its f).

Definition SetError (e : option string) (f : FuzzyList) : FuzzyList :=
  set_loading false (set_err e f).

Definition SetLoading (b : bool) (f : FuzzyList) : FuzzyList :=
  set_loading b f.

(** [GetSelected]: the item under the cursor, or the empty string. *)
Definition GetSelected (f : FuzzyList) : string :=
  let in_recent :=
    inRecentSection f && bool_decide (0 < len (filteredRecent f))
    && bool_decide (cursor f < len (filteredRecent f)) in
  if in_recent then
    (* the index panics when negative in Go; the cursor never is *)
    default EmptyString (Str <$> filteredRecent f !! Z.to_nat (cursor f))
  else
    let mainCursor :=
      if bool_decide (0 < len (filteredRecent f))
      then cursor f - len (filteredRecent f) else cursor f in
    if bool_decide (0 <= mainCursor)
       && bool_decide (mainCursor < len (filtered f))
    then default EmptyString (Str <$> filtered f !! Z.to_nat mainCursor)
    else EmptyString.

Definition GetInput (f : FuzzyList) : string := Value (textInput f).

(** [Reset]. *)
Definition Reset (f : FuzzyList) : FuzzyList :=
  filterItems
    (set_inRecentSection true
       (set_scrollOffset 0
          (set_cursor 0
             (set_textInput (SetValue EmptyString (textInput f)) f)))).

Definition Focus (f : FuzzyList) : FuzzyList :=
  set_textInput (textinput.Focus (textInput f)) f.

Definition Blur (f : FuzzyList) : FuzzyList :=
  set_textInput (textinput.Blur (textInput f)) f.

(** The end of [Update]: the message goes to the text input, and the
    list is filtered again when the text changed. *)
Definition update_input (f : FuzzyList) (msg : Msg) : FuzzyList :=
  let prevValue := Value (textInput f) in
  let f1 := set_textInput (textinput.Update (textInput f) msg) f in
  if decide (Value (textInput f1) ≠ prevValue) then filterItems f1 else f1.

Definition key_up (f : FuzzyList) : FuzzyList :=
  if bool_decide (cursor f > 0) then
    let c := cursor f - 1 in
    let f1 :=
      set_inRecentSection (bool_decide (c < len (filteredRecent f)))
        (set_cursor c f) in
    if bool_decide (c < scrollOffset f) then set_scrollOffset c f1 else f1
  else f.

Definition key_down (f : FuzzyList) : FuzzyList :=
  let total := totalItems f in
  if bool_decide (cursor f < total - 1) then
    let c := cursor f + 1 in
    let f1 :=
      set_inRecentSection (bool_decide (c < len (filteredRecent f)))
        (set_cursor c f) in
    if bool_decide (c >= scrollOffset f + maxVisible f)
    then set_scrollOffset (c - maxVisible f + 1) f1 else f1
  else f.

Definition key_pgup (f : FuzzyList) : FuzzyList :=
  let c := cursor f - maxVisible f in
  let c := if bool_decide (c < 0) then 0 else c in
  set_scrollOffset c
    (set_inRecentSection (bool_decide (c < len (filteredRecent f)))
       (set_cursor c f)).

Definition key_pgdown (f : FuzzyList) : FuzzyList :=
  let total := totalItems f in
  let c := cursor f + maxVisible f in
  let c := if bool_decide (c >= total) then total - 1 else c in
  let c := if bool_decide (c < 0) then 0 else c in
  let f1 :=
    set_inRecentSection (bool_decide (c < len (filteredRecent f)))
      (set_cursor c f) in
  if bool_decide (c >= scrollOffset f + maxVisible f)
  then set_scrollOffset (c - maxVisible f + 1) f1 else f1.

(** [Update]; the command of the text input is not modelled. *)
Definition Update (f : FuzzyList) (msg : Msg) : FuzzyList :=
  match msg with
  | KeyMsg key =>
      if key_in key ["up"; "ctrl+p"] then key_up f
      else if key_in key ["down"; "ctrl+n"] then key_down f
      else if key_in key ["pgup"] then key_pgup f
      else if key_in key ["pgdown"] then key_pgdown f
      else update_input f msg
  | _ => update_input f msg
  end.

End defs.
Arguments FuzzyList T : clear implicits.
End FL.

(** ** The log viewer (logviewer.go) *)

Module LV.

(** [viewport.Model]: the size; its content and scroll offset are
    presentation. *)
Record Viewport := { Width : Z; Height : Z }.

Section defs.
Context {T : Type} {TI : textinput.Model T} {LW : Lowering}.
Import textinput.

Record LogViewer := {
  viewport : Viewport;
  detailViewport : Viewport;
  searchInput : T;
  allLines : list string;
  filteredLines : list string;
  recentSearches : list string;
  searchQuery : string;
  selectedIndex : Z;
  showSearch : bool;
  ready : bool;
  width : Z;
  height : Z;
  streaming : bool;
  autoScroll : bool
}.

Definition set_searchInput (v : T) (l : LogViewer) : LogViewer :=
  {| viewport := viewport l; detailViewport := detailViewport l;
     searchInput := v; allLines := allLines l;
     filteredLines := filteredLines l;
     recentSearches := recentSearches l; searchQuery := searchQuery l;
     selectedIndex := selectedIndex l; showSearch := showSearch l;
     ready := ready l; width := width l; height := height l;
     streaming := streaming l; autoScroll := autoScroll l |}.

Definition set_allLines (v : list string) (l : LogViewer) : LogViewer :=
  {| viewport := viewport l; detailViewport := detailViewport l;
     searchInput := searchInput l; allLines := v;
     filteredLines := filteredLines l;
     recentSearches := recentSearches l; searchQuery := searchQuery l;
     selectedIndex := selectedIndex l; showSearch := showSearch l;
     ready := ready l; width := width l; height := height l;
     streaming := streaming l; autoScroll := autoScroll l |}.

Definition set_recentSearches (v : list string) (l : LogViewer)
  : LogViewer :=
  {| viewport := viewport l; detailViewport := detailViewport l;
     searchInput := searchInput l; allLines := allLines l;
     filteredLines := filteredLines l;
     recentSearches := v; searchQuery := searchQuery l;
     selectedIndex := selectedIndex l; showSearch := showSearch l;
     ready := ready l; width := width l; height := height l;
     streaming := streaming l; autoScroll := autoScroll l |}.

Definition set_selectedIndex (v : Z) (l : LogViewer) : LogViewer :=
  {| viewport := viewport l; detailViewport := detailViewport l;
     searchInput := searchInput l; allLines := allLines l;
     filteredLines := filteredLines l;
     recentSearches := recentSearches l; searchQuery := searchQuery l;
     selectedIndex := v; showSearch := showSearch l;
     ready := ready l; width := width l; height := height l;
     streaming := streaming l; autoScroll := autoScroll l |}.

Definition len {A} (l : list A) : Z := Z.of_nat (length l).

(** [NewLogViewer]; the viewports are zero values until [SetSize]. *)
Definition NewLogViewer : LogViewer :=
  {| viewport := {| Width := 0; Height := 0 |};
     detailViewport := {| Width := 0; Height := 0 |};
     searchInput := New;
     allLines := []; filteredLines := []; recentSearches := [];
     searchQuery := EmptyString; selectedIndex := 0;
     showSearch := true; ready := false; width := 0; height := 0;
     streaming := false; autoScroll := true |}.

(** [updateContent], [updateDetailView] and [ensureSelectedVisible]
    rebuild the text of the two viewports and scroll the list pane: no
    field of the embedding changes.  The calls are kept where the code
    makes them. *)
Definition updateContent (l : LogViewer) : LogViewer := l.

(** [SetSize]: both branches of the test on [ready] give the viewports the
    same sizes; the width of the search box is presentation. *)
Definition SetSize (w h : Z) (l : LogViewer) : LogViewer :=
  let listHeight := Z.quot (wrap (wrap (h - 10) * 6)) 10 in
  let detailHeight := wrap (wrap (h - 10) - listHeight) in
  let listHeight := if bool_decide (listHeight < 5) then 5 else listHeight in
  let detailHeight :=
    if bool_decide (detailHeight < 3) then 3 else detailHeight in
  updateContent
    {| viewport := {| Width := wrap (w - 4); Height := listHeight |};
       detailViewport := {| Width := wrap (w - 4); Height := detailHeight |};
       searchInput := searchInput l; allLines := allLines l;
       filteredLines := filteredLines l;
       recentSearches := recentSearches l; searchQuery := searchQuery l;
       selectedIndex := selectedIndex l; showSearch := showSearch l;
       ready := true; width := w; height := h;
       streaming := streaming l; autoScroll := autoScroll l |}.

(** The lines kept by [filterLogs] for a lower-cased, non-empty query. *)
Definition matching (query : string) (lines : list string) : list string :=
  filter (λ line, GoStrings.Contains (ToLower line) query) lines.

(** [filterLogs]. *)
Definition filterLogs (l : LogViewer) : LogViewer :=
  let query := ToLower (Value (searchInput l)) in
  let filteredLines' :=
    if decide (query = EmptyString) then allLines l
    else matching query (allLines l) in
  let sel :=
    if bool_decide (selectedIndex l >= len filteredLines') then 0
    else selectedIndex l in
  updateContent
    {| viewport := viewport l; detailViewport := detailViewport l;
       searchInput := searchInput l; allLines := allLines l;
       filteredLines := filteredLines';
       recentSearches := recentSearches l;
       searchQuery := Value (searchInput l);
       selectedIndex := sel; showSearch := showSearch l;
       ready := ready l; width := width l; height := height l;
       streaming := streaming l; autoScroll := autoScroll l |}.

(** [SetLogs]. *)
Definition SetLogs (logs : string) (l : LogViewer) : LogViewer :=
  if decide (logs = EmptyString) then filterLogs (set_allLines [] l)
  else filterLogs (set_allLines (GoStrings.Split logs "
") l).

(** [AppendLog]. *)
Definition AppendLog (line : string) (l : LogViewer) : LogViewer :=
  let l1 := filterLogs (set_allLines (allLines l ++ [line]) l) in
  if autoScroll l1 && streaming l1 then
    if bool_decide (len (filteredLines l1) > 0)
    then set_selectedIndex (len (filteredLines l1) - 1) l1
    else l1
  else l1.

(** [SetStreaming]. *)
Definition SetStreaming (b : bool) (l : LogViewer) : LogViewer :=
  {| viewport := viewport l; detailViewport := detailViewport l;
     searchInput := searchInput l; allLines := allLines l;
     filteredLines := filteredLines l;
     recentSearches := recentSearches l; searchQuery := searchQuery l;
     selectedIndex := selectedIndex l; showSearch := showSearch l;
     ready := ready l; width := width l; height := height l;
     streaming := b; autoScroll := b |}.

Definition IsStreaming (l : LogViewer) : bool := streaming l.

Definition SetRecentSearches (searches : list string) (l : LogViewer)
  : LogViewer := set_recentSearches searches l.

Definition GetSearchQuery (l : LogViewer) : string := searchQuery l.

Definition Focus (l : LogViewer) : LogViewer :=
  set_searchInput (textinput.Focus (searchInput l)) l.

Definition Blur (l : LogViewer) : LogViewer :=
  set_searchInput (textinput.Blur (searchInput l)) l.

Definition IsFocused (l : LogViewer) : bool := Focused (searchInput l).

(** The end of [Update]: a focused search box receives the message, and
    the lines are filtered again when its text changed. *)
Definition update_search (l : LogViewer) (msg : Msg) : LogViewer :=
  if Focused (searchInput l) then
    let prevValue := Value (searchInput l) in
    let l1 := set_searchInput (textinput.Update (searchInput l) msg) l in
    if decide (Value (searchInput l1) ≠ prevValue) then filterLogs l1
    else l1
  else l.

Definition key_up (l : LogViewer) : LogViewer :=
  if bool_decide (selectedIndex l > 0)
  then updateContent (set_selectedIndex (selectedIndex l - 1) l)
  else l.

Definition key_down (l : LogViewer) : LogViewer :=
  if bool_decide (selectedIndex l < len (filteredLines l) - 1)
  then updateContent (set_selectedIndex (selectedIndex l + 1) l)
  else l.

Definition key_pgup (l : LogViewer) : LogViewer :=
  let s := selectedIndex l - Z.quot (Height (viewport l)) 2 in
  let s := if bool_decide (s < 0) then 0 else s in
  updateContent (set_selectedIndex s l).

Definition key_pgdown (l : LogViewer) : LogViewer :=
  let s := selectedIndex l + Z.quot (Height (viewport l)) 2 in
  let s :=
    if bool_decide (s >= len (filteredLines l))
    then len (filteredLines l) - 1 else s in
  let s := if bool_decide (s < 0) then 0 else s in
  updateContent (set_selectedIndex s l).

Definition key_end (l : LogViewer) : LogViewer :=
  updateContent
    (if bool_decide (len (filteredLines l) > 0)
     then set_selectedIndex (len (filteredLines l) - 1) l else l).

(** [Update]; a [case] that does not return leaves the [switch], and the
    message reaches the search box. *)
Definition Update (l : LogViewer) (msg : Msg) : LogViewer :=
  match msg with
  | KeyMsg key =>
      if key_in key ["up"; "k"] then key_up l
      else if key_in key ["down"; "j"] then key_down l
      else if key_in key ["pgup"; "ctrl+u"] then key_pgup l
      else if key_in key ["pgdown"; "ctrl+d"] then key_pgdown l
      else if key_in key ["home"; "g"] then
        if negb (Focused (searchInput l))
        then updateContent (set_selectedIndex 0 l)
        else update_search l msg
      else if key_in key ["end"; "G"] then
        if negb (Focused (searchInput l)) then key_end l
        else update_search l msg
      else if key_in key ["/"] then
        if negb (Focused (searchInput l)) then Focus l
        else update_search l msg
      else if key_in key ["enter"] then
        if Focused (searchInput l) then Blur l
        else update_search l msg
      else if key_in key ["tab"] then
        if Focused (searchInput l) then Blur l else Focus l
      else if key_in key ["ctrl+l"] then
        filterLogs
          (set_searchInput (SetValue EmptyString (searchInput l)) l)
      else update_search l msg
  | _ => update_search l msg
  end.

End defs.
Arguments LogViewer T : clear implicits.
End LV.

(** ** The preferences (pkg/config); saving to disk is not modelled *)

Module config.

Definition MaxRecentItems : nat := 5.

Record Config := {
  LastNamespace : string;
  KubeConfig : string;
  RecentKubeConfigs : list string;
  RecentDeployments : gmap string (list string);
  RecentCommands : list string;
  RecentPods : gmap string (list string);
  RecentLogSearches : list string
}.

(** [addToRecent]: the item goes to the front, its earlier occurrence is
    removed, and the list is cut to [MaxRecentItems]. *)
Definition addToRecent (l : list string) (item : string) : list string :=
  let newList := item :: filter (λ existing, existing ≠ item) l in
  if bool_decide (MaxRecentItems < length newList)%nat
  then take MaxRecentItems newList else newList.

Definition SetNamespace (ns : string) (c : Config) : Config :=
  {| LastNamespace := ns; KubeConfig := KubeConfig c;
     RecentKubeConfigs := RecentKubeConfigs c;
     RecentDeployments := RecentDeployments c;
     RecentCommands := RecentCommands c; RecentPods := RecentPods c;
     RecentLogSearches := RecentLogSearches c |}.

Definition GetRecentDeployments (ns : string) (c : Config) : list string :=
  default [] (RecentDeployments c !! ns).

Definition AddRecentDeployment (ns dep : string) (c : Config) : Config :=
  {| LastNamespace := LastNamespace c; KubeConfig := KubeConfig c;
     RecentKubeConfigs := RecentKubeConfigs c;
     RecentDeployments :=
       <[ns := addToRecent (GetRecentDeployments ns c) dep]>
         (RecentDeployments c);
     RecentCommands := RecentCommands c; RecentPods := RecentPods c;
     RecentLogSearches := RecentLogSearches c |}.

Definition GetRecentCommands (c : Config) : list string :=
  RecentCommands c.

Definition AddRecentCommand (cmd : string) (c : Config) : Config :=
  {| LastNamespace := LastNamespace c; KubeConfig := KubeConfig c;
     RecentKubeConfigs := RecentKubeConfigs c;
     RecentDeployments := RecentDeployments c;
     RecentCommands := addToRecent (RecentCommands c) cmd;
     RecentPods := RecentPods c;
     RecentLogSearches := RecentLogSearches c |}.

Definition GetRecentPods (dep : string) (c : Config) : list string :=
  default [] (RecentPods c !! dep).

Definition AddRecentPod (dep pod : string) (c : Config) : Config :=
  {| LastNamespace := LastNamespace c; KubeConfig := KubeConfig c;
     RecentKubeConfigs := RecentKubeConfigs c;
     RecentDeployments := RecentDeployments c;
     RecentCommands := RecentCommands c;
     RecentPods :=
       <[dep := addToRecent (GetRecentPods dep c) pod]> (RecentPods c);
     RecentLogSearches := RecentLogSearches c |}.

Definition GetRecentLogSearches (c : Config) : list string :=
  RecentLogSearches c.

Definition AddRecentLogSearch (search : string) (c : Config) : Config :=
  if decide (search = EmptyString) then c
  else
    {| LastNamespace := LastNamespace c; KubeConfig := KubeConfig c;
       RecentKubeConfigs := RecentKubeConfigs c;
       RecentDeployments := RecentDeployments c;
       RecentCommands := RecentCommands c; RecentPods := RecentPods c;
       RecentLogSearches := addToRecent (RecentLogSearches c) search |}.

Definition SetKubeConfig (path : string) (c : Config) : Config :=
  {| LastNamespace := LastNamespace c; KubeConfig := path;
     RecentKubeConfigs := addToRecent (RecentKubeConfigs c) path;
     RecentDeployments := RecentDeployments c;
     RecentCommands := RecentCommands c; RecentPods := RecentPods c;
     RecentLogSearches := RecentLogSearches c |}.

Definition GetRecentKubeConfigs (c : Config) : list string :=
  RecentKubeConfigs c.

End config.

(** [strings.ToLower] restricted to ASCII, to run the code on concrete
    inputs. *)
#[global] Instance ascii_Lowering : Lowering := {|
  ToLower := GoStrings.ToLowerASCII;
  ToLower_empty := eq_refl
|}.

(** ** The wizard (the model of package ui) *)

Module Wizard.

Inductive AppState :=
| StateSelectKubeConfig
| StateSelectNamespace
| StateSelectDeployment
| StateSelectCommand
| StateSelectPod
| StateSelectContainer
| StateSelectAssetFolder
| StateInputValue
| StateExecuting
| StateShowResult
| StateViewLogs.

#[global] Instance AppState_eq_dec : EqDecision AppState.
Proof. solve_decision. Defined.

Record Command := {
  Name : string;
  Description : string;
  NeedsPod : bool;
  NeedsContainer : bool;
  NeedsInput : bool;
  InputPrompt : string
}.

Definition AvailableCommands : list Command := [
  {| Name := "logs"; Description := "View container logs";
     NeedsPod := true; NeedsContainer := true; NeedsInput := false;
     InputPrompt := "" |};
  {| Name := "logs-follow"; Description := "Follow container logs";
     NeedsPod := true; NeedsContainer := true; NeedsInput := false;
     InputPrompt := "" |};
  {| Name := "shell";
     Description := "Open shell (auto-detects bash/sh/ash)";
     NeedsPod := true; NeedsContainer := true; NeedsInput := false;
     InputPrompt := "" |};
  {| Name := "fast-deploy";
     Description := "Deploy local dist to /app/assets";
     NeedsPod := true; NeedsContainer := true; NeedsInput := false;
     InputPrompt := "" |};
  {| Name := "scale"; Description := "Scale deployment";
     NeedsPod := false; NeedsContainer := false; NeedsInput := true;
     InputPrompt := "Enter replica count:" |};
  {| Name := "update-image"; Description := "Update container image";
     NeedsPod := false; NeedsContainer := true; NeedsInput := true;
     InputPrompt := "Enter new image:" |};
  {| Name := "port-forward"; Description := "Forward port to pod";
     NeedsPod := true; NeedsContainer := false; NeedsInput := true;
     InputPrompt := "Enter ports (local:remote):" |};
  {| Name := "rollback"; Description := "Rollback deployment";
     NeedsPod := false; NeedsContainer := false; NeedsInput := true;
     InputPrompt := "Enter revision number:" |};
  {| Name := "set-env"; Description := "Set environment variable";
     NeedsPod := false; NeedsContainer := true; NeedsInput := true;
     InputPrompt := "Enter KEY=VALUE:" |};
  {| Name := "list-env"; Description := "List environment variables";
     NeedsPod := false; NeedsContainer := true; NeedsInput := false;
     InputPrompt := "" |};
  {| Name := "list-pods"; Description := "List all pods";
     NeedsPod := false; NeedsContainer := false; NeedsInput := false;
     InputPrompt := "" |};
  {| Name := "list-revisions"; Description := "List deployment revisions";
     NeedsPod := false; NeedsContainer := false; NeedsInput := false;
     InputPrompt := "" |};
  {| Name := "ingress"; Description := "Show related ingresses";
     NeedsPod := false; NeedsContainer := false; NeedsInput := false;
     InputPrompt := "" |};
  {| Name := "describe"; Description := "Describe deployment";
     NeedsPod := false; NeedsContainer := false; NeedsInput := false;
     InputPrompt := "" |}
].

(** The calls to the resource client made by the closures that
    [executeCommand] returns; the namespace, deployment, pod and container
    they pass are the fields of the model they were built from. *)
Inductive ClientCall :=
| CheckShellAvailable
| GetLogs
| ScaleDeployment (replicas : Z)
| UpdateImage (image : string)
| RollbackDeployment (revision : Z)
| SetEnvVar (key value : string)
| GetEnvVars
| ListPods
| GetReplicaSets
| GetIngresses
| GetDeployment.

(** A [tea.Cmd]: what the runtime is asked to run in the background.
    [cmd_msg msg] is a closure that returns [msg] and calls nothing;
    [cmd_child] is the command of the active child component. *)
Inductive Cmd :=
| cmd_nil
| cmd_Quit
| cmd_child
| cmd_loadNamespaces
| cmd_loadKubeConfigs
| cmd_loadDeployments
| cmd_loadPods
| cmd_loadContainers
| cmd_loadAssetFolders
| cmd_loadPodsAndSelectFirst
| cmd_executeFastDeploy
| cmd_streamLogs (podName : string)
| cmd_readNextLine
| cmd_newClient (path : string)
| cmd_newClientExpanded (path : string)
| cmd_client (call : ClientCall)
| cmd_msg (msg : Msg).

(** The commands whose closure calls the resource client (or builds
    one). *)
Definition contacts_client (c : Cmd) : bool :=
  match c with
  | cmd_nil | cmd_Quit | cmd_child | cmd_loadKubeConfigs
  | cmd_readNextLine | cmd_msg _ => false
  | _ => true
  end.

(** The message a command delivers when it calls nothing. *)
Definition delivered (c : Cmd) : option Msg :=
  match c with
  | cmd_msg msg => Some msg
  | _ => None
  end.

(** [int32(n)]. *)
Definition int32 (n : Z) : Z := (n + 2 ^ 31) `mod` 2 ^ 32 - 2 ^ 31.

(** [extractPodName]: the pod name without its status suffix. *)
Definition extractPodName (podStr : string) : string :=
  let idx := GoStrings.Index podStr " (" in
  if decide (idx ≠ -1) then GoStrings.take_bytes (Z.to_nat idx) podStr
  else podStr.

Section defs.
Context {T : Type} {TI : textinput.Model T} {FZ : fuzzy.Finder}
        {LW : Lowering}.

Record Model := {
  config : config.Config;
  k8sClient : option Client;
  state : AppState;
  prevStates : list AppState;
  kubeconfig : string;
  namespace : string;
  deployment : string;
  command : option Command;
  pod : string;
  container : string;
  inputValue : string;
  assetFolder : string;
  kcSelector : FL.FuzzyList T;
  nsSelector : FL.FuzzyList T;
  depSelector : FL.FuzzyList T;
  cmdSelector : FL.FuzzyList T;
  podSelector : FL.FuzzyList T;
  contSelector : FL.FuzzyList T;
  assetSelector : FL.FuzzyList T;
  valueInput : T;
  logViewer : LV.LogViewer T;
  result : string;
  err : option string;
  width : Z;
  height : Z;
  streaming : bool;
  streamCtx : option bool;
  cancelStream : bool;
  showNamespaceChange : bool;
  showKubeConfigChange : bool;
  initialClientErr : option string
}.

(** One update function per field that the code assigns. *)
Definition set_config (v : config.Config) (m : Model) : Model :=
  Build_Model v (k8sClient m) (state m) (prevStates m) (kubeconfig m)
    (namespace m) (deployment m) (command m) (pod m) (container m)
    (inputValue m) (assetFolder m) (kcSelector m) (nsSelector m)
    (depSelector m) (cmdSelector m) (podSelector m) (contSelector m)
    (assetSelector m) (valueInput m) (logViewer m) (result m) (err m)
    (width m) (height m) (streaming m) (streamCtx m) (cancelStream m)
    (showNamespaceChange m) (showKubeConfigChange m) (initialClientErr m).

Definition set_k8sClient (v : option Client) (m : Model) : Model :=
  Build_Model (config m) v (state m) (prevStates m) (kubeconfig m)
    (namespace m) (deployment m) (command m) (pod m) (container m)
    (inputValue m) (assetFolder m) (kcSelector m) (nsSelector m)
    (depSelector m) (cmdSelector m) (podSelector m) (contSelector m)
    (assetSelector m) (valueInput m) (logViewer m) (result m) (err m)
    (width m) (height m) (streaming m) (streamCtx m) (cancelStream m)
    (showNamespaceChange m) (showKubeConfigChange m) (initialClientErr m).

Definition set_state (v : AppState) (m : Model) : Model :=
  Build_Model (config m) (k8sClient m) v (prevStates m) (kubeconfig m)
    (namespace m) (deployment m) (command m) (pod m) (container m)
    (inputValue m) (assetFolder m) (kcSelector m) (nsSelector m)
    (depSelector m) (cmdSelector m) (podSelector m) (contSelector m)
    (assetSelector m) (valueInput m) (logViewer m) (result m) (err m)
    (width m) (height m) (streaming m) (streamCtx m) (cancelStream m)
    (showNamespaceChange m) (showKubeConfigChange m) (initialClientErr m).

Definition set_prevStates (v : list AppState) (m : Model) : Model :=
  Build_Model (config m) (k8sClient m) (state m) v (kubeconfig m)
    (namespace m) (deployment m) (command m) (pod m) (container m)
    (inputValue m) (assetFolder m) (kcSelector m) (nsSelector m)
    (depSelector m) (cmdSelector m) (podSelector m) (contSelector m)
    (assetSelector m) (valueInput m) (logViewer m) (result m) (err m)
    (width m) (height m) (streaming m) (streamCtx m) (cancelStream m)
    (showNamespaceChange m) (showKubeConfigChange m) (initialClientErr m).

Definition set_kubeconfig (v : string) (m : Model) : Model :=
  Build_Model (config m) (k8sClient m) (state m) (prevStates m) v
    (namespace m) (deployment m) (command m) (pod m) (container m)
    (inputValue m) (assetFolder m) (kcSelector m) (nsSelector m)
    (depSelector m) (cmdSelector m) (podSelector m) (contSelector m)
    (assetSelector m) (valueInput m) (logViewer m) (result m) (err m)
    (width m) (height m) (streaming m) (streamCtx m) (cancelStream m)
    (showNamespaceChange m) (showKubeConfigChange m) (initialClientErr m).

Definition set_namespace (v : string) (m : Model) : Model :=
  Build_Model (config m) (k8sClient m) (state m) (prevStates m)
    (kubeconfig m) v (deployment m) (command m) (pod m) (container m)
    (inputValue m) (assetFolder m) (kcSelector m) (nsSelector m)
    (depSelector m) (cmdSelector m) (podSelector m) (contSelector m)
    (assetSelector m) (valueInput m) (logViewer m) (result m) (err m)
    (width m) (height m) (streaming m) (streamCtx m) (cancelStream m)
    (showNamespaceChange m) (showKubeConfigChange m) (initialClientErr m).

Definition set_deployment (v : string) (m : Model) : Model :=
  Build_Model (config m) (k8sClient m) (state m) (prevStates m)
    (kubeconfig m) (namespace m) v (command m) (pod m) (container m)
    (inputValue m) (assetFolder m) (kcSelector m) (nsSelector m)
    (depSelector m) (cmdSelector m) (podSelector m) (contSelector m)
    (assetSelector m) (valueInput m) (logViewer m) (result m) (err m)
    (width m) (height m) (streaming m) (streamCtx m) (cancelStream m)
    (showNamespaceChange m) (showKubeConfigChange m) (initialClientErr m).

Definition set_command (v : option Command) (m : Model) : Model :=
  Build_Model (config m) (k8sClient m) (state m) (prevStates m)
    (kubeconfig m) (namespace m) (deployment m) v (pod m) (container m)
    (inputValue m) (assetFolder m) (kcSelector m) (nsSelector m)
    (depSelector m) (cmdSelector m) (podSelector m) (contSelector m)
    (assetSelector m) (valueInput m) (logViewer m) (result m) (err m)
    (width m) (height m) (streaming m) (streamCtx m) (cancelStream m)
    (showNamespaceChange m) (showKubeConfigChange m) (initialClientErr m).

Definition set_pod (v : string) (m : Model) : Model :=
  Build_Model (config m) (k8sClient m) (state m) (prevStates m)
    (kubeconfig m) (namespace m) (deployment m) (command m) v
    (container m) (inputValue m) (assetFolder m) (kcSelector m)
    (nsSelector m) (depSelector m) (cmdSelector m) (podSelector m)
    (contSelector m) (assetSelector m) (valueInput m) (logViewer m)
    (result m) (err m) (width m) (height m) (streaming m) (streamCtx m)
    (cancelStream m) (showNamespaceChange m) (showKubeConfigChange m)
    (initialClientErr m).

Definition set_container (v : string) (m : Model) : Model :=
  Build_Model (config m) (k8sClient m) (state m) (prevStates m)
    (kubeconfig m) (namespace m) (deployment m) (command m) (pod m) v
    (inputValue m) (assetFolder m) (kcSelector m) (nsSelector m)
    (depSelector m) (cmdSelector m) (podSelector m) (contSelector m)
    (assetSelector m) (valueInput m) (logViewer m) (result m) (err m)
    (width m) (height m) (streaming m) (streamCtx m) (cancelStream m)
    (showNamespaceChange m) (showKubeConfigChange m) (initialClientErr m).

Definition set_inputValue (v : string) (m : Model) : Model :=
  Build_Model (config m) (k8sClient m) (state m) (prevStates m)
    (kubeconfig m) (namespace m) (deployment m) (command m) (pod m)
    (container m) v (assetFolder m) (kcSelector m) (nsSelector m)
    (depSelector m) (cmdSelector m) (podSelector m) (contSelector m)
    (assetSelector m) (valueInput m) (logViewer m) (result m) (err m)
    (width m) (height m) (streaming m) (streamCtx m) (cancelStream m)
    (showNamespaceChange m) (showKubeConfigChange m) (initialClientErr m).

Definition set_assetFolder (v : string) (m : Model) : Model :=
  Build_Model (config m) (k8sClient m) (state m) (prevStates m)
    (kubeconfig m) (namespace m) (deployment m) (command m) (pod m)
    (container m) (inputValue m) v (kcSelector m) (nsSelector m)
    (depSelector m) (cmdSelector m) (podSelector m) (contSelector m)
    (assetSelector m) (valueInput m) (logViewer m) (result m) (err m)
    (width m) (height m) (streaming m) (streamCtx m) (cancelStream m)
    (showNamespaceChange m) (showKubeConfigChange m) (initialClientErr m).

Definition set_kcSelector (v : FL.FuzzyList T) (m : Model) : Model :=
  Build_Model (config m) (k8sClient m) (state m) (prevStates m)
    (kubeconfig m) (namespace m) (deployment m) (command m) (pod m)
    (container m) (inputValue m) (assetFolder m) v (nsSelector m)
    (depSelector m) (cmdSelector m) (podSelector m) (contSelector m)
    (assetSelector m) (valueInput m) (logViewer m) (result m) (err m)
    (width m) (height m) (streaming m) (streamCtx m) (cancelStream m)
    (showNamespaceChange m) (showKubeConfigChange m) (initialClientErr m).

Definition set_nsSelector (v : FL.FuzzyList T) (m : Model) : Model :=
  Build_Model (config m) (k8sClient m) (state m) (prevStates m)
    (kubeconfig m) (namespace m) (deployment m) (command m) (pod m)
    (container m) (inputValue m) (assetFolder m) (kcSelector m) v
    (depSelector m) (cmdSelector m) (podSelector m) (contSelector m)
    (assetSelector m) (valueInput m) (logViewer m) (result m) (err m)
    (width m) (height m) (streaming m) (streamCtx m) (cancelStream m)
    (showNamespaceChange m) (showKubeConfigChange m) (initialClientErr m).

Definition set_depSelector (v : FL.FuzzyList T) (m : Model) : Model :=
  Build_Model (config m) (k8sClient m) (state m) (prevStates m)
    (kubeconfig m) (namespace m) (deployment m) (command m) (pod m)
    (container m) (inputValue m) (assetFolder m) (kcSelector m)
    (nsSelector m) v (cmdSelector m) (podSelector m) (contSelector m)
    (assetSelector m) (valueInput m) (logViewer m) (result m) (err m)
    (width m) (height m) (streaming m) (streamCtx m) (cancelStream m)
    (showNamespaceChange m) (showKubeConfigChange m) (initialClientErr m).

Definition set_cmdSelector (v : FL.FuzzyList T) (m : Model) : Model :=
  Build_Model (config m) (k8sClient m) (state m) (prevStates m)
    (kubeconfig m) (namespace m) (deployment m) (command m) (pod m)
    (container m) (inputValue m) (assetFolder m) (kcSelector m)
    (nsSelector m) (depSelector m) v (podSelector m) (contSelector m)
    (assetSelector m) (valueInput m) (logViewer m) (result m) (err m)
    (width m) (height m) (streaming m) (streamCtx m) (cancelStream m)
    (showNamespaceChange m) (showKubeConfigChange m) (initialClientErr m).

Definition set_podSelector (v : FL.FuzzyList T) (m : Model) : Model :=
  Build_Model (config m) (k8sClient m) (state m) (prevStates m)
    (kubeconfig m) (namespace m) (deployment m) (command m) (pod m)
    (container m) (inputValue m) (assetFolder m) (kcSelector m)
    (nsSelector m) (depSelector m) (cmdSelector m) v (contSelector m)
    (assetSelector m) (valueInput m) (logViewer m) (result m) (err m)
    (width m) (height m) (streaming m) (streamCtx m) (cancelStream m)
    (showNamespaceChange m) (showKubeConfigChange m) (initialClientErr m).

Definition set_contSelector (v : FL.FuzzyList T) (m : Model) : Model :=
  Build_Model (config m) (k8sClient m) (state m) (prevStates m)
    (kubeconfig m) (namespace m) (deployment m) (command m) (pod m)
    (container m) (inputValue m) (assetFolder m) (kcSelector m)
    (nsSelector m) (depSelector m) (cmdSelector m) (podSelector m) v
    (assetSelector m) (valueInput m) (logViewer m) (result m) (err m)
    (width m) (height m) (streaming m) (streamCtx m) (cancelStream m)
    (showNamespaceChange m) (showKubeConfigChange m) (initialClientErr m).

Definition set_assetSelector (v : FL.FuzzyList T) (m : Model) : Model :=
  Build_Model (config m) (k8sClient m) (state m) (prevStates m)
    (kubeconfig m) (namespace m) (deployment m) (command m) (pod m)
    (container m) (inputValue m) (assetFolder m) (kcSelector m)
    (nsSelector m) (depSelector m) (cmdSelector m) (podSelector m)
    (contSelector m) v (valueInput m) (logViewer m) (result m) (err m)
    (width m) (height m) (streaming m) (streamCtx m) (cancelStream m)
    (showNamespaceChange m) (showKubeConfigChange m) (initialClientErr m).

Definition set_valueInput (v : T) (m : Model) : Model :=
  Build_Model (config m) (k8sClient m) (state m) (prevStates m)
    (kubeconfig m) (namespace m) (deployment m) (command m) (pod m)
    (container m) (inputValue m) (assetFolder m) (kcSelector m)
    (nsSelector m) (depSelector m) (cmdSelector m) (podSelector m)
    (contSelector m) (assetSelector m) v (logViewer m) (result m) (err m)
    (width m) (height m) (streaming m) (streamCtx m) (cancelStream m)
    (showNamespaceChange m) (showKubeConfigChange m) (initialClientErr m).

Definition set_logViewer (v : LV.LogViewer T) (m : Model) : Model :=
  Build_Model (config m) (k8sClient m) (state m) (prevStates m)
    (kubeconfig m) (namespace m) (deployment m) (command m) (pod m)
    (container m) (inputValue m) (assetFolder m) (kcSelector m)
    (nsSelector m) (depSelector m) (cmdSelector m) (podSelector m)
    (contSelector m) (assetSelector m) (valueInput m) v (result m) (err m)
    (width m) (height m) (streaming m) (streamCtx m) (cancelStream m)
    (showNamespaceChange m) (showKubeConfigChange m) (initialClientErr m).

Definition set_result (v : string) (m : Model) : Model :=
  Build_Model (config m) (k8sClient m) (state m) (prevStates m)
    (kubeconfig m) (namespace m) (deployment m) (command m) (pod m)
    (container m) (inputValue m) (assetFolder m) (kcSelector m)
    (nsSelector m) (depSelector m) (cmdSelector m) (podSelector m)
    (contSelector m) (assetSelector m) (valueInput m) (logViewer m) v
    (err m) (width m) (height m) (streaming m) (streamCtx m)
    (cancelStream m) (showNamespaceChange m) (showKubeConfigChange m)
    (initialClientErr m).

Definition set_err (v : option string) (m : Model) : Model :=
  Build_Model (config m) (k8sClient m) (state m) (prevStates m)
    (kubeconfig m) (namespace m) (deployment m) (command m) (pod m)
    (container m) (inputValue m) (assetFolder m) (kcSelector m)
    (nsSelector m) (depSelector m) (cmdSelector m) (podSelector m)
    (contSelector m) (assetSelector m) (valueInput m) (logViewer m)
    (result m) v (width m) (height m) (streaming m) (streamCtx m)
    (cancelStream m) (showNamespaceChange m) (showKubeConfigChange m)
    (initialClientErr m).

Definition set_width (v : Z) (m : Model) : Model :=
  Build_Model (config m) (k8sClient m) (state m) (prevStates m)
    (kubeconfig m) (namespace m) (deployment m) (command m) (pod m)
    (container m) (inputValue m) (assetFolder m) (kcSelector m)
    (nsSelector m) (depSelector m) (cmdSelector m) (podSelector m)
    (contSelector m) (assetSelector m) (valueInput m) (logViewer m)
    (result m) (err m) v (height m) (streaming m) (streamCtx m)
    (cancelStream m) (showNamespaceChange m) (showKubeConfigChange m)
    (initialClientErr m).

Definition set_height (v : Z) (m : Model) : Model :=
  Build_Model (config m) (k8sClient m) (state m) (prevStates m)
    (kubeconfig m) (namespace m) (deployment m) (command m) (pod m)
    (container m) (inputValue m) (assetFolder m) (kcSelector m)
    (nsSelector m) (depSelector m) (cmdSelector m) (podSelector m)
    (contSelector m) (assetSelector m) (valueInput m) (logViewer m)
    (result m) (err m) (width m) v (streaming m) (streamCtx m)
    (cancelStream m) (showNamespaceChange m) (showKubeConfigChange m)
    (initialClientErr m).

Definition set_streaming (v : bool) (m : Model) : Model :=
  Build_Model (config m) (k8sClient m) (state m) (prevStates m)
    (kubeconfig m) (namespace m) (deployment m) (command m) (pod m)
    (container m) (inputValue m) (assetFolder m) (kcSelector m)
    (nsSelector m) (depSelector m) (cmdSelector m) (podSelector m)
    (contSelector m) (assetSelector m) (valueInput m) (logViewer m)
    (result m) (err m) (width m) (height m) v (streamCtx m)
    (cancelStream m) (showNamespaceChange m) (showKubeConfigChange m)
    (initialClientErr m).

Definition set_streamCtx (v : option bool) (m : Model) : Model :=
  Build_Model (config m) (k8sClient m) (state m) (prevStates m)
    (kubeconfig m) (namespace m) (deployment m) (command m) (pod m)
    (container m) (inputValue m) (assetFolder m) (kcSelector m)
    (nsSelector m) (depSelector m) (cmdSelector m) (podSelector m)
    (contSelector m) (assetSelector m) (valueInput m) (logViewer m)
    (result m) (err m) (width m) (height m) (streaming m) v
    (cancelStream m) (showNamespaceChange m) (showKubeConfigChange m)
    (initialClientErr m).

Definition set_cancelStream (v : bool) (m : Model) : Model :=
  Build_Model (config m) (k8sClient m) (state m) (prevStates m)
    (kubeconfig m) (namespace m) (deployment m) (command m) (pod m)
    (container m) (inputValue m) (assetFolder m) (kcSelector m)
    (nsSelector m) (depSelector m) (cmdSelector m) (podSelector m)
    (contSelector m) (assetSelector m) (valueInput m) (logViewer m)
    (result m) (err m) (width m) (height m) (streaming m) (streamCtx m) v
    (showNamespaceChange m) (showKubeConfigChange m) (initialClientErr m).

Definition set_showNamespaceChange (v : bool) (m : Model) : Model :=
  Build_Model (config m) (k8sClient m) (state m) (prevStates m)
    (kubeconfig m) (namespace m) (deployment m) (command m) (pod m)
    (container m) (inputValue m) (assetFolder m) (kcSelector m)
    (nsSelector m) (depSelector m) (cmdSelector m) (podSelector m)
    (contSelector m) (assetSelector m) (valueInput m) (logViewer m)
    (result m) (err m) (width m) (height m) (streaming m) (streamCtx m)
    (cancelStream m) v (showKubeConfigChange m) (initialClientErr m).

Definition set_showKubeConfigChange (v : bool) (m : Model) : Model :=
  Build_Model (config m) (k8sClient m) (state m) (prevStates m)
    (kubeconfig m) (namespace m) (deployment m) (command m) (pod m)
    (container m) (inputValue m) (assetFolder m) (kcSelector m)
    (nsSelector m) (depSelector m) (cmdSelector m) (podSelector m)
    (contSelector m) (assetSelector m) (valueInput m) (logViewer m)
    (result m) (err m) (width m) (height m) (streaming m) (streamCtx m)
    (cancelStream m) (showNamespaceChange m) v (initialClientErr m).
(** [NewModel]. *)
Definition NewModel (cfg : config.Config) (client : option Client)
    (clientErr : option string) : Model :=
  let cmdNames :=
    map (λ c, Name c +:+ " - " +:+ Description c) AvailableCommands in
  {| config := cfg;
     k8sClient := client;
     state :=
       match client with
       | None => StateSelectKubeConfig
       | Some _ =>
           if decide (config.LastNamespace cfg = EmptyString)
           then StateSelectNamespace else StateSelectDeployment
       end;
     prevStates := [];
     kubeconfig :=
       match client with
       | Some c => kubeconfig_path c
       | None => EmptyString
       end;
     namespace := config.LastNamespace cfg;
     deployment := EmptyString;
     command := None;
     pod := EmptyString; container := EmptyString;
     inputValue := EmptyString; assetFolder := EmptyString;
     kcSelector := FL.NewFuzzyList "Select Kubeconfig";
     nsSelector := FL.NewFuzzyList "Select Namespace";
     depSelector := FL.NewFuzzyList "Select Deployment";
     cmdSelector := FL.SetItems cmdNames (FL.NewFuzzyList "Select Command");
     podSelector := FL.NewFuzzyList "Select Pod";
     contSelector := FL.NewFuzzyList "Select Container";
     assetSelector := FL.NewFuzzyList "Select Asset Folder";
     valueInput := textinput.New;
     logViewer := LV.NewLogViewer;
     result := EmptyString; err := None;
     width := 0; height := 0;
     streaming := false; streamCtx := None; cancelStream := false;
     showNamespaceChange := false;
     showKubeConfigChange :=
       match client with None => true | Some _ => false end;
     initialClientErr := clientErr |}.

(** [Init]. *)
Definition Init (m : Model) : Cmd :=
  match k8sClient m with
  | None => cmd_loadKubeConfigs
  | Some _ =>
      if decide (namespace m = EmptyString) then cmd_loadNamespaces
      else cmd_loadDeployments
  end.

(** A result of [None] is a run-time panic: the code dereferences
    [m.command] where it is [nil]. *)
Definition executeCommand (m : Model) : option (Model * Cmd) :=
  let m := set_state StateExecuting m in
  match command m with
  | None => None
  | Some c =>
      let name := Name c in
      if decide (name = "shell") then
        Some (m, cmd_client CheckShellAvailable)
      else if decide (name = "logs") then Some (m, cmd_client GetLogs)
      else if decide (name = "logs-follow") then
        let m := set_streaming true m in
        let m := set_cancelStream true (set_streamCtx (Some false) m) in
        let lv := LV.NewLogViewer in
        let lv := LV.SetSize (width m) (height m) lv in
        let lv :=
          LV.SetRecentSearches
            (config.GetRecentLogSearches (config m)) lv in
        let lv := LV.SetLogs EmptyString lv in
        let lv := LV.SetStreaming true lv in
        let m := set_state StateViewLogs (set_logViewer lv m) in
        Some (m, cmd_streamLogs (extractPodName (pod m)))
      else if decide (name = "scale") then
        match GoStrings.Atoi (inputValue m) with
        | None =>
            Some (m, cmd_msg (CommandResultMsg EmptyString
                   (Some ("invalid replica count: " +:+ inputValue m))))
        | Some replicas =>
            Some (m, cmd_client (ScaleDeployment (int32 replicas)))
        end
      else if decide (name = "update-image") then
        Some (m, cmd_client (UpdateImage (inputValue m)))
      else if decide (name = "port-forward") then
        let parts := GoStrings.Split (inputValue m) ":" in
        if decide (length parts ≠ 2%nat) then
          Some (m, cmd_msg (CommandResultMsg EmptyString
                 (Some "invalid port format, use local:remote")))
        else Some (m, cmd_msg (ExecCompleteMsg None))
      else if decide (name = "rollback") then
        match GoStrings.ParseInt10 (inputValue m) with
        | None =>
            Some (m, cmd_msg (CommandResultMsg EmptyString
                   (Some ("invalid revision number: " +:+ inputValue m))))
        | Some revision =>
            Some (m, cmd_client (RollbackDeployment revision))
        end
      else if decide (name = "set-env") then
        match GoStrings.SplitN2 (inputValue m) "=" with
        | [k; v] => Some (m, cmd_client (SetEnvVar k v))
        | _ =>
            Some (m, cmd_msg (CommandResultMsg EmptyString
                   (Some "invalid format, use KEY=VALUE")))
        end
      else if decide (name = "list-env") then
        Some (m, cmd_client GetEnvVars)
      else if decide (name = "list-pods") then
        Some (m, cmd_client ListPods)
      else if decide (name = "list-revisions") then
        Some (m, cmd_client GetReplicaSets)
      else if decide (name = "ingress") then
        Some (m, cmd_client GetIngresses)
      else if decide (name = "describe") then
        Some (m, cmd_client GetDeployment)
      else Some (m, cmd_nil)
  end.

(** The three lines that open the free-form input. *)
Definition prompt_input (placeholder : string) (m : Model) : Model :=
  set_valueInput
    (textinput.Focus
       (textinput.SetPlaceholder placeholder
          (textinput.SetValue EmptyString (valueInput m)))) m.

Definition proceedAfterContainer (m : Model) : option (Model * Cmd) :=
  match command m with
  | None => None
  | Some c =>
      if decide (Name c = "fast-deploy") then
        let m := set_state StateSelectAssetFolder m in
        let m := set_assetSelector (FL.Reset (assetSelector m)) m in
        Some (m, cmd_loadAssetFolders)
      else if NeedsInput c then
        let m := set_state StateInputValue m in
        Some (prompt_input (InputPrompt c) m, cmd_nil)
      else executeCommand m
  end.

Definition proceedAfterPod (m : Model) : option (Model * Cmd) :=
  match command m with
  | None => None
  | Some c =>
      if NeedsContainer c then
        let m := set_state StateSelectContainer m in
        let m := set_contSelector (FL.Reset (contSelector m)) m in
        Some (m, cmd_loadContainers)
      else if NeedsInput c then
        let m := set_state StateInputValue m in
        Some (prompt_input (InputPrompt c) m, cmd_nil)
      else executeCommand m
  end.

Definition proceedAfterCommand (m : Model) : option (Model * Cmd) :=
  match command m with
  | None => None
  | Some c =>
      if NeedsPod c then
        let m := set_state StateSelectPod m in
        let m := set_podSelector (FL.Reset (podSelector m)) m in
        Some (m, cmd_loadPods)
      else if NeedsContainer c then
        let m := set_state StateSelectContainer m in
        let m := set_contSelector (FL.Reset (contSelector m)) m in
        Some (m, cmd_loadPodsAndSelectFirst)
      else if NeedsInput c then
        let m := set_state StateInputValue m in
        Some (prompt_input (InputPrompt c) m, cmd_nil)
      else executeCommand m
  end.

(** [m.command != nil && m.command.Name == name]. *)
Definition command_is (name : string) (m : Model) : bool :=
  match command m with
  | Some c => bool_decide (Name c = name)
  | None => false
  end.

(** [goBack]. *)
Definition goBack (m : Model) : option (Model * Cmd) :=
  match state m with
  | StateSelectDeployment => Some (m, cmd_nil)
  | StateSelectCommand =>
      let m := set_state StateSelectDeployment m in
      let m := set_depSelector (FL.Reset (depSelector m)) m in
      Some (m, cmd_loadDeployments)
  | StateSelectPod =>
      let m := set_state StateSelectCommand m in
      let m := set_cmdSelector (FL.Reset (cmdSelector m)) m in
      Some (m, cmd_nil)
  | StateSelectContainer =>
      match command m with
      | None => None
      | Some c =>
          if NeedsPod c then
            let m := set_state StateSelectPod m in
            let m := set_podSelector (FL.Reset (podSelector m)) m in
            Some (m, cmd_loadPods)
          else
            let m := set_state StateSelectCommand m in
            let m := set_cmdSelector (FL.Reset (cmdSelector m)) m in
            Some (m, cmd_nil)
      end
  | StateSelectAssetFolder =>
      let m := set_state StateSelectContainer m in
      let m := set_contSelector (FL.Reset (contSelector m)) m in
      Some (m, cmd_loadContainers)
  | StateInputValue =>
      if command_is "fast-deploy" m then
        let m := set_state StateSelectAssetFolder m in
        let m := set_assetSelector (FL.Reset (assetSelector m)) m in
        Some (m, cmd_loadAssetFolders)
      else
        match command m with
        | None => None
        | Some c =>
            if NeedsContainer c then
              let m := set_state StateSelectContainer m in
              let m := set_contSelector (FL.Reset (contSelector m)) m in
              Some (m, cmd_loadContainers)
            else if NeedsPod c then
              let m := set_state StateSelectPod m in
              let m := set_podSelector (FL.Reset (podSelector m)) m in
              Some (m, cmd_loadPods)
            else
              let m := set_state StateSelectCommand m in
              let m := set_cmdSelector (FL.Reset (cmdSelector m)) m in
              Some (m, cmd_nil)
        end
  | StateShowResult =>
      let m := set_result EmptyString m in
      let m := set_err None m in
      let m := set_state StateSelectCommand m in
      let m := set_cmdSelector (FL.Reset (cmdSelector m)) m in
      Some (m, cmd_nil)
  | _ => Some (m, cmd_nil)
  end.

(** [handleEnter]. *)
Definition handleEnter (m : Model) : option (Model * Cmd) :=
  match state m with
  | StateSelectKubeConfig =>
      let selected := FL.GetSelected (kcSelector m) in
      if decide (selected = EmptyString) then Some (m, cmd_nil)
      else if GoStrings.HasPrefix selected "+ " then
        let m :=
          prompt_input
            "Enter kubeconfig path (e.g., ~/.kube/config-prod)" m in
        let m := set_state StateInputValue m in
        let m :=
          set_command
            (Some {| Name := "set-kubeconfig"; Description := "";
                     NeedsPod := false; NeedsContainer := false;
                     NeedsInput := false;
                     InputPrompt := "Enter kubeconfig file path:" |}) m in
        Some (m, cmd_nil)
      else Some (m, cmd_newClient selected)
  | StateSelectNamespace =>
      let selected := FL.GetSelected (nsSelector m) in
      if decide (selected = EmptyString) then Some (m, cmd_nil)
      else
        let m := set_namespace selected m in
        let m := set_config (config.SetNamespace selected (config m)) m in
        let m := set_showNamespaceChange false m in
        let m := set_state StateSelectDeployment m in
        let m := set_depSelector (FL.Reset (depSelector m)) m in
        Some (m, cmd_loadDeployments)
  | StateSelectDeployment =>
      let selected := FL.GetSelected (depSelector m) in
      if decide (selected = EmptyString) then Some (m, cmd_nil)
      else
        let m := set_deployment selected m in
        let m :=
          set_config
            (config.AddRecentDeployment (namespace m) selected (config m))
            m in
        let m := set_state StateSelectCommand m in
        let m := set_cmdSelector (FL.Reset (cmdSelector m)) m in
        let m :=
          set_cmdSelector
            (FL.SetRecentItems (config.GetRecentCommands (config m))
               (cmdSelector m)) m in
        Some (m, cmd_nil)
  | StateSelectCommand =>
      let selected := FL.GetSelected (cmdSelector m) in
      if decide (selected = EmptyString) then Some (m, cmd_nil)
      else
        let cmdName :=
          default EmptyString (head (GoStrings.Split selected " - ")) in
        let m :=
          match List.find (λ c, bool_decide (Name c = cmdName))
                  AvailableCommands with
          | Some c => set_command (Some c) m
          | None => m
          end in
        match command m with
        | None => Some (m, cmd_nil)
        | Some _ =>
            let m :=
              set_config (config.AddRecentCommand selected (config m)) m in
            proceedAfterCommand m
        end
  | StateSelectPod =>
      let selected := FL.GetSelected (podSelector m) in
      if decide (selected = EmptyString) then Some (m, cmd_nil)
      else
        let m := set_pod selected m in
        let m :=
          set_config
            (config.AddRecentPod (deployment m) selected (config m)) m in
        proceedAfterPod m
  | StateSelectContainer =>
      let selected := FL.GetSelected (contSelector m) in
      if decide (selected = EmptyString) then Some (m, cmd_nil)
      else proceedAfterContainer (set_container selected m)
  | StateSelectAssetFolder =>
      let selected := FL.GetSelected (assetSelector m) in
      if decide (selected = EmptyString) then Some (m, cmd_nil)
      else
        let m := set_assetFolder selected m in
        let m := set_state StateInputValue m in
        let m :=
          prompt_input
            "Enter local dist folder path (e.g., ~/project/dist):" m in
        Some (m, cmd_nil)
  | StateInputValue =>
      let m := set_inputValue (textinput.Value (valueInput m)) m in
      if decide (inputValue m = EmptyString) then Some (m, cmd_nil)
      else if command_is "set-kubeconfig" m then
        Some (m, cmd_newClientExpanded (inputValue m))
      else if command_is "fast-deploy" m then
        Some (set_state StateExecuting m, cmd_executeFastDeploy)
      else executeCommand m
  | StateShowResult =>
      let m := set_result EmptyString m in
      let m := set_err None m in
      let m := set_state StateSelectCommand m in
      let m := set_cmdSelector (FL.Reset (cmdSelector m)) m in
      Some (m, cmd_nil)
  | _ => Some (m, cmd_nil)
  end.

(** The end of [Update]: the message goes to the active selector. *)
Definition update_selector (m : Model) (msg : Msg) : Model * Cmd :=
  match state m with
  | StateSelectKubeConfig =>
      (set_kcSelector (FL.Update (kcSelector m) msg) m, cmd_child)
  | StateSelectNamespace =>
      (set_nsSelector (FL.Update (nsSelector m) msg) m, cmd_child)
  | StateSelectDeployment =>
      (set_depSelector (FL.Update (depSelector m) msg) m, cmd_child)
  | StateSelectCommand =>
      (set_cmdSelector (FL.Update (cmdSelector m) msg) m, cmd_child)
  | StateSelectPod =>
      (set_podSelector (FL.Update (podSelector m) msg) m, cmd_child)
  | StateSelectContainer =>
      (set_contSelector (FL.Update (contSelector m) msg) m, cmd_child)
  | StateSelectAssetFolder =>
      (set_assetSelector (FL.Update (assetSelector m) msg) m, cmd_child)
  | StateInputValue =>
      (set_valueInput (textinput.Update (valueInput m) msg) m, cmd_child)
  | _ => (m, cmd_nil)
  end.

(** [if len(m.prevStates) > 0 { ... }]: the state pushed last becomes
    current again. *)
Definition pop_state (m : Model) : Model :=
  match last (prevStates m) with
  | Some s =>
      set_prevStates (take (length (prevStates m) - 1) (prevStates m))
        (set_state s m)
  | None => m
  end.

(** The body shared by the [esc] case and by the [backspace] case when
    the input is empty (the code writes it twice): a detour is left by
    popping the stack, any other state by [goBack]. *)
Definition leave_step (m : Model) : option (Model * Cmd) :=
  if bool_decide (state m = StateSelectKubeConfig)
     && showKubeConfigChange m then
    Some (pop_state (set_showKubeConfigChange false m), cmd_nil)
  else if bool_decide (state m = StateSelectNamespace)
          && showNamespaceChange m then
    Some (pop_state (set_showNamespaceChange false m), cmd_nil)
  else goBack m.

(** [inputEmpty] of the [backspace] case. *)
Definition inputEmpty (m : Model) : bool :=
  match state m with
  | StateSelectKubeConfig =>
      bool_decide (FL.GetInput (kcSelector m) = EmptyString)
  | StateSelectNamespace =>
      bool_decide (FL.GetInput (nsSelector m) = EmptyString)
  | StateSelectDeployment =>
      bool_decide (FL.GetInput (depSelector m) = EmptyString)
  | StateSelectCommand =>
      bool_decide (FL.GetInput (cmdSelector m) = EmptyString)
  | StateSelectPod =>
      bool_decide (FL.GetInput (podSelector m) = EmptyString)
  | StateSelectContainer =>
      bool_decide (FL.GetInput (contSelector m) = EmptyString)
  | StateInputValue =>
      bool_decide (textinput.Value (valueInput m) = EmptyString)
  | _ => true
  end.

(** [if m.streaming && m.cancelStream != nil { ... }]. *)
Definition cancel_stream (m : Model) : Model :=
  if streaming m && cancelStream m
  then set_streaming false (set_streamCtx (Some true) m)
  else m.

(** The [tea.KeyMsg] case of [Update] while the logs are shown. *)
Definition update_key_logs (m : Model) (key : string)
  : option (Model * Cmd) :=
  if key_in key ["ctrl+c"] then Some (cancel_stream m, cmd_Quit)
  else if key_in key ["esc"; "q"] then
    let m := cancel_stream m in
    let m :=
      if decide (LV.GetSearchQuery (logViewer m) ≠ EmptyString)
      then set_config
             (config.AddRecentLogSearch
                (LV.GetSearchQuery (logViewer m)) (config m)) m
      else m in
    let m := set_state StateSelectCommand m in
    let m := set_cmdSelector (FL.Reset (cmdSelector m)) m in
    Some (m, cmd_nil)
  else
    Some (set_logViewer (LV.Update (logViewer m) (KeyMsg key)) m,
          cmd_child).

(** The [tea.KeyMsg] case of [Update] in every other state. *)
Definition update_key (m : Model) (key : string) : option (Model * Cmd) :=
  if key_in key ["ctrl+c"; "q"] then Some (m, cmd_Quit)
  else if key_in key ["ctrl+n"] then
    if decide (state m ≠ StateSelectNamespace) then
      let m := set_showNamespaceChange true m in
      let m := set_prevStates (prevStates m ++ [state m]) m in
      let m := set_state StateSelectNamespace m in
      let m := set_nsSelector (FL.Reset (nsSelector m)) m in
      Some (m, cmd_loadNamespaces)
    else Some (update_selector m (KeyMsg key))
  else if key_in key ["ctrl+k"] then
    if decide (state m ≠ StateSelectKubeConfig) then
      let m := set_showKubeConfigChange true m in
      let m := set_prevStates (prevStates m ++ [state m]) m in
      let m := set_state StateSelectKubeConfig m in
      let m := set_kcSelector (FL.Reset (kcSelector m)) m in
      Some (m, cmd_loadKubeConfigs)
    else Some (update_selector m (KeyMsg key))
  else if key_in key ["esc"] then leave_step m
  else if key_in key ["backspace"] then
    if inputEmpty m then leave_step m
    else Some (update_selector m (KeyMsg key))
  else if key_in key ["enter"] then handleEnter m
  else if key_in key ["tab"] then handleEnter m
  else Some (update_selector m (KeyMsg key)).

(** [SetError] or [SetItems] on a selector, as every [...LoadedMsg] case
    does. *)
Definition loaded (items : list string) (e : option string)
    (recent : option (list string)) (f : FL.FuzzyList T)
  : FL.FuzzyList T :=
  match e with
  | Some _ => FL.SetError e f
  | None =>
      match recent with
      | Some r => FL.SetItems items (FL.SetRecentItems r f)
      | None => FL.SetItems items f
      end
  end.

(** [Update]. *)
Definition Update (m : Model) (msg : Msg) : option (Model * Cmd) :=
  match msg with
  | WindowSizeMsg w h =>
      let m := set_width w m in
      let m := set_height h m in
      Some (set_logViewer (LV.SetSize w h (logViewer m)) m, cmd_nil)
  | KeyMsg key =>
      if decide (state m = StateViewLogs) then update_key_logs m key
      else update_key m key
  | NamespacesLoadedMsg namespaces e =>
      Some (set_nsSelector (loaded namespaces e None (nsSelector m)) m,
            cmd_nil)
  | KubeConfigsLoadedMsg configs e =>
      Some (set_kcSelector
              (loaded configs e
                 (Some (config.GetRecentKubeConfigs (config m)))
                 (kcSelector m)) m, cmd_nil)
  | KubeConfigChangedMsg client path e =>
      match e with
      | Some _ =>
          Some (set_state StateShowResult (set_err e m), cmd_nil)
      | None =>
          let m := set_k8sClient client m in
          let m := set_kubeconfig path m in
          let m := set_config (config.SetKubeConfig path (config m)) m in
          let m := set_showKubeConfigChange false m in
          let m := set_namespace EmptyString m in
          let m := set_deployment EmptyString m in
          let m := set_state StateSelectNamespace m in
          Some (m, cmd_loadNamespaces)
      end
  | DeploymentsLoadedMsg deployments e =>
      Some (set_depSelector
              (loaded deployments e
                 (Some (config.GetRecentDeployments (namespace m)
                          (config m)))
                 (depSelector m)) m, cmd_nil)
  | PodsLoadedMsg pods e =>
      Some (set_podSelector
              (loaded pods e
                 (Some (config.GetRecentPods (deployment m) (config m)))
                 (podSelector m)) m, cmd_nil)
  | ContainersLoadedMsg containers e =>
      match e with
      | Some _ =>
          Some (set_contSelector (FL.SetError e (contSelector m)) m,
                cmd_nil)
      | None =>
          let m :=
            set_contSelector (FL.SetItems containers (contSelector m)) m in
          match containers with
          | [c] => proceedAfterContainer (set_container c m)
          | _ => Some (m, cmd_nil)
          end
      end
  | CommandResultMsg r e =>
      let m := set_state StateShowResult m in
      match e with
      | Some _ => Some (set_err e m, cmd_nil)
      | None => Some (set_result r m, cmd_nil)
      end
  | LogsLoadedMsg logs e =>
      match e with
      | Some _ =>
          Some (set_state StateShowResult (set_err e m), cmd_nil)
      | None =>
          let lv := LV.NewLogViewer in
          let lv := LV.SetSize (width m) (height m) lv in
          let lv :=
            LV.SetRecentSearches
              (config.GetRecentLogSearches (config m)) lv in
          let lv := LV.SetLogs logs lv in
          let lv := LV.Focus lv in
          Some (set_state StateViewLogs (set_logViewer lv m), cmd_nil)
      end
  | logStreamMsg line =>
      Some (set_logViewer (LV.AppendLog line (logViewer m)) m,
            cmd_readNextLine)
  | LogStreamEndMsg e =>
      let m := set_streaming false m in
      let m := set_logViewer (LV.SetStreaming false (logViewer m)) m in
      match e with
      | Some _ => Some (set_err e m, cmd_nil)
      | None => Some (m, cmd_nil)
      end
  | ExecCompleteMsg e =>
      match e with
      | Some _ =>
          Some (set_state StateShowResult (set_err e m), cmd_nil)
      | None => Some (m, cmd_Quit)
      end
  | AssetFoldersLoadedMsg folders e =>
      Some (set_assetSelector (loaded folders e None (assetSelector m)) m,
            cmd_nil)
  | FastDeployCompleteMsg r e =>
      let m := set_state StateShowResult m in
      match e with
      | Some _ => Some (set_err e m, cmd_nil)
      | None => Some (set_result r m, cmd_nil)
      end
  | LogLineMsg _ | OtherMsg => Some (update_selector m msg)
  end.

End defs.
Arguments Model T : clear implicits.
End Wizard.

(** * Specification *)

(** ** Predicates on the states of the two widgets *)

Module LVSpec.
Section defs.
Context {T : Type} {TI : textinput.Model T} {LW : Lowering}.
Import LV.

(** The lines shown for the text [v] of the search box. *)
Definition visible (v : string) (lines : list string) : list string :=
  if decide (ToLower v = EmptyString) then lines
  else matching (ToLower v) lines.

(** The invariant of the viewer: the filtered lines are the visible ones,
    the selected index is a position of the filtered lines (0 when there
    is none), and the list pane has a height that is not negative. *)
Record inv (l : LogViewer T) : Prop := {
  inv_filtered :
    filteredLines l = visible (textinput.Value (searchInput l)) (allLines l);
  inv_sel_lo : 0 <= selectedIndex l;
  inv_sel_hi :
    selectedIndex l < len (filteredLines l) ∨ selectedIndex l = 0;
  inv_height : 0 <= Height (viewport l)
}.

(** The viewers the program can build: a new one, changed by the public
    methods. *)
Inductive reachable : LogViewer T → Prop :=
| r_New : reachable NewLogViewer
| r_SetSize w h l : reachable l → reachable (SetSize w h l)
| r_SetLogs logs l : reachable l → reachable (SetLogs logs l)
| r_AppendLog line l : reachable l → reachable (AppendLog line l)
| r_SetStreaming b l : reachable l → reachable (SetStreaming b l)
| r_SetRecentSearches s l :
    reachable l → reachable (SetRecentSearches s l)
| r_Focus l : reachable l → reachable (Focus l)
| r_Blur l : reachable l → reachable (Blur l)
| r_Update msg l : reachable l → reachable (Update l msg).

(** [AppendLog] once per line, in order. *)
Definition append_all (lines : list string) (l : LogViewer T)
  : LogViewer T :=
  foldl (λ acc line, AppendLog line acc) l lines.

End defs.

(** A viewer in streaming mode that holds one line, over the small text
    input. *)
Definition one_line_viewer : LV.LogViewer textinput.simple :=
  LV.AppendLog "a"
    (LV.SetStreaming true (LV.SetLogs EmptyString LV.NewLogViewer)).

(** The buffer of the scenario of section 8 with the query "error" typed
    and the last line selected. *)
Definition error_viewer : LV.LogViewer textinput.simple :=
  LV.set_searchInput
    {| textinput.text := "error"; textinput.focus := true |}
    (LV.set_selectedIndex 2
       (LV.SetLogs "connect ok
error: timeout
retry ok" LV.NewLogViewer)).

End LVSpec.

Module FLSpec.
Section defs.
Context {T : Type} {TI : textinput.Model T} {FZ : fuzzy.Finder}.
Import FL.

(** The invariant of the list: the cursor is a position of the two
    sections put end to end (0 when both are empty), and a page has ten
    rows. *)
Record inv (f : FuzzyList T) : Prop := {
  inv_cursor_lo : 0 <= cursor f;
  inv_cursor_hi : cursor f < totalItems f ∨ cursor f = 0;
  inv_page : maxVisible f = 10
}.

(** The lists the program can build: a new one, changed by the public
    methods. *)
Inductive reachable : FuzzyList T → Prop :=
| r_New title : reachable (NewFuzzyList title)
| r_SetItems its f : reachable f → reachable (SetItems its f)
| r_SetRecentItems its f : reachable f → reachable (SetRecentItems its f)
| r_SetError e f : reachable f → reachable (SetError e f)
| r_SetLoading b f : reachable f → reachable (SetLoading b f)
| r_Reset f : reachable f → reachable (Reset f)
| r_Focus f : reachable f → reachable (Focus f)
| r_Blur f : reachable f → reachable (Blur f)
| r_Update msg f : reachable f → reachable (Update f msg).

(** The keys that move the cursor. *)
Definition nav_keys : list string :=
  ["up"; "ctrl+p"; "down"; "ctrl+n"; "pgup"; "pgdown"].

(** The matches [filterItems] computes for a section holding [l], for the
    query [q]. *)
Definition shown (q : string) (l : list string) : list fuzzy.Match :=
  if decide (q = EmptyString) then all_match l else fuzzy.Find q l.

End defs.

(** The byte of [s] at offset [i]. *)
Definition byte_at (s : string) (i : Z) : option ascii :=
  if bool_decide (0 <= i) then String.get (Z.to_nat i) s else None.

(** The bytes of a string, first to last. *)
Fixpoint bytes (s : string) : list ascii :=
  match s with
  | EmptyString => []
  | String c s' => c :: bytes s'
  end.

(** The subsequence property of a match for the query [q]: the matched
    positions increase strictly, and the bytes of the item at these
    positions are, in order, the bytes of [q]. *)
Definition subsequence_match (q : string) (mt : fuzzy.Match) : Prop :=
  StronglySorted Z.lt (fuzzy.MatchedIndexes mt)
  ∧ byte_at (fuzzy.Str mt) <$> fuzzy.MatchedIndexes mt = Some <$> bytes q.

(** The selector of the scenario of section 8: candidates alpha, beta and
    gamma, beta recent, and the query "a" typed. *)
Definition greek_list : FL.FuzzyList textinput.simple :=
  FL.Update (FZ := fuzzy.Find_spec)
    (FL.SetItems (FZ := fuzzy.Find_spec) ["alpha"; "beta"; "gamma"]
       (FL.SetRecentItems (FZ := fuzzy.Find_spec) ["beta"]
          (FL.NewFuzzyList "Select")))
    (KeyMsg "a").

(** A list whose load failed, and then succeeded. *)
Definition failed_then_loaded : FL.FuzzyList textinput.simple :=
  FL.SetItems (FZ := fuzzy.Find_spec) ["a"]
    (FL.SetError (Some "connection refused") (FL.NewFuzzyList "Select")).

End FLSpec.

Module WizSpec.
Section defs.
Context {T : Type} {TI : textinput.Model T} {FZ : fuzzy.Finder}
        {LW : Lowering}.
Import Wizard.

(** The text input of the active step: the one the end of [Update] hands
    the keys to.  The result, executing and log states have none here (the
    log view handles its keys apart). *)
Definition activeInput (m : Model T) : option T :=
  match state m with
  | StateSelectKubeConfig => Some (FL.textInput (kcSelector m))
  | StateSelectNamespace => Some (FL.textInput (nsSelector m))
  | StateSelectDeployment => Some (FL.textInput (depSelector m))
  | StateSelectCommand => Some (FL.textInput (cmdSelector m))
  | StateSelectPod => Some (FL.textInput (podSelector m))
  | StateSelectContainer => Some (FL.textInput (contSelector m))
  | StateSelectAssetFolder => Some (FL.textInput (assetSelector m))
  | StateInputValue => Some (valueInput m)
  | _ => None
  end.

(** The query of the active step; empty where there is no text input. *)
Definition activeQuery (m : Model T) : string :=
  default EmptyString (textinput.Value <$> activeInput m).

(** The states that the [backspace] case of [Update] lists. *)
Definition guarded_states : list AppState :=
  [StateSelectKubeConfig; StateSelectNamespace; StateSelectDeployment;
   StateSelectCommand; StateSelectPod; StateSelectContainer;
   StateInputValue].

(** A key acts as a back trigger: [esc] always, [backspace] when the code
    finds the input empty. *)
Definition back_trigger (m : Model T) (key : string) : Prop :=
  key = "esc" ∨ (key = "backspace" ∧ inputEmpty m = true).

(** The messages handled one after the other, the commands dropped;
    [None] when a step panics. *)
Fixpoint run (m : Model T) (msgs : list Msg) : option (Model T) :=
  match msgs with
  | [] => Some m
  | msg :: msgs' =>
      match Update m msg with
      | Some (m', _) => run m' msgs'
      | None => None
      end
  end.

End defs.

(** A session on the small text input and the modelled matcher: a
    namespace is remembered, the deployments load, and the user picks the
    deployment "web". *)
Definition example_config : config.Config :=
  {| config.LastNamespace := "default"; config.KubeConfig := "";
     config.RecentKubeConfigs := []; config.RecentDeployments := ∅;
     config.RecentCommands := []; config.RecentPods := ∅;
     config.RecentLogSearches := [] |}.

Definition start : Wizard.Model textinput.simple :=
  Wizard.NewModel (FZ := fuzzy.Find_spec) example_config
    (Some {| kubeconfig_path := "/home/op/.kube/config" |}) None.

Definition session (msgs : list Msg) : Wizard.Model textinput.simple :=
  default start (run (FZ := fuzzy.Find_spec) start msgs).

Definition pick_web : list Msg :=
  [DeploymentsLoadedMsg ["web"; "db"] None; KeyMsg "enter"].

(** The command selection, nothing typed. *)
Definition at_commands : Wizard.Model textinput.simple := session pick_web.

(** The command selection with "s" typed in the filter. *)
Definition typed_s : Wizard.Model textinput.simple :=
  session (pick_web ++ [KeyMsg "s"]).

(** The scale command, fifth of the list, chosen, and "abc" typed as the
    replica count. *)
Definition scale_abc : Wizard.Model textinput.simple :=
  session (pick_web
           ++ [KeyMsg "down"; KeyMsg "down"; KeyMsg "down"; KeyMsg "down";
               KeyMsg "enter"; KeyMsg "a"; KeyMsg "b"; KeyMsg "c"]).

End WizSpec.

(** ** Further predicates on the fuzzy list *)

Module FLMore.
Section defs.
Context {T : Type} {TI : textinput.Model T} {FZ : fuzzy.Finder}.
Import FL.

(** The matches in the order of the display: the recent section, then the
    other one. *)
Definition shown_matches (f : FuzzyList T) : list fuzzy.Match :=
  filteredRecent f ++ filtered f.

(** Where there are recent matches, the section flag says whether the
    cursor is on one of them. *)
Definition flag_ok (f : FuzzyList T) : Prop :=
  filteredRecent f = []
  ∨ inRecentSection f = bool_decide (cursor f < len (filteredRecent f)).

(** The cursor is a row of the visible window. *)
Definition cursor_visible (f : FuzzyList T) : Prop :=
  scrollOffset f <= cursor f < scrollOffset f + maxVisible f.

End defs.
End FLMore.

(** ** Further predicates on the wizard *)

Module WizMore.
Section defs.
Context {T : Type} {TI : textinput.Model T} {FZ : fuzzy.Finder}
        {LW : Lowering}.
Import Wizard.

(** The selector of the active step, in the states that have one. *)
Definition activeSelector (m : Model T) : option (FL.FuzzyList T) :=
  match state m with
  | StateSelectKubeConfig => Some (kcSelector m)
  | StateSelectNamespace => Some (nsSelector m)
  | StateSelectDeployment => Some (depSelector m)
  | StateSelectCommand => Some (cmdSelector m)
  | StateSelectPod => Some (podSelector m)
  | StateSelectContainer => Some (contSelector m)
  | StateSelectAssetFolder => Some (assetSelector m)
  | _ => None
  end.

(** The line of the command list for a command. *)
Definition display (c : Command) : string :=
  Name c +:+ " - " +:+ Description c.

(** A step function of the wizard that returns a model with the stack it
    was given. *)
Definition keeps_stack (step : Model T → option (Model T * Cmd)) : Prop :=
  ∀ m m' c, step m = Some (m', c) → prevStates m' = prevStates m.

(** The first state a command of the catalog asks for. *)
Definition first_step (c : Command) : AppState :=
  if NeedsPod c then StateSelectPod
  else if NeedsContainer c then StateSelectContainer
  else if NeedsInput c then StateInputValue
  else StateExecuting.

End defs.
End WizMore.

(** ** Text helpers of the two widgets (fuzzylist.go, logviewer.go) *)

Module UIText.

(** [string(rune('0' + d))] for a digit [d]: one ASCII byte. *)
Definition digit_byte (d : Z) : ascii := ascii_of_nat (Z.to_nat (48 + d)).

(** The loop of [itoa]: the digits of [n], the last one first.  A positive
    [n] has at most [log2 n + 1] decimal digits, which bounds the number
    of rounds. *)
Fixpoint itoa_digits (rounds : nat) (n : Z) : list ascii :=
  match rounds with
  | O => []
  | S k =>
      if bool_decide (n > 0)
      then digit_byte (Z.rem n 10) :: itoa_digits k (Z.quot n 10)
      else []
  end.

(** [itoa]: the digits are written last first and then reversed. *)
Definition itoa (n : Z) : string :=
  if decide (n = 0) then "0"
  else String.string_of_list_ascii
         (reverse (itoa_digits (S (Z.to_nat (Z.log2 n))) n)).

(** The bytes at which [wordWrap] prefers to break a line. *)
Definition is_break (c : ascii) : bool :=
  bool_decide (c ∈ [" "; ","; ";"; ":"]%char).

(** The inner loop of [wordWrap]: [i] runs from [lo + n] down to [lo + 1],
    and the first break byte found at [text[i]] gives [i + 1].  The loop
    is entered with [lo + n < len(text)], so the index is in range. *)
Fixpoint find_break (text : string) (lo n : nat) : option nat :=
  match n with
  | O => None
  | S k =>
      if default false (is_break <$> String.get (lo + S k) text)
      then Some (lo + S k + 1)%nat
      else find_break text lo k
  end.

(** [breakAt] for one round of the outer loop. *)
Definition break_at (text : string) (width : nat) : nat :=
  default width (find_break text (width / 2) (width - width / 2)).

(** The outer loop of [wordWrap]; each round writes at least one byte of
    the text, so [len(text)] rounds are enough. *)
Fixpoint wrap_loop (rounds : nat) (text : string) (width : nat) : string :=
  match rounds with
  | O => text
  | S k =>
      if bool_decide (width < String.length text)%nat then
        GoStrings.take_bytes (break_at text width) text
        +:+ "
" +:+ wrap_loop k (GoStrings.drop_bytes (break_at text width) text) width
      else text
  end.

(** [wordWrap]. *)
Definition wordWrap (text : string) (width : Z) : string :=
  if bool_decide (width <= 0) then text
  else wrap_loop (String.length text) text (Z.to_nat width).

(** The pieces [wordWrap] writes, one per line it makes. *)
Fixpoint wrap_pieces (rounds : nat) (text : string) (width : nat)
  : list string :=
  match rounds with
  | O => [text]
  | S k =>
      if bool_decide (width < String.length text)%nat then
        GoStrings.take_bytes (break_at text width) text
        :: wrap_pieces k (GoStrings.drop_bytes (break_at text width) text)
             width
      else [text]
  end.

(** How many times the byte [c] occurs in [s]. *)
Fixpoint count_byte (c : ascii) (s : string) : nat :=
  match s with
  | EmptyString => O
  | String d s' => (if decide (d = c) then 1 else 0) + count_byte c s'
  end.

End UIText.

(** ** Sessions and widgets the further properties are tried on *)

Module Examples.
Import Wizard WizSpec.

(** A viewer that holds two lines and is not in streaming mode. *)
Definition paused_viewer : LV.LogViewer textinput.simple :=
  LV.AppendLog "b" (LV.AppendLog "a" LV.NewLogViewer).

Definition downs (n : nat) : list Msg := replicate n (KeyMsg "down").

(** The set-env command, ninth of the list, chosen: the containers are
    being loaded. *)
Definition set_env_chosen : Model textinput.simple :=
  session (pick_web ++ downs 8 ++ [KeyMsg "enter"]).

(** The containers have arrived, a single one: the prompt is open. *)
Definition set_env_prompt : Model textinput.simple :=
  session (pick_web ++ downs 8
           ++ [KeyMsg "enter"; ContainersLoadedMsg ["app"] None]).

(** "A=b" typed at the prompt and confirmed. *)
Definition set_env_confirmed : Model textinput.simple :=
  session (pick_web ++ downs 8
           ++ [KeyMsg "enter"; ContainersLoadedMsg ["app"] None;
               KeyMsg "A"; KeyMsg "="; KeyMsg "b"; KeyMsg "enter"]).

(** The port-forward command, seventh of the list, with a pod picked and
    "8:9" confirmed. *)
Definition port_forward_confirmed : Model textinput.simple :=
  session (pick_web ++ downs 6
           ++ [KeyMsg "enter"; PodsLoadedMsg ["web-1 (Running)"] None;
               KeyMsg "enter"; KeyMsg "8"; KeyMsg ":"; KeyMsg "9";
               KeyMsg "enter"]).

(** Logs have arrived and are shown. *)
Definition logs_shown : Model textinput.simple :=
  session (pick_web ++ [LogsLoadedMsg "a" None]).

(** A command has failed and its error is shown. *)
Definition failed_command : Model textinput.simple :=
  session (pick_web ++ [CommandResultMsg EmptyString (Some "boom")]).

End Examples.

(** * Theorems *)

(** The tests of [Update] on a given key, decided. *)
Ltac eval_keys :=
  repeat match goal with
         | |- context [key_in ?k ?l] =>
             let b := eval vm_compute in (key_in k l) in
             change (key_in k l) with b
         end;
  cbv iota.

(** ** Strings *)

Section string_facts.
Import GoStrings.

Lemma HasPrefix_empty s : HasPrefix s EmptyString = true.
Proof. by destruct s. Qed.

Lemma Contains_empty s : Contains s EmptyString = true.
Proof.
  unfold Contains, Index. destruct s; done.
Qed.

End string_facts.

(** ** The log viewer *)

Section logviewer_facts.
Context {T : Type} {TI : textinput.Model T} {LW : Lowering}.
Import LV LVSpec.

Lemma len_nonneg {A} (l : list A) : 0 <= len l.
Proof. unfold len. lia. Qed.

Lemma len_app {A} (l1 l2 : list A) : len (l1 ++ l2) = len l1 + len l2.
Proof. unfold len. rewrite length_app. lia. Qed.

Lemma matching_empty lines : matching EmptyString lines = lines.
Proof.
  unfold matching. induction lines as [|x lines IH]; [done|].
  rewrite filter_cons_True; [by rewrite IH|].
  by rewrite Contains_empty.
Qed.

(** The two branches of [filterLogs] agree: the filter keeps exactly the
    lines whose lower-cased text contains the lower-cased query. *)
Lemma visible_matching v lines :
  visible v lines = matching (ToLower v) lines.
Proof.
  unfold visible. case_decide as Hq; [|done].
  by rewrite Hq, matching_empty.
Qed.

Lemma visible_app v l1 l2 :
  visible v (l1 ++ l2) = visible v l1 ++ visible v l2.
Proof. rewrite !visible_matching. unfold matching. apply filter_app. Qed.

Lemma filterLogs_filtered l :
  filteredLines (filterLogs l)
  = visible (textinput.Value (searchInput l)) (allLines l).
Proof. done. Qed.

Lemma filterLogs_selected l :
  selectedIndex (filterLogs l)
  = if bool_decide (selectedIndex l >= len (filteredLines (filterLogs l)))
    then 0 else selectedIndex l.
Proof. done. Qed.

Lemma inv_filterLogs l :
  0 <= selectedIndex l → 0 <= Height (viewport l) → inv (filterLogs l).
Proof.
  intros Hlo Hh. split; [done| | |done].
  - rewrite filterLogs_selected. case_bool_decide; lia.
  - rewrite filterLogs_selected. case_bool_decide; lia.
Qed.

Lemma inv_set_selectedIndex s l :
  inv l → 0 <= s → s < len (filteredLines l) ∨ s = 0 →
  inv (set_selectedIndex s l).
Proof. intros [] ??. by split. Qed.

Lemma inv_set_searchInput t l :
  inv l → textinput.Value t = textinput.Value (searchInput l) →
  inv (set_searchInput t l).
Proof. intros [] Hv. split; simpl; [by rewrite Hv|done..]. Qed.

Lemma inv_key_up l : inv l → inv (key_up l).
Proof.
  intros Hi. unfold key_up, updateContent. case_bool_decide; [|done].
  destruct Hi as [? ? ? ?].
  apply inv_set_selectedIndex; [by split|lia|lia].
Qed.

Lemma inv_key_down l : inv l → inv (key_down l).
Proof.
  intros Hi. unfold key_down, updateContent. case_bool_decide; [|done].
  destruct Hi as [? ? ? ?].
  apply inv_set_selectedIndex; [by split|lia|lia].
Qed.

Lemma quot2_nonneg h : 0 <= h → 0 <= h `quot` 2.
Proof. intros. apply Z.quot_pos; lia. Qed.

Lemma inv_key_pgup l : inv l → inv (key_pgup l).
Proof.
  intros Hi. unfold key_pgup, updateContent.
  pose proof (quot2_nonneg _ (inv_height _ Hi)).
  destruct Hi as [? ? ? ?].
  apply inv_set_selectedIndex; [by split|..]; case_bool_decide; lia.
Qed.

Lemma inv_key_pgdown l : inv l → inv (key_pgdown l).
Proof.
  intros Hi. unfold key_pgdown, updateContent.
  pose proof (quot2_nonneg _ (inv_height _ Hi)).
  pose proof (len_nonneg (filteredLines l)).
  destruct Hi as [? ? ? ?].
  apply inv_set_selectedIndex; [by split|..];
    repeat case_bool_decide; lia.
Qed.

Lemma inv_key_end l : inv l → inv (key_end l).
Proof.
  intros Hi. unfold key_end, updateContent. case_bool_decide; [|done].
  apply inv_set_selectedIndex; [done|lia|lia].
Qed.

Lemma inv_Focus l : inv l → inv (Focus l).
Proof. intros. apply inv_set_searchInput, textinput.Value_Focus. done. Qed.

Lemma inv_Blur l : inv l → inv (Blur l).
Proof. intros. apply inv_set_searchInput, textinput.Value_Blur. done. Qed.

Lemma inv_update_search l msg : inv l → inv (update_search l msg).
Proof.
  intros Hi. unfold update_search. case_match; [|done].
  case_decide as Hv.
  - apply inv_filterLogs; simpl; by destruct Hi.
  - apply inv_set_searchInput; [done|]. simpl in Hv.
    by destruct (decide (textinput.Value
                           (textinput.Update (searchInput l) msg)
                         = textinput.Value (searchInput l))).
Qed.

Lemma inv_Update l msg : inv l → inv (Update l msg).
Proof.
  intros Hi. unfold Update.
  destruct msg; try by apply inv_update_search.
  repeat case_match;
    auto using inv_key_up, inv_key_down, inv_key_pgup, inv_key_pgdown,
      inv_key_end, inv_Focus, inv_Blur, inv_update_search.
  - apply inv_set_selectedIndex; [done|lia|by right].
  - apply inv_filterLogs; simpl; by destruct Hi.
Qed.

Lemma inv_SetLogs logs l : inv l → inv (SetLogs logs l).
Proof.
  intros [? ? ? ?]. unfold SetLogs. case_decide; by apply inv_filterLogs.
Qed.

Lemma inv_AppendLog line l : inv l → inv (AppendLog line l).
Proof.
  intros [? ? ? ?]. unfold AppendLog.
  set (l1 := filterLogs _).
  assert (inv l1) as Hi1 by by apply inv_filterLogs.
  repeat case_match; try done.
  case_bool_decide; [|done].
  apply inv_set_selectedIndex; [done|lia|lia].
Qed.

Lemma inv_SetSize w h l : inv l → inv (SetSize w h l).
Proof.
  intros [? ? ? ?]. unfold SetSize, updateContent.
  split; simpl; [done..|]. case_bool_decide; lia.
Qed.

Lemma inv_New : inv NewLogViewer.
Proof.
  split; simpl; [|done|by right|done].
  unfold visible. by case_decide.
Qed.

(** Every viewer the program can build satisfies the invariant. *)
Lemma reachable_inv l : reachable l → inv l.
Proof.
  induction 1 as [|w h l _ IH|logs l _ IH|line l _ IH|b l _ IH|s l _ IH
                  |l _ IH|l _ IH|msg l _ IH].
  - apply inv_New.
  - by apply inv_SetSize.
  - by apply inv_SetLogs.
  - by apply inv_AppendLog.
  - destruct IH. by split.
  - destruct IH. by split.
  - by apply inv_Focus.
  - by apply inv_Blur.
  - by apply inv_Update.
Qed.

End logviewer_facts.

Section logviewer_claims.
Context {T : Type} {TI : textinput.Model T} {LW : Lowering}.
Import LV LVSpec.

(** Under the invariant, a selected index at or past the end of the
    filtered lines is 0, and there is no filtered line. *)
Lemma inv_past_end l :
  inv l → selectedIndex l >= len (filteredLines l) →
  selectedIndex l = 0 ∧ len (filteredLines l) = 0.
Proof.
  intros [_ ? ? _] ?. pose proof (len_nonneg (filteredLines l)). lia.
Qed.

Lemma filteredLines_AppendLog line l :
  filteredLines (AppendLog line l)
  = visible (textinput.Value (searchInput l)) (allLines l ++ [line]).
Proof. unfold AppendLog. by repeat case_match. Qed.

Lemma allLines_AppendLog line l :
  allLines (AppendLog line l) = allLines l ++ [line].
Proof. unfold AppendLog. by repeat case_match. Qed.

Lemma searchInput_AppendLog line l :
  searchInput (AppendLog line l) = searchInput l.
Proof. unfold AppendLog. by repeat case_match. Qed.

Lemma streaming_AppendLog line l :
  streaming (AppendLog line l) = streaming l
  ∧ autoScroll (AppendLog line l) = autoScroll l.
Proof. unfold AppendLog. by repeat case_match. Qed.

Lemma past_end_filterLogs l :
  selectedIndex l >= len (filteredLines (filterLogs l)) →
  selectedIndex (filterLogs l) = 0.
Proof. intros. rewrite filterLogs_selected. by case_bool_decide. Qed.

Lemma past_end_SetLogs logs l :
  selectedIndex l >= len (filteredLines (SetLogs logs l)) →
  selectedIndex (SetLogs logs l) = 0.
Proof.
  unfold SetLogs. case_decide; intros; by apply past_end_filterLogs.
Qed.

Lemma past_end_AppendLog line l :
  inv l →
  selectedIndex l >= len (filteredLines (AppendLog line l)) →
  selectedIndex (AppendLog line l) = 0.
Proof.
  intros Hi. rewrite filteredLines_AppendLog, visible_app, len_app.
  rewrite <- (inv_filtered _ Hi). intros Hge.
  pose proof (len_nonneg (visible (textinput.Value (searchInput l)) [line])).
  destruct (inv_past_end l Hi) as [Hs Hz]; [lia|].
  unfold AppendLog. set (l1 := filterLogs _).
  assert (len (filteredLines l1) = 0) as Hl1.
  { unfold l1. rewrite filterLogs_filtered. simpl.
    rewrite visible_app, len_app, <- (inv_filtered _ Hi). lia. }
  assert (selectedIndex l1 = 0) as Hs1.
  { unfold l1 at 1. apply past_end_filterLogs.
    change (selectedIndex l >= len (filteredLines l1)). lia. }
  destruct (autoScroll l1 && streaming l1); [|done].
  case_bool_decide; [lia|done].
Qed.

Lemma past_end_update_search msg l :
  inv l →
  selectedIndex l >= len (filteredLines (update_search l msg)) →
  selectedIndex (update_search l msg) = 0.
Proof.
  intros Hi. unfold update_search. case_match.
  - case_decide.
    + intros. by apply past_end_filterLogs.
    + simpl. intros. by apply inv_past_end.
  - intros. by apply inv_past_end.
Qed.

Lemma past_end_Update msg l :
  inv l →
  selectedIndex l >= len (filteredLines (Update l msg)) →
  selectedIndex (Update l msg) = 0.
Proof.
  intros Hi. pose proof (quot2_nonneg _ (inv_height _ Hi)) as Hq.
  unfold Update.
  destruct msg; try by apply past_end_update_search.
  repeat case_match; try by apply past_end_update_search.
  all: unfold key_up, key_down, key_pgup, key_pgdown, key_end, Focus, Blur,
         updateContent.
  all: try (intros; by apply past_end_filterLogs).
  all: repeat case_bool_decide; simpl; intros Hge; try done.
  all: try (destruct (inv_past_end l Hi) as [Hs Hz]; [lia|]; lia).
Qed.

(** C2: in every viewer the program can build, a non-empty list of
    filtered lines contains the selected index; and each operation that
    changes the filter (replacing the content, appending a line, handling
    a message, which covers every edit of the query) sets the selected
    index to 0, not to the last position, when the index it had is at or
    past the new number of filtered lines. *)
Theorem C2_selected_index_in_range (l : LogViewer T) :
  reachable l →
  (0 < len (filteredLines l) →
   0 <= selectedIndex l < len (filteredLines l))
  ∧ (∀ logs, selectedIndex l >= len (filteredLines (SetLogs logs l)) →
             selectedIndex (SetLogs logs l) = 0)
  ∧ (∀ line, selectedIndex l >= len (filteredLines (AppendLog line l)) →
             selectedIndex (AppendLog line l) = 0)
  ∧ (∀ msg, selectedIndex l >= len (filteredLines (Update l msg)) →
            selectedIndex (Update l msg) = 0).
Proof.
  intros Hr. pose proof (reachable_inv l Hr) as Hi.
  split; [|split; [|split]].
  - destruct Hi as [_ ? ? _]. lia.
  - intros. by apply past_end_SetLogs.
  - intros. by apply past_end_AppendLog.
  - intros. by apply past_end_Update.
Qed.

Lemma append_all_snoc lines line (l : LogViewer T) :
  append_all (lines ++ [line]) l = AppendLog line (append_all lines l).
Proof. unfold append_all. by rewrite foldl_app. Qed.

Lemma append_all_fields lines (l : LogViewer T) :
  allLines (append_all lines l) = allLines l ++ lines
  ∧ searchInput (append_all lines l) = searchInput l
  ∧ streaming (append_all lines l) = streaming l
  ∧ autoScroll (append_all lines l) = autoScroll l.
Proof.
  induction lines as [|line lines IH] using rev_ind.
  - simpl. by rewrite app_nil_r.
  - rewrite append_all_snoc, allLines_AppendLog, searchInput_AppendLog.
    destruct IH as (-> & -> & <- & <-).
    rewrite <- app_assoc. split; [done|]. split; [done|].
    apply streaming_AppendLog.
Qed.

Lemma selected_AppendLog_follow line l :
  streaming l = true → autoScroll l = true →
  0 < len (filteredLines (AppendLog line l)) →
  selectedIndex (AppendLog line l)
  = len (filteredLines (AppendLog line l)) - 1.
Proof.
  intros Hs Ha. unfold AppendLog. set (l1 := filterLogs _).
  assert (autoScroll l1 = true ∧ streaming l1 = true) as [-> ->] by done.
  cbn [andb]. case_bool_decide as Hlen; intros Hpos; [done|lia].
Qed.

(** C3: with streaming and auto-follow on, [AppendLog] adds the line,
    filters all the lines again with the current query and, when a line
    is shown, selects the last one shown.  Appending N lines to an empty
    buffer shows the lines among the N that match the query; with the
    empty query that is all of them, and the selected index is N-1. *)
Theorem C3_streaming_append_follows (l : LogViewer T) :
  streaming l = true → autoScroll l = true →
  (∀ line,
     allLines (AppendLog line l) = allLines l ++ [line]
     ∧ filteredLines (AppendLog line l)
       = visible (textinput.Value (searchInput l)) (allLines l ++ [line])
     ∧ (0 < len (filteredLines (AppendLog line l)) →
        selectedIndex (AppendLog line l)
        = len (filteredLines (AppendLog line l)) - 1)
     ∧ streaming (AppendLog line l) = true
     ∧ autoScroll (AppendLog line l) = true)
  ∧ (∀ lines,
       allLines l = [] → lines ≠ [] →
       filteredLines (append_all lines l)
       = visible (textinput.Value (searchInput l)) lines
       ∧ (textinput.Value (searchInput l) = EmptyString →
          filteredLines (append_all lines l) = lines
          ∧ selectedIndex (append_all lines l) = len lines - 1)).
Proof.
  intros Hs Ha. split.
  - intros line.
    split; [apply allLines_AppendLog|].
    split; [apply filteredLines_AppendLog|].
    split; [by apply selected_AppendLog_follow|].
    destruct (streaming_AppendLog line l) as [-> ->]. done.
  - intros lines Hnil Hne.
    destruct lines as [|line lines _] using rev_ind; [done|].
    rewrite append_all_snoc.
    destruct (append_all_fields lines l) as (Hall & Hin & Hst & Hau).
    rewrite Hnil in Hall. simpl in Hall.
    assert (filteredLines (AppendLog line (append_all lines l))
            = visible (textinput.Value (searchInput l)) (lines ++ [line]))
      as Hf by by rewrite filteredLines_AppendLog, Hall, Hin.
    split; [done|]. intros Hq.
    assert (visible (textinput.Value (searchInput l)) (lines ++ [line])
            = lines ++ [line]) as Hv.
    { unfold visible. rewrite Hq, ToLower_empty. by case_decide. }
    split; [by rewrite Hf|].
    rewrite selected_AppendLog_follow; [by rewrite Hf, Hv| | |].
    + by rewrite Hst.
    + by rewrite Hau.
    + rewrite Hf, Hv, len_app. pose proof (len_nonneg lines).
      unfold len at 2. simpl. lia.
Qed.

(** C10: [SetLogs] with the empty string leaves no line at all, so no
    line is shown whatever the query is; splitting the empty string
    would have given one empty line. *)
Theorem C10_SetLogs_empty_string (l : LogViewer T) :
  allLines (SetLogs EmptyString l) = []
  ∧ filteredLines (SetLogs EmptyString l) = []
  ∧ len (filteredLines (SetLogs EmptyString l)) = 0
  ∧ GoStrings.Split EmptyString "
" = [EmptyString].
Proof.
  unfold SetLogs. case_decide; [|done].
  rewrite filterLogs_filtered. simpl.
  unfold visible. by case_decide.
Qed.

End logviewer_claims.

Section logviewer_filter_claim.
Context {T : Type} {TI : textinput.Model T}.
Import LV LVSpec.

(** C6: for every lower-casing function, buffer and query, [filterLogs]
    keeps exactly the lines whose lower-cased text contains the
    lower-cased query, in their order, and keeps all the lines when the
    query is empty.  With the buffer "connect ok", "error: timeout",
    "retry ok" and the query "error", the only line kept is
    "error: timeout" and the selected index is 0. *)
Theorem C6_filterLogs_substring_filter :
  (∀ (L : Lowering) (l : LogViewer T),
     filteredLines (filterLogs l)
     = filter (λ line,
                 GoStrings.Contains (ToLower line)
                   (ToLower (textinput.Value (searchInput l))))
         (allLines l)
     ∧ (textinput.Value (searchInput l) = EmptyString →
        filteredLines (filterLogs l) = allLines l))
  ∧ (∀ l : LogViewer T,
       allLines l = ["connect ok"; "error: timeout"; "retry ok"] →
       textinput.Value (searchInput l) = "error" →
       0 <= selectedIndex l →
       filteredLines (filterLogs (LW := ascii_Lowering) l)
       = ["error: timeout"]
       ∧ selectedIndex (filterLogs (LW := ascii_Lowering) l) = 0).
Proof.
  split.
  - intros L l. rewrite filterLogs_filtered. split.
    + apply visible_matching.
    + intros Hq. unfold visible. rewrite Hq, ToLower_empty.
      by case_decide.
  - intros l Hall Hq Hs.
    assert (filteredLines (filterLogs (LW := ascii_Lowering) l)
            = ["error: timeout"]) as Hf.
    { rewrite filterLogs_filtered, Hall, Hq. by vm_compute. }
    split; [done|].
    rewrite filterLogs_selected, Hf. case_bool_decide; [done|].
    unfold len in *. simpl in *. lia.
Qed.

End logviewer_filter_claim.

(** The claims on the viewer, run on a concrete text input. *)
Section logviewer_witnesses.
Import LV LVSpec.

Lemma C2_witness :
  reachable one_line_viewer
  ∧ 0 <= selectedIndex one_line_viewer < len (filteredLines one_line_viewer).
Proof.
  assert (reachable one_line_viewer) as Hr by repeat constructor.
  split; [exact Hr|].
  apply (proj1 (C2_selected_index_in_range one_line_viewer Hr)).
  reflexivity.
Defined.

Lemma C3_witness :
  selectedIndex (append_all ["a"; "b"; "c"] (SetStreaming true NewLogViewer))
  = 2.
Proof.
  pose proof (C3_streaming_append_follows
                (SetStreaming true (NewLogViewer (T := textinput.simple)))
                eq_refl eq_refl) as [_ H].
  destruct (H ["a"; "b"; "c"] eq_refl ltac:(discriminate)) as [_ H2].
  destruct (H2 eq_refl) as [_ H3]. exact H3.
Defined.

Lemma C6_witness :
  filteredLines (filterLogs error_viewer) = ["error: timeout"]
  ∧ selectedIndex (filterLogs error_viewer) = 0.
Proof.
  pose proof (C6_filterLogs_substring_filter (T := textinput.simple))
    as [_ H].
  apply (H error_viewer); [reflexivity|reflexivity|].
  vm_compute. discriminate.
Defined.

End logviewer_witnesses.

(** ** The fuzzy list *)

Section fuzzylist_facts.
Context {T : Type} {TI : textinput.Model T} {FZ : fuzzy.Finder}.
Import FL FLSpec.

Lemma fl_len_nonneg {A} (l : list A) : 0 <= FL.len l.
Proof. unfold FL.len. lia. Qed.

Lemma totalItems_nonneg (f : FuzzyList T) : 0 <= totalItems f.
Proof.
  unfold totalItems.
  pose proof (fl_len_nonneg (filteredRecent f)).
  pose proof (fl_len_nonneg (filtered f)). lia.
Qed.

Lemma filterItems_cursor (f : FuzzyList T) :
  cursor (filterItems f)
  = if bool_decide (cursor f >= totalItems (filterItems f)) then 0
    else cursor f.
Proof. done. Qed.

Lemma filterItems_sections (f : FuzzyList T) :
  filteredRecent (filterItems f)
  = (if bool_decide (0 < FL.len (recentItems f))
     then shown (GetInput f) (recentItems f) else [])
  ∧ filtered (filterItems f) = shown (GetInput f) (itemsWithoutRecent f).
Proof. done. Qed.

Lemma inv_filterItems (f : FuzzyList T) :
  0 <= cursor f → maxVisible f = 10 → inv (filterItems f).
Proof.
  intros Hlo Hp. split; [| |done].
  - rewrite filterItems_cursor. case_bool_decide; lia.
  - rewrite filterItems_cursor. case_bool_decide; lia.
Qed.

Lemma inv_set_textInput t (f : FuzzyList T) :
  inv f → inv (set_textInput t f).
Proof. intros []. by split. Qed.

(** The invariant only reads the cursor, the two sections and the page
    size: after the tests of a key handler are decided, it is linear
    arithmetic. *)
Ltac fl_inv_arith :=
  repeat case_bool_decide; split; unfold totalItems in *; simpl; lia.

Lemma inv_key_up_fl (f : FuzzyList T) : inv f → inv (key_up f).
Proof. intros [Hlo Hhi Hp]. unfold key_up. fl_inv_arith. Qed.

Lemma inv_key_down_fl (f : FuzzyList T) : inv f → inv (key_down f).
Proof. intros [Hlo Hhi Hp]. unfold key_down. fl_inv_arith. Qed.

Lemma inv_key_pgup_fl (f : FuzzyList T) : inv f → inv (key_pgup f).
Proof. intros [Hlo Hhi Hp]. unfold key_pgup. rewrite Hp. fl_inv_arith. Qed.

Lemma inv_key_pgdown_fl (f : FuzzyList T) : inv f → inv (key_pgdown f).
Proof.
  intros [Hlo Hhi Hp]. pose proof (totalItems_nonneg f).
  unfold key_pgdown. rewrite Hp. fl_inv_arith.
Qed.

Lemma inv_update_input (f : FuzzyList T) msg : inv f → inv (update_input f msg).
Proof.
  intros Hi. unfold update_input. case_decide.
  - destruct Hi. by apply inv_filterItems.
  - by apply inv_set_textInput.
Qed.

Lemma inv_Update_fl (f : FuzzyList T) msg : inv f → inv (Update f msg).
Proof.
  intros Hi. unfold Update.
  destruct msg; try by apply inv_update_input.
  repeat case_match;
    auto using inv_key_up_fl, inv_key_down_fl, inv_key_pgup_fl,
      inv_key_pgdown_fl, inv_update_input.
Qed.

(** Every list the program can build satisfies the invariant. *)
Lemma reachable_inv_fl (f : FuzzyList T) : reachable f → inv f.
Proof.
  induction 1 as [title|its f _ IH|its f _ IH|e f _ IH|b f _ IH|f _ IH
                  |f _ IH|f _ IH|msg f _ IH].
  - split; simpl; [done|by right|done].
  - destruct IH. by apply inv_filterItems.
  - destruct IH. by apply inv_filterItems.
  - destruct IH. by split.
  - destruct IH. by split.
  - destruct IH. by apply inv_filterItems.
  - by apply inv_set_textInput.
  - by apply inv_set_textInput.
  - by apply inv_Update_fl.
Qed.

Lemma inv_past_end_fl (f : FuzzyList T) :
  inv f → cursor f >= totalItems f → cursor f = 0 ∧ totalItems f = 0.
Proof. intros [? ? _] ?. pose proof (totalItems_nonneg f). lia. Qed.

Lemma past_end_filterItems (f : FuzzyList T) :
  cursor f >= totalItems (filterItems f) → cursor (filterItems f) = 0.
Proof. intros. rewrite filterItems_cursor. by case_bool_decide. Qed.

Lemma past_end_update_input (f : FuzzyList T) msg :
  inv f →
  cursor f >= totalItems (update_input f msg) →
  cursor (update_input f msg) = 0.
Proof.
  intros Hi. unfold update_input. case_decide.
  - intros. by apply past_end_filterItems.
  - intros Hge. by destruct (inv_past_end_fl f Hi Hge).
Qed.

(** The keys that move the cursor do not change the two sections. *)
Lemma nav_total (f : FuzzyList T) key :
  key ∈ nav_keys → totalItems (Update f (KeyMsg key)) = totalItems f.
Proof.
  intros Hk. unfold nav_keys in Hk.
  repeat (apply elem_of_cons in Hk as [->|Hk]);
    [..|by apply elem_of_nil in Hk];
    unfold Update; eval_keys;
    unfold key_up, key_down, key_pgup, key_pgdown;
    by repeat case_bool_decide.
Qed.

Lemma past_end_Update_fl (f : FuzzyList T) msg :
  inv f →
  cursor f >= totalItems (Update f msg) → cursor (Update f msg) = 0.
Proof.
  intros Hi. pose proof (totalItems_nonneg f) as Ht.
  unfold Update.
  destruct msg; try by apply past_end_update_input.
  repeat case_match; try by apply past_end_update_input.
  all: unfold key_up, key_down, key_pgup, key_pgdown.
  all: destruct Hi as [Hlo Hhi Hp]; rewrite ?Hp.
  all: repeat case_bool_decide; unfold totalItems in *; simpl; lia.
Qed.

(** C1: in every list the program can build, a non-empty list of matches
    contains the cursor; replacing the candidates or the recent items, and
    handling a message (which covers every edit of the query), set the
    cursor to 0, not to the last position, when the cursor it had is at or
    past the new number of matches; and the keys that move the cursor keep
    the matches and leave the cursor among them. *)
Theorem C1_cursor_in_range (f : FuzzyList T) :
  reachable f →
  (0 < totalItems f → 0 <= cursor f < totalItems f)
  ∧ (∀ its, cursor f >= totalItems (SetItems its f) →
            cursor (SetItems its f) = 0)
  ∧ (∀ its, cursor f >= totalItems (SetRecentItems its f) →
            cursor (SetRecentItems its f) = 0)
  ∧ (∀ msg, cursor f >= totalItems (Update f msg) →
            cursor (Update f msg) = 0)
  ∧ (∀ key, key ∈ nav_keys →
            totalItems (Update f (KeyMsg key)) = totalItems f
            ∧ (0 < totalItems f →
               0 <= cursor (Update f (KeyMsg key)) < totalItems f)).
Proof.
  intros Hr. pose proof (reachable_inv_fl f Hr) as Hi.
  split; [|split; [|split; [|split]]].
  - destruct Hi as [? ? _]. lia.
  - intros its.
    apply (past_end_filterItems (set_loading false (set_items its f))).
  - intros its. apply (past_end_filterItems (set_recentItems its f)).
  - intros. by apply past_end_Update_fl.
  - intros key Hk. split; [by apply nav_total|].
    rewrite <- (nav_total f key Hk).
    destruct (inv_Update_fl f (KeyMsg key) Hi) as [? ? _]. lia.
Qed.

End fuzzylist_facts.

Section matcher_facts.
Import fuzzy FLSpec.

Lemma byte_at_cons c s p : 1 <= p → byte_at (String c s) p = byte_at s (p - 1).
Proof.
  intros Hp. unfold byte_at.
  rewrite !bool_decide_eq_true_2 by lia.
  replace (Z.to_nat p) with (S (Z.to_nat (p - 1))) by lia. done.
Qed.

(** The positions found for [q] in [s] increase strictly, start at the
    offset, and select the bytes of [q]. *)
Lemma match_positions_spec s :
  ∀ i q pos,
    match_positions i q s = Some pos →
    StronglySorted Z.lt pos
    ∧ Forall (λ p, i <= p) pos
    ∧ (λ p, byte_at s (p - i)) <$> pos = Some <$> bytes q.
Proof.
  induction s as [|c s IH]; intros i q pos; destruct q as [|qc q]; simpl.
  - intros [= <-]. repeat split; constructor.
  - done.
  - intros [= <-]. repeat split; constructor.
  - case_decide as Hc.
    + intros (pos' & Hm & ->)%fmap_Some.
      destruct (IH _ _ _ Hm) as (Hs & Hlo & Hb).
      split; [|split].
      * constructor; [done|]. eapply Forall_impl; [exact Hlo|].
        simpl. intros. lia.
      * constructor; [lia|]. eapply Forall_impl; [exact Hlo|].
        simpl. intros. lia.
      * cbn [bytes]. rewrite !fmap_cons. f_equal.
        { rewrite Z.sub_diag, Hc. done. }
        etrans; [|exact Hb]. apply Forall_fmap_ext.
        eapply Forall_impl; [exact Hlo|]. simpl. intros p Hp.
        rewrite byte_at_cons by lia. f_equal. lia.
    + intros Hm. destruct (IH _ _ _ Hm) as (Hs & Hlo & Hb).
      split; [done|]. split.
      * eapply Forall_impl; [exact Hlo|]. simpl. intros. lia.
      * etrans; [|exact Hb]. apply Forall_fmap_ext.
        eapply Forall_impl; [exact Hlo|]. simpl. intros p Hp.
        rewrite byte_at_cons by lia. f_equal. lia.
Qed.

Lemma find_from_spec q data :
  ∀ i mt, mt ∈ find_from i q data →
          Str mt ∈ data
          ∧ match_positions 0 q (Str mt) = Some (MatchedIndexes mt).
Proof.
  induction data as [|item data IH]; intros i mt; simpl.
  - by intros ?%elem_of_nil.
  - destruct (match_positions 0 q item) as [pos|] eqn:Hm.
    + intros [->|Hin]%elem_of_cons.
      * simpl. split; [apply list_elem_of_here|done].
      * destruct (IH _ _ Hin). split; [by apply list_elem_of_further|done].
    + intros Hin. destruct (IH _ _ Hin).
      split; [by apply list_elem_of_further|done].
Qed.

(** Every match of the modelled matcher has the subsequence property. *)
Lemma Find_spec_subsequence q data mt :
  mt ∈ Find_spec q data → subsequence_match q mt.
Proof.
  intros [_ Hm]%find_from_spec.
  destruct (match_positions_spec _ _ _ _ Hm) as (Hs & _ & Hb).
  split; [done|]. rewrite <- Hb. apply list_fmap_ext.
  intros ? p _. f_equal. lia.
Qed.

Lemma all_match_Str l : Str <$> FL.all_match l = l.
Proof.
  unfold FL.all_match. apply list_eq. intros i.
  rewrite list_lookup_fmap, list_lookup_imap. by destruct (l !! i).
Qed.

Lemma all_match_no_positions l mt :
  mt ∈ FL.all_match l → MatchedIndexes mt = [].
Proof.
  unfold FL.all_match. intros (i & x & -> & _)%elem_of_lookup_imap. done.
Qed.

Lemma subsequence_match_empty mt :
  MatchedIndexes mt = [] → subsequence_match EmptyString mt.
Proof. intros H. unfold subsequence_match. rewrite H. split; constructor. Qed.

End matcher_facts.

Section fuzzylist_claims.
Context {T : Type} {TI : textinput.Model T}.
Import FL FLSpec.

Lemma shown_empty_query {FZ : fuzzy.Finder} l :
  shown EmptyString l = all_match l.
Proof. unfold shown. by case_decide. Qed.

Lemma len_zero_nil {A} (l : list A) : ¬ 0 < FL.len l → l = [].
Proof. destruct l; [done|]. unfold FL.len. simpl. lia. Qed.

(** C7: with the matcher modelled from section 4.1, every match that
    [filterItems] returns, in either section, carries positions that
    increase strictly and whose bytes in the item are, in order, the bytes
    of the query.  For any matcher, the empty query returns every recent
    item and every other item, in their order, with no matched
    position. *)
Theorem C7_matches_are_subsequences (f : FuzzyList T) :
  (∀ mt,
     mt ∈ filteredRecent (filterItems (FZ := fuzzy.Find_spec) f)
          ++ filtered (filterItems (FZ := fuzzy.Find_spec) f) →
     subsequence_match (GetInput f) mt)
  ∧ (∀ FZ : fuzzy.Finder,
       GetInput f = EmptyString →
       fuzzy.Str <$> filteredRecent (filterItems f) = recentItems f
       ∧ fuzzy.Str <$> filtered (filterItems f) = itemsWithoutRecent f
       ∧ (∀ mt, mt ∈ filteredRecent (filterItems f)
                     ++ filtered (filterItems f) →
                fuzzy.MatchedIndexes mt = [])
       ∧ (∀ x, x ∈ items f →
               x ∈ recentItems f ∨ x ∈ itemsWithoutRecent f)).
Proof.
  split.
  - intros mt.
    destruct (filterItems_sections (FZ := fuzzy.Find_spec) f) as [-> ->].
    assert (∀ l, mt ∈ shown (FZ := fuzzy.Find_spec) (GetInput f) l →
                 subsequence_match (GetInput f) mt) as Hshown.
    { intros l. unfold shown. case_decide as Hq.
      - rewrite Hq. intros ?%all_match_no_positions.
        by apply subsequence_match_empty.
      - apply Find_spec_subsequence. }
    intros [Hin|Hin]%elem_of_app; [|by eapply Hshown].
    case_bool_decide; [by eapply Hshown|by apply elem_of_nil in Hin].
  - intros FZ Hq. destruct (filterItems_sections f) as [Hr Hf].
    rewrite Hr, Hf, Hq, !shown_empty_query.
    split; [|split; [|split]].
    + case_bool_decide as Hl; [apply all_match_Str|].
      by rewrite (len_zero_nil _ Hl).
    + apply all_match_Str.
    + intros mt [Hin|Hin]%elem_of_app.
      * case_bool_decide; [by eapply all_match_no_positions|].
        by apply elem_of_nil in Hin.
      * by eapply all_match_no_positions.
    + intros x Hx. unfold itemsWithoutRecent.
      destruct (decide (x ∈ recentItems f)) as [|Hn]; [by left|right].
      apply list_elem_of_filter. split; [|done].
      by rewrite elem_of_list_to_set.
Qed.

(** C8 as amended: [SetItems] replaces the candidates, clears the loading
    flag, computes the two sections again from the new candidates and the
    query, and leaves the text input, hence the query, as it was; the error
    of the list is left as it was too. *)
Theorem C8_SetItems_keeps_error {FZ : fuzzy.Finder} its (f : FuzzyList T) :
  items (SetItems its f) = its
  ∧ loading (SetItems its f) = false
  ∧ filteredRecent (SetItems its f)
    = (if bool_decide (0 < FL.len (recentItems f))
       then shown (GetInput f) (recentItems f) else [])
  ∧ filtered (SetItems its f)
    = shown (GetInput f)
        (filter (λ item, item ∉ (list_to_set (recentItems f) : gset string))
           its)
  ∧ textInput (SetItems its f) = textInput f
  ∧ GetInput (SetItems its f) = GetInput f
  ∧ err (SetItems its f) = err f.
Proof.
  unfold SetItems. destruct (filterItems_sections
                               (set_loading false (set_items its f)))
    as [Hr Hf].
  rewrite Hr, Hf. by repeat split.
Qed.

End fuzzylist_claims.

Section fuzzylist_witnesses.
Import FL FLSpec.

(** C8 as stated fails: an error set before [SetItems] is still there
    after it. *)
Lemma C8_counterexample :
  err (SetError (Some "connection refused") (NewFuzzyList "Select"))
  = Some "connection refused"
  ∧ err failed_then_loaded ≠ None.
Proof. split; [reflexivity|discriminate]. Qed.

Lemma C1_witness :
  reachable (FZ := fuzzy.Find_spec) greek_list
  ∧ 0 <= cursor greek_list < totalItems greek_list.
Proof.
  assert (reachable (FZ := fuzzy.Find_spec) greek_list) as Hr
    by repeat constructor.
  split; [exact Hr|].
  apply (C1_cursor_in_range greek_list Hr). reflexivity.
Defined.

Lemma C7_witness :
  GetInput greek_list = "a"
  ∧ subsequence_match (GetInput greek_list)
      {| fuzzy.Str := "gamma"; fuzzy.Index := 1;
         fuzzy.MatchedIndexes := [1] |}.
Proof.
  split; [reflexivity|].
  apply (proj1 (C7_matches_are_subsequences greek_list)
           {| fuzzy.Str := "gamma"; fuzzy.Index := 1;
              fuzzy.MatchedIndexes := [1] |}).
  vm_compute. do 2 apply list_elem_of_further. apply list_elem_of_here.
Defined.

End fuzzylist_witnesses.


(** ** The wizard *)

Section wizard_claims.
Context {T : Type} {TI : textinput.Model T} {FZ : fuzzy.Finder}
        {LW : Lowering}.
Import Wizard WizSpec.

Lemma textInput_update_input (f : FL.FuzzyList T) msg :
  FL.textInput (FL.update_input f msg)
  = textinput.Update (FL.textInput f) msg.
Proof. unfold FL.update_input. by case_decide. Qed.

(** The list hands a backspace to its text input. *)
Lemma textInput_Update_backspace (f : FL.FuzzyList T) :
  FL.textInput (FL.Update f (KeyMsg "backspace"))
  = textinput.Update (FL.textInput f) (KeyMsg "backspace").
Proof. unfold FL.Update. eval_keys. apply textInput_update_input. Qed.

(** A state is not in a list of other states. *)
Ltac not_among H :=
  repeat (apply elem_of_cons in H as [H|H]; [discriminate H|]);
  by apply elem_of_nil in H.

(** With a query typed in a state that the [backspace] case lists, the
    code finds the input not empty. *)
Lemma inputEmpty_false (m : Model T) :
  state m ∈ guarded_states → activeQuery m ≠ EmptyString →
  inputEmpty m = false.
Proof.
  unfold guarded_states, activeQuery, activeInput, inputEmpty, FL.GetInput.
  intros Hst Hq.
  repeat (apply elem_of_cons in Hst as [Hst|Hst]);
    [..|by apply elem_of_nil in Hst];
    rewrite Hst in *; simpl in Hq; by apply bool_decide_eq_false_2.
Qed.

(** Outside the log view, a backspace on an input that is not empty goes
    to the active step. *)
Lemma Update_backspace (m : Model T) :
  state m ≠ StateViewLogs → inputEmpty m = false →
  Update m (KeyMsg "backspace")
  = Some (update_selector m (KeyMsg "backspace")).
Proof.
  intros Hst He. unfold Update, update_key.
  case_decide; [done|]. eval_keys. by rewrite He.
Qed.

Lemma Update_esc (m : Model T) :
  state m ≠ StateViewLogs → Update m (KeyMsg "esc") = leave_step m.
Proof.
  intros Hst. unfold Update, update_key. case_decide; [done|]. by eval_keys.
Qed.

Lemma Update_back_trigger (m : Model T) key :
  state m ≠ StateViewLogs → back_trigger m key →
  Update m (KeyMsg key) = leave_step m.
Proof.
  intros Hst [->|[-> He]]; [by apply Update_esc|].
  unfold Update, update_key. case_decide; [done|]. eval_keys.
  by rewrite He.
Qed.

(** C4 as amended: in the states kubeconfig, namespace, deployment,
    command, pod and container selection and value input, a backspace on a
    query that is not empty changes neither the state nor the stack: the
    key is handed to the text input of the step, which edits the query.
    Escape is not held back by the query: from the command, pod and asset
    folder selections it leaves the state, whatever was typed. *)
Theorem C4_backspace_edits_query (m : Model T) :
  (state m ∈ guarded_states → activeQuery m ≠ EmptyString →
   ∃ m',
     Update m (KeyMsg "backspace") = Some (m', cmd_child)
     ∧ state m' = state m
     ∧ prevStates m' = prevStates m
     ∧ activeInput m'
       = (λ t, textinput.Update t (KeyMsg "backspace")) <$> activeInput m)
  ∧ (state m ∈ [StateSelectCommand; StateSelectPod; StateSelectAssetFolder] →
     ∃ m' c,
       Update m (KeyMsg "esc") = Some (m', c) ∧ state m' ≠ state m).
Proof.
  split.
  - intros Hst Hq.
    rewrite Update_backspace;
      [|intros Hv; rewrite Hv in Hst; unfold guarded_states in Hst;
        not_among Hst|by apply inputEmpty_false].
    unfold guarded_states in Hst. unfold update_selector, activeInput.
    repeat (apply elem_of_cons in Hst as [Hst|Hst]);
      [..|by apply elem_of_nil in Hst];
      rewrite Hst; eexists; (split; [reflexivity|]);
      cbn -[FL.Update textinput.Update]; rewrite Hst;
      repeat split; by rewrite ?textInput_Update_backspace.
  - intros Hst.
    rewrite Update_esc by (intros Hv; rewrite Hv in Hst; not_among Hst).
    unfold leave_step, goBack.
    repeat (apply elem_of_cons in Hst as [Hst|Hst]);
      [..|by apply elem_of_nil in Hst];
      rewrite Hst; simpl; do 2 eexists; (split; [reflexivity|]);
      simpl; by rewrite ?Hst.
Qed.

(** C5 as amended: in the command selection a back trigger keeps the
    stack and makes the deployment selection the current state, with its
    selector reset and the deployments loaded again; it is in the
    deployment selection that a back trigger changes nothing. *)
Theorem C5_back_from_command_selection (m : Model T) key :
  back_trigger m key →
  (state m = StateSelectCommand →
   ∃ m',
     Update m (KeyMsg key) = Some (m', cmd_loadDeployments)
     ∧ state m' = StateSelectDeployment
     ∧ prevStates m' = prevStates m
     ∧ depSelector m' = FL.Reset (depSelector m))
  ∧ (state m = StateSelectDeployment →
     Update m (KeyMsg key) = Some (m, cmd_nil)).
Proof.
  intros Hk. split; intros Hst.
  - rewrite Update_back_trigger; [|by rewrite Hst|done].
    unfold leave_step, goBack. rewrite Hst. simpl. by eexists.
  - rewrite Update_back_trigger; [|by rewrite Hst|done].
    unfold leave_step, goBack. by rewrite Hst.
Qed.

(** C9: when the input of the scale command is confirmed with a text that
    is not empty and is not an integer, the command returned calls nothing:
    it delivers a result message whose error names the text; handling this
    message shows the result screen with that error. *)
Theorem C9_scale_rejects_non_integer (m : Model T) c key :
  state m = StateInputValue →
  command m = Some c → Name c = "scale" →
  key ∈ ["enter"; "tab"] →
  textinput.Value (valueInput m) ≠ EmptyString →
  GoStrings.Atoi (textinput.Value (valueInput m)) = None →
  ∃ m1 m2 msg,
    Update m (KeyMsg key) = Some (m1, cmd_msg msg)
    ∧ contacts_client (cmd_msg msg) = false
    ∧ msg = CommandResultMsg EmptyString
              (Some ("invalid replica count: "
                     +:+ textinput.Value (valueInput m)))
    ∧ Update m1 msg = Some (m2, cmd_nil)
    ∧ state m2 = StateShowResult
    ∧ err m2 = Some ("invalid replica count: "
                     +:+ textinput.Value (valueInput m)).
Proof.
  intros Hst Hc Hn Hk Hne Hatoi.
  assert (Update m (KeyMsg key) = handleEnter m) as ->.
  { unfold Update, update_key. case_decide as Hv; [by rewrite Hst in Hv|].
    repeat (apply elem_of_cons in Hk as [->|Hk]);
      [..|by apply elem_of_nil in Hk]; by eval_keys. }
  unfold handleEnter. rewrite Hst.
  cbn [inputValue set_inputValue].
  case_decide; [done|].
  unfold command_is. cbn [command set_inputValue]. rewrite Hc, Hn.
  cbn [bool_decide decide_rel]. 
  unfold executeCommand. cbn [command set_state set_inputValue].
  rewrite Hc, Hn. simpl. rewrite Hatoi.
  do 3 eexists. split; [reflexivity|]. by repeat split.
Qed.

End wizard_claims.

Section wizard_witnesses.
Import Wizard WizSpec.

(** C4 as stated fails for escape: with "s" typed in the command
    selection, escape moves to the deployment selection. *)
Lemma C4_counterexample :
  state typed_s = StateSelectCommand
  ∧ activeQuery typed_s = "s"
  ∧ (λ r, state r.1) <$> Update (FZ := fuzzy.Find_spec) typed_s (KeyMsg "esc")
    = Some StateSelectDeployment.
Proof. by vm_compute. Qed.

(** C5 as stated fails: in the command selection, escape changes the
    state. *)
Lemma C5_counterexample :
  state at_commands = StateSelectCommand
  ∧ (λ r, state r.1)
      <$> Update (FZ := fuzzy.Find_spec) at_commands (KeyMsg "esc")
    = Some StateSelectDeployment.
Proof. by vm_compute. Qed.

Lemma C4_witness :
  ∃ m',
    Update (FZ := fuzzy.Find_spec) typed_s (KeyMsg "backspace")
    = Some (m', cmd_child)
    ∧ state m' = StateSelectCommand
    ∧ activeQuery m' = EmptyString.
Proof.
  destruct (proj1 (C4_backspace_edits_query (FZ := fuzzy.Find_spec) typed_s))
    as (m' & Hu & Hs & _ & Hi).
  - vm_compute. do 3 apply list_elem_of_further. apply list_elem_of_here.
  - vm_compute. discriminate.
  - exists m'. split; [exact Hu|]. split; [exact Hs|].
    unfold activeQuery. rewrite Hi. reflexivity.
Defined.

Lemma C5_witness :
  ∃ m',
    Update (FZ := fuzzy.Find_spec) at_commands (KeyMsg "backspace")
    = Some (m', cmd_loadDeployments)
    ∧ state m' = StateSelectDeployment.
Proof.
  assert (back_trigger at_commands "backspace") as Hk
    by (right; split; reflexivity).
  destruct (proj1 (C5_back_from_command_selection (FZ := fuzzy.Find_spec)
                     at_commands "backspace" Hk)
              eq_refl) as (m' & Hu & Hs & _).
  exists m'. split; [exact Hu|exact Hs].
Defined.

Lemma C9_witness :
  GoStrings.Atoi "abc" = None
  ∧ ∃ m1 m2 msg,
      Update (FZ := fuzzy.Find_spec) scale_abc (KeyMsg "enter")
      = Some (m1, cmd_msg msg)
      ∧ Update (FZ := fuzzy.Find_spec) m1 msg = Some (m2, cmd_nil)
      ∧ err m2 = Some "invalid replica count: abc".
Proof.
  split; [reflexivity|].
  assert (textinput.Value (valueInput scale_abc) = "abc") as Hv
    by (vm_compute; reflexivity).
  assert (state scale_abc = StateInputValue) as Hst
    by (vm_compute; reflexivity).
  assert (∃ c, command scale_abc = Some c ∧ Name c = "scale")
    as (c & Hc & Hn) by (vm_compute; eexists; split; reflexivity).
  destruct (C9_scale_rejects_non_integer (FZ := fuzzy.Find_spec) scale_abc
              c "enter" Hst Hc Hn)
    as (m1 & m2 & msg & Hu & _ & _ & Hu2 & _ & He).
  - apply list_elem_of_here.
  - rewrite Hv. discriminate.
  - rewrite Hv. reflexivity.
  - rewrite Hv in He. exists m1, m2, msg.
    split; [exact Hu|]. split; [exact Hu2|exact He].
Defined.

End wizard_witnesses.

(** * Further properties of the code *)

(** ** The recent lists of the preferences *)

Section recent_lists.
Import config.

(** [addToRecent] is the first [MaxRecentItems] entries of the item put in
    front of the others. *)
Lemma addToRecent_take l item :
  addToRecent l item
  = take MaxRecentItems (item :: filter (λ existing, existing ≠ item) l).
Proof.
  unfold addToRecent. case_bool_decide; [done|].
  symmetry. apply take_ge. lia.
Qed.

Lemma filter_all {A} (P : A → Prop) `{∀ x, Decision (P x)} (l : list A) :
  (∀ x, x ∈ l → P x) → filter P l = l.
Proof.
  induction l as [|a l IH]; [done|]. intros Hall.
  rewrite filter_cons_True by (apply Hall, list_elem_of_here).
  f_equal. apply IH. intros x Hx. by apply Hall, list_elem_of_further.
Qed.

(** X1: [addToRecent] puts the item first, keeps at most [MaxRecentItems]
    entries, leaves no second copy of the item, keeps the other entries in
    their order (the entries after the first are a sublist of the old
    list), adds nothing else, and keeps a list without duplicates free of
    duplicates. *)
Theorem X1_addToRecent_bounded_front l item :
  head (addToRecent l item) = Some item
  ∧ (length (addToRecent l item) ≤ MaxRecentItems)%nat
  ∧ (item ∉ tail (addToRecent l item))
  ∧ (tail (addToRecent l item) `sublist_of` l)
  ∧ (∀ x, x ∈ addToRecent l item → x = item ∨ x ∈ l)
  ∧ (NoDup l → NoDup (addToRecent l item)).
Proof.
  rewrite addToRecent_take. unfold MaxRecentItems. cbn [take head tail].
  set (rest := filter (λ existing, existing ≠ item) l).
  assert (take 4 rest `sublist_of` l) as Hsub.
  { etrans; [apply sublist_take|]. apply sublist_filter. }
  assert (item ∉ take 4 rest) as Hnot.
  { intros Hin. eapply elem_of_sublist in Hin; [|apply sublist_take].
    apply list_elem_of_filter in Hin as [Hne _]. done. }
  split; [done|]. split; [rewrite length_cons, length_take; lia|].
  split; [done|]. split; [done|]. split.
  - intros x [->|Hin]%elem_of_cons; [by left|right].
    by eapply elem_of_sublist.
  - intros Hnd. constructor; [done|]. by eapply sublist_NoDup.
Qed.

(** X2: adding the same item twice is adding it once, and after two
    different items are added, the later one is first and the earlier one
    second. *)
Theorem X2_addToRecent_recency l x y :
  addToRecent (addToRecent l x) x = addToRecent l x
  ∧ (x ≠ y →
     addToRecent (addToRecent l x) y !! 0%nat = Some y
     ∧ addToRecent (addToRecent l x) y !! 1%nat = Some x).
Proof.
  split.
  - rewrite !addToRecent_take. unfold MaxRecentItems. cbn [take].
    rewrite filter_cons_False by (intros ?; done).
    f_equal. set (rest := filter (λ existing, existing ≠ x) l).
    assert (filter (λ existing, existing ≠ x) (take 4 rest) = take 4 rest)
      as ->.
    { apply filter_all. intros z Hz.
      eapply elem_of_sublist in Hz; [|apply sublist_take].
      by apply list_elem_of_filter in Hz as [? _]. }
    by rewrite take_take.
  - intros Hne. rewrite (addToRecent_take _ y), (addToRecent_take l x).
    unfold MaxRecentItems. cbn [take].
    rewrite filter_cons_True by done. done.
Qed.


End recent_lists.

(** ** Further properties of the fuzzy list *)

Section fuzzylist_more.
Context {T : Type} {TI : textinput.Model T} {FZ : fuzzy.Finder}.
Import FL FLSpec FLMore.

Lemma flag_ok_filterItems (f : FuzzyList T) : flag_ok (filterItems f).
Proof. by right. Qed.

Lemma flag_ok_Update (f : FuzzyList T) msg : flag_ok f → flag_ok (Update f msg).
Proof.
  intros Hf. unfold Update.
  assert (flag_ok (update_input f msg)) as Hu.
  { unfold update_input. case_decide; [apply flag_ok_filterItems|done]. }
  destruct msg; try done.
  unfold key_up, key_down, key_pgup, key_pgdown.
  repeat case_match; try done; by right.
Qed.

(** Every list the program can build has a section flag that agrees with
    its cursor. *)
Lemma reachable_flag_ok (f : FuzzyList T) : reachable f → flag_ok f.
Proof.
  induction 1 as [title|its f _ IH|its f _ IH|e f _ IH|b f _ IH|f _ IH
                  |f _ IH|f _ IH|msg f _ IH];
    try apply flag_ok_filterItems; try done.
  - by left.
  - by apply flag_ok_Update.
Qed.

Lemma len_lookup_lt {A} (l : list A) (c : Z) :
  0 <= c < FL.len l → is_Some (l !! Z.to_nat c).
Proof. unfold FL.len. intros. apply lookup_lt_is_Some. lia. Qed.

(** X4: for a list the program can build, [GetSelected] is the string of
    the match under the cursor, counting the recent matches first and the
    others after; it is the empty string exactly when there is no match
    under the cursor, which for such a list means no match at all. *)
Theorem X4_GetSelected_under_cursor (f : FuzzyList T) :
  reachable f →
  GetSelected f
  = default EmptyString
      (fuzzy.Str <$> shown_matches f !! Z.to_nat (cursor f))
  ∧ (totalItems f = 0 → GetSelected f = EmptyString)
  ∧ (0 < totalItems f →
     ∃ mt, shown_matches f !! Z.to_nat (cursor f) = Some mt
           ∧ GetSelected f = fuzzy.Str mt).
Proof.
  intros Hr.
  destruct (reachable_inv_fl f Hr) as [Hlo Hhi _].
  pose proof (reachable_flag_ok f Hr) as Hflag.
  assert (GetSelected f
          = default EmptyString
              (fuzzy.Str <$> shown_matches f !! Z.to_nat (cursor f))) as Hsel.
  { unfold GetSelected, shown_matches.
    destruct (decide (cursor f < FL.len (filteredRecent f))) as [Hin|Hout].
    - assert (0 < FL.len (filteredRecent f)) as Hpos by lia.
      assert (inRecentSection f = true) as ->.
      { destruct Hflag as [Hnil| ->]; [|by apply bool_decide_eq_true_2].
        rewrite Hnil in Hpos. done. }
      rewrite !bool_decide_eq_true_2 by done. cbn [andb].
      rewrite lookup_app_l; [done|]. unfold FL.len in Hin. lia.
    - rewrite (bool_decide_eq_false_2 (cursor f < _)) by done.
      rewrite andb_false_r.
      assert ((if bool_decide (0 < FL.len (filteredRecent f))
               then cursor f - FL.len (filteredRecent f) else cursor f)
              = cursor f - FL.len (filteredRecent f)) as ->.
      { case_bool_decide; [done|].
        pose proof (fl_len_nonneg (filteredRecent f)). lia. }
      rewrite lookup_app_r by (unfold FL.len in Hout; lia).
      replace (Z.to_nat (cursor f) - length (filteredRecent f))%nat
        with (Z.to_nat (cursor f - FL.len (filteredRecent f)))
        by (unfold FL.len in *; lia).
      rewrite bool_decide_eq_true_2 by lia. cbn [andb].
      case_bool_decide as Hm; [done|].
      rewrite lookup_ge_None_2; [done|]. unfold FL.len in *. lia. }
  split; [exact Hsel|]. split.
  - intros Hz. rewrite Hsel. unfold shown_matches.
    rewrite lookup_ge_None_2; [done|].
    unfold totalItems, FL.len in Hz. rewrite length_app. lia.
  - intros Hpos.
    destruct (len_lookup_lt (shown_matches f) (cursor f)) as [mt Hmt].
    { unfold shown_matches, FL.len. rewrite length_app.
      unfold totalItems, FL.len in *. lia. }
    exists mt. split; [done|]. by rewrite Hsel, Hmt.
Qed.

Lemma FuzzyList_eq (f g : FuzzyList T) :
  textInput f = textInput g → items f = items g →
  recentItems f = recentItems g → filtered f = filtered g →
  filteredRecent f = filteredRecent g → cursor f = cursor g →
  maxVisible f = maxVisible g → scrollOffset f = scrollOffset g →
  title f = title g → loading f = loading g → err f = err g →
  inRecentSection f = inRecentSection g → f = g.
Proof. destruct f, g. simpl. by intros; subst. Qed.

(** X5: filtering twice is filtering once: [filterItems] is idempotent,
    and so are [SetItems] and [SetRecentItems] with the same argument. *)
Theorem X5_filterItems_idempotent (f : FuzzyList T) its :
  filterItems (filterItems f) = filterItems f
  ∧ SetItems its (SetItems its f) = SetItems its f
  ∧ SetRecentItems its (SetRecentItems its f) = SetRecentItems its f.
Proof.
  assert (∀ g : FuzzyList T, filterItems (filterItems g) = filterItems g)
    as Hidem.
  { intros g.
    assert (cursor (filterItems (filterItems g)) = cursor (filterItems g))
      as Hc.
    { rewrite (filterItems_cursor (filterItems g)).
      change (totalItems (filterItems (filterItems g)))
        with (totalItems (filterItems g)).
      pose proof (totalItems_nonneg (filterItems g)).
      rewrite filterItems_cursor. repeat case_bool_decide; lia. }
    apply FuzzyList_eq; try done.
    change (bool_decide (cursor (filterItems (filterItems g))
                         < FL.len (filteredRecent (filterItems g)))
            = bool_decide (cursor (filterItems g)
                           < FL.len (filteredRecent (filterItems g)))).
    by rewrite Hc. }
  split; [apply Hidem|]. split.
  - unfold SetItems at 1 3.
    assert (set_loading false (set_items its (SetItems its f))
            = SetItems its f) as -> by done.
    apply Hidem.
  - unfold SetRecentItems at 1 3.
    assert (set_recentItems its (SetRecentItems its f)
            = SetRecentItems its f) as -> by done.
    apply Hidem.
Qed.

(** With the empty query the two sections list the recent items and the
    other items as they are. *)
Lemma filterItems_empty_query (g : FuzzyList T) :
  GetInput g = EmptyString →
  fuzzy.Str <$> filteredRecent (filterItems g) = recentItems g
  ∧ fuzzy.Str <$> filtered (filterItems g) = itemsWithoutRecent g.
Proof.
  intros Hq. destruct (filterItems_sections g) as [-> ->].
  rewrite Hq, !shown_empty_query. split; [|apply all_match_Str].
  case_bool_decide as Hl; [apply all_match_Str|].
  by rewrite (len_zero_nil _ Hl).
Qed.

(** With the cursor on the first row, [GetSelected] is the first match
    shown. *)
Lemma GetSelected_first (f : FuzzyList T) :
  cursor f = 0 → flag_ok f →
  GetSelected f
  = default EmptyString (fuzzy.Str <$> head (shown_matches f)).
Proof.
  intros Hc Hflag. unfold GetSelected, shown_matches. rewrite Hc.
  destruct (filteredRecent f) as [|r rs] eqn:Hfr.
  - rewrite andb_false_r. simpl. by destruct (filtered f).
  - destruct Hflag as [?| ->]; [congruence|]. rewrite Hc, Hfr.
    rewrite !bool_decide_eq_true_2 by (unfold FL.len; simpl; lia). done.
Qed.

(** X6: [Reset] empties the query, puts the cursor on the first row with
    the window at the top, lists every recent item and every other item in
    their order, and selects the first recent item, or the first item when
    nothing is recent. *)
Theorem X6_Reset_shows_everything (f : FuzzyList T) :
  GetInput (Reset f) = EmptyString
  ∧ cursor (Reset f) = 0
  ∧ scrollOffset (Reset f) = 0
  ∧ fuzzy.Str <$> filteredRecent (Reset f) = recentItems f
  ∧ fuzzy.Str <$> filtered (Reset f) = itemsWithoutRecent f
  ∧ GetSelected (Reset f)
    = default EmptyString (head (recentItems f ++ itemsWithoutRecent f)).
Proof.
  set (g := set_inRecentSection true
              (set_scrollOffset 0
                 (set_cursor 0
                    (set_textInput
                       (textinput.SetValue EmptyString (textInput f)) f)))).
  assert (Reset f = filterItems g) as -> by done.
  assert (GetInput g = EmptyString) as Hq
      by apply textinput.Value_SetValue_empty.
  destruct (filterItems_empty_query g Hq) as (Hr & Hf).
  split; [exact Hq|]. split; [rewrite filterItems_cursor; by case_bool_decide|].
  split; [done|]. split; [exact Hr|]. split; [exact Hf|].
  rewrite GetSelected_first;
    [|rewrite filterItems_cursor; by case_bool_decide
     |apply flag_ok_filterItems].
  change (recentItems f) with (recentItems g).
  change (itemsWithoutRecent f) with (itemsWithoutRecent g).
  rewrite <- Hr, <- Hf. unfold shown_matches.
  by destruct (filteredRecent (filterItems g)), (filtered (filterItems g)).
Qed.

End fuzzylist_more.

Section fuzzylist_sections_and_window.
Context {T : Type} {TI : textinput.Model T} {FZ : fuzzy.Finder}.
Import FL FLSpec FLMore.

(** X7: the second section never repeats a recent item: the items kept
    for it are exactly the candidates that are not recent, in the order of
    the candidates; with the empty query every match listed there is such
    a candidate; and with no recent item all the candidates are kept. *)
Theorem X7_all_section_excludes_recent (f : FuzzyList T) :
  (∀ x, x ∈ itemsWithoutRecent f ↔ x ∈ items f ∧ x ∉ recentItems f)
  ∧ (itemsWithoutRecent f `sublist_of` items f)
  ∧ (GetInput f = EmptyString →
     ∀ mt, mt ∈ filtered (filterItems f) →
           fuzzy.Str mt ∈ items f ∧ fuzzy.Str mt ∉ recentItems f)
  ∧ (recentItems f = [] → itemsWithoutRecent f = items f).
Proof.
  assert (∀ x, x ∈ itemsWithoutRecent f ↔ x ∈ items f ∧ x ∉ recentItems f)
    as Hiff.
  { intros x. unfold itemsWithoutRecent.
    rewrite list_elem_of_filter, elem_of_list_to_set. tauto. }
  split; [exact Hiff|]. split; [apply sublist_filter|]. split.
  - intros Hq mt Hin. apply Hiff.
    destruct (filterItems_empty_query f Hq) as [_ <-].
    by apply list_elem_of_fmap_2.
  - intros Hnil. apply filter_all. intros x _.
    rewrite Hnil. set_unfold. tauto.
Qed.

(** X8: the keys that move the cursor keep it in the visible window when
    they find it there, and page-up always brings the window to the
    cursor. *)
Theorem X8_navigation_keeps_cursor_visible (f : FuzzyList T) key :
  reachable f → key ∈ nav_keys →
  (cursor_visible f → cursor_visible (Update f (KeyMsg key)))
  ∧ cursor_visible (Update f (KeyMsg "pgup")).
Proof.
  intros Hr Hk. destruct (reachable_inv_fl f Hr) as [Hlo Hhi Hp].
  pose proof (totalItems_nonneg f) as Ht.
  unfold cursor_visible, nav_keys in *. split.
  - intros Hv.
    repeat (apply elem_of_cons in Hk as [->|Hk]);
      [..|by apply elem_of_nil in Hk];
      unfold Update; eval_keys;
      unfold key_up, key_down, key_pgup, key_pgdown; rewrite ?Hp;
      repeat case_bool_decide; unfold totalItems in *; simpl; lia.
  - unfold Update. eval_keys. unfold key_pgup. rewrite Hp.
    repeat case_bool_decide; simpl; lia.
Qed.

(** X9: up and down are clamped at the two ends, where they change
    nothing, and undo each other elsewhere. *)
Theorem X9_up_and_down_are_inverse (f : FuzzyList T) :
  reachable f →
  (cursor f = 0 → Update f (KeyMsg "up") = f)
  ∧ (cursor f >= totalItems f - 1 → Update f (KeyMsg "down") = f)
  ∧ (0 < cursor f →
     cursor (Update (Update f (KeyMsg "up")) (KeyMsg "down")) = cursor f)
  ∧ (cursor f < totalItems f - 1 →
     cursor (Update (Update f (KeyMsg "down")) (KeyMsg "up")) = cursor f).
Proof.
  intros Hr. destruct (reachable_inv_fl f Hr) as [Hlo Hhi Hp].
  unfold Update. eval_keys. unfold key_up, key_down.
  split; [intros ->; by rewrite bool_decide_eq_false_2 by lia|].
  split; [intros; by rewrite bool_decide_eq_false_2 by lia|].
  split; intros Hc.
  - rewrite (bool_decide_eq_true_2 (cursor f > 0)) by lia.
    repeat case_bool_decide; unfold totalItems in *; simpl in *; lia.
  - rewrite (bool_decide_eq_true_2 (cursor f < totalItems f - 1)) by lia.
    repeat case_bool_decide; unfold totalItems in *; simpl in *; lia.
Qed.

End fuzzylist_sections_and_window.

(** ** Further properties of the log viewer *)

Section logviewer_more.
Context {T : Type} {TI : textinput.Model T} {LW : Lowering}.
Import LV LVSpec.

Lemma LogViewer_eq (l k : LogViewer T) :
  viewport l = viewport k → detailViewport l = detailViewport k →
  searchInput l = searchInput k → allLines l = allLines k →
  filteredLines l = filteredLines k → recentSearches l = recentSearches k →
  searchQuery l = searchQuery k → selectedIndex l = selectedIndex k →
  showSearch l = showSearch k → ready l = ready k → width l = width k →
  height l = height k → streaming l = streaming k →
  autoScroll l = autoScroll k → l = k.
Proof. destruct l, k. simpl. by intros; subst. Qed.

(** X10: filtering twice is filtering once, and ctrl+l empties the search
    box, records the empty query and shows every line again. *)
Theorem X10_filterLogs_idempotent_and_clear (l : LogViewer T) :
  filterLogs (filterLogs l) = filterLogs l
  ∧ textinput.Value (searchInput (Update l (KeyMsg "ctrl+l"))) = EmptyString
  ∧ GetSearchQuery (Update l (KeyMsg "ctrl+l")) = EmptyString
  ∧ filteredLines (Update l (KeyMsg "ctrl+l")) = allLines l
  ∧ allLines (Update l (KeyMsg "ctrl+l")) = allLines l.
Proof.
  split.
  - assert (selectedIndex (filterLogs (filterLogs l))
            = selectedIndex (filterLogs l)) as Hs.
    { rewrite (filterLogs_selected (filterLogs l)).
      change (filteredLines (filterLogs (filterLogs l)))
        with (filteredLines (filterLogs l)).
      pose proof (len_nonneg (filteredLines (filterLogs l))).
      rewrite filterLogs_selected. repeat case_bool_decide; lia. }
    by apply LogViewer_eq.
  - unfold Update. eval_keys.
    set (l1 := set_searchInput _ l).
    assert (textinput.Value (searchInput l1) = EmptyString) as Hv
        by apply textinput.Value_SetValue_empty.
    split; [exact Hv|]. split; [exact Hv|]. split; [|done].
    rewrite filterLogs_filtered, Hv. unfold visible.
    rewrite ToLower_empty. by case_decide.
Qed.

(** Every viewer the program can build records as its query the text of
    its search box. *)
Lemma reachable_query (l : LogViewer T) :
  reachable l → searchQuery l = textinput.Value (searchInput l).
Proof.
  induction 1 as [|w h l _ IH|logs l _ IH|line l _ IH|b l _ IH|s l _ IH
                  |l _ IH|l _ IH|msg l _ IH]; try done.
  - simpl. by rewrite textinput.Value_New.
  - unfold SetLogs. by case_decide.
  - unfold AppendLog. by repeat case_match.
  - simpl. by rewrite textinput.Value_Focus.
  - simpl. by rewrite textinput.Value_Blur.
  - assert (searchQuery (update_search l msg)
            = textinput.Value (searchInput (update_search l msg))) as Hu.
    { unfold update_search. case_match; [|done].
      case_decide as Hv; [done|]. simpl in *.
      rewrite IH. symmetry.
      by destruct (decide (textinput.Value
                             (textinput.Update (searchInput l) msg)
                           = textinput.Value (searchInput l))). }
    unfold Update. destruct msg; try done.
    unfold key_up, key_down, key_pgup, key_pgdown, key_end, Focus, Blur,
      updateContent.
    repeat case_match; try done; simpl;
      by rewrite ?textinput.Value_Focus, ?textinput.Value_Blur.
Qed.

(** X11: in every viewer the program can build, [GetSearchQuery], the text
    saved to the recent searches when the log view is left, is the text of
    the search box, and the lines shown are the lines that match it. *)
Theorem X11_search_query_is_the_typed_text (l : LogViewer T) :
  reachable l →
  GetSearchQuery l = textinput.Value (searchInput l)
  ∧ filteredLines l = visible (GetSearchQuery l) (allLines l).
Proof.
  intros Hr. unfold GetSearchQuery. rewrite (reachable_query l Hr).
  split; [done|]. apply (inv_filtered _ (reachable_inv l Hr)).
Qed.

(** X12: without auto-follow, appending a line to a viewer the program can
    build keeps the selected index and the lines shown before it, the new
    lines shown coming after them: the selected line stays selected. *)
Theorem X12_append_without_follow_keeps_selection (l : LogViewer T) line :
  reachable l → autoScroll l && streaming l = false →
  selectedIndex (AppendLog line l) = selectedIndex l
  ∧ filteredLines (AppendLog line l)
    = filteredLines l
      ++ visible (textinput.Value (searchInput l)) [line]
  ∧ (0 < len (filteredLines l) →
     filteredLines (AppendLog line l) !! Z.to_nat (selectedIndex l)
     = filteredLines l !! Z.to_nat (selectedIndex l)).
Proof.
  intros Hr Hoff. pose proof (reachable_inv l Hr) as Hi.
  assert (filteredLines (AppendLog line l)
          = filteredLines l
            ++ visible (textinput.Value (searchInput l)) [line]) as Hf.
  { rewrite filteredLines_AppendLog, visible_app.
    by rewrite <- (inv_filtered _ Hi). }
  split; [|split; [exact Hf|]].
  - unfold AppendLog. set (l1 := filterLogs _).
    assert (autoScroll l1 && streaming l1 = false) as -> by done.
    unfold l1. rewrite filterLogs_selected. fold l1.
    change (selectedIndex (set_allLines (allLines l ++ [line]) l))
      with (selectedIndex l).
    case_bool_decide as Hge; [|done].
    assert (filteredLines l1 = filteredLines (AppendLog line l)) as Hl1.
    { by rewrite filteredLines_AppendLog. }
    rewrite Hl1, Hf, len_app in Hge.
    pose proof (len_nonneg (visible (textinput.Value (searchInput l)) [line])).
    destruct (inv_past_end l Hi) as [-> _]; [lia|done].
  - intros Hpos. rewrite Hf. apply lookup_app_l.
    destruct Hi as [_ ? ? _]. unfold len in *. lia.
Qed.

Lemma wrap_id x : int_min <= x <= int_max → wrap x = x.
Proof.
  unfold wrap, int_min, int_max. intros.
  rewrite Z.mod_small by lia. lia.
Qed.

(** X13: whatever the window size, [SetSize] gives the list pane at least
    5 rows and the detail pane at least 3; from 19 rows up (and below
    2^60) the list pane gets six tenths of the height less ten, rounded
    down, and the two panes share the height less ten exactly. *)
Theorem X13_SetSize_pane_heights (l : LogViewer T) w h :
  5 <= Height (viewport (SetSize w h l))
  ∧ 3 <= Height (detailViewport (SetSize w h l))
  ∧ ready (SetSize w h l) = true
  ∧ (19 <= h < 2 ^ 60 →
     Height (viewport (SetSize w h l)) = ((h - 10) * 6) `div` 10
     ∧ Height (viewport (SetSize w h l))
       + Height (detailViewport (SetSize w h l)) = h - 10).
Proof.
  unfold SetSize, updateContent. simpl.
  split; [case_bool_decide; lia|]. split; [case_bool_decide; lia|].
  split; [done|]. intros Hh.
  assert (2 ^ 60 < int_max ∧ int_min < 0) as [? ?]
      by (unfold int_max, int_min; lia).
  rewrite (wrap_id (h - 10)) by lia.
  rewrite (wrap_id ((h - 10) * 6))
    by (unfold int_max, int_min in *; lia).
  rewrite Z.quot_div_nonneg by lia.
  pose proof (Z.div_mod ((h - 10) * 6) 10 ltac:(lia)) as Hdm.
  pose proof (Z.mod_pos_bound ((h - 10) * 6) 10 ltac:(lia)) as Hm.
  set (q := ((h - 10) * 6) `div` 10) in *.
  rewrite (wrap_id (h - 10 - q)) by (unfold int_max, int_min in *; lia).
  repeat case_bool_decide; lia.
Qed.

End logviewer_more.

(** ** Further properties of the wizard *)

Section wizard_more.
Context {T : Type} {TI : textinput.Model T} {FZ : fuzzy.Finder}
        {LW : Lowering}.
Import Wizard WizSpec WizMore.

Lemma pop_state_push (m : Model T) s (flag_off : Model T) :
  prevStates flag_off = prevStates m ++ [s] →
  state (pop_state flag_off) = s
  ∧ prevStates (pop_state flag_off) = prevStates m.
Proof.
  intros Hp. unfold pop_state. rewrite Hp, last_snoc. simpl.
  rewrite length_app. simpl.
  replace (length (prevStates m) + 1 - 1)%nat with (length (prevStates m))
    by lia.
  by rewrite take_app_le, take_ge by lia.
Qed.

(** X14: a detour is undone by escape: outside the log view, ctrl+n (in
    any state but the namespace selection) pushes the current state and
    opens the namespace selection, and escape then restores the state and
    the stack; the same holds for ctrl+k and the kubeconfig selection. *)
Theorem X14_detour_then_escape (m : Model T) :
  state m ≠ StateViewLogs →
  (state m ≠ StateSelectNamespace →
   ∃ m1 m2,
     Update m (KeyMsg "ctrl+n") = Some (m1, cmd_loadNamespaces)
     ∧ state m1 = StateSelectNamespace
     ∧ prevStates m1 = prevStates m ++ [state m]
     ∧ nsSelector m1 = FL.Reset (nsSelector m)
     ∧ Update m1 (KeyMsg "esc") = Some (m2, cmd_nil)
     ∧ state m2 = state m
     ∧ prevStates m2 = prevStates m
     ∧ showNamespaceChange m2 = false)
  ∧ (state m ≠ StateSelectKubeConfig →
     ∃ m1 m2,
       Update m (KeyMsg "ctrl+k") = Some (m1, cmd_loadKubeConfigs)
       ∧ state m1 = StateSelectKubeConfig
       ∧ prevStates m1 = prevStates m ++ [state m]
       ∧ kcSelector m1 = FL.Reset (kcSelector m)
       ∧ Update m1 (KeyMsg "esc") = Some (m2, cmd_nil)
       ∧ state m2 = state m
       ∧ prevStates m2 = prevStates m
       ∧ showKubeConfigChange m2 = false).
Proof.
  intros Hv. split; intros Hs.
  - unfold Update at 1. unfold update_key.
    case_decide; [done|]. eval_keys. case_decide; [|done].
    eexists _, _. split; [reflexivity|].
    split; [done|]. split; [done|]. split; [done|].
    rewrite Update_esc by done. unfold leave_step. cbn -[pop_state].
    edestruct (pop_state_push m (state m)) as [Hst Hpr]; [|
      split; [reflexivity|]; split; [exact Hst|]; split; [exact Hpr|]].
    + done.
    + unfold pop_state. by case_match.
  - unfold Update at 1. unfold update_key.
    case_decide; [done|]. eval_keys. case_decide; [|done].
    eexists _, _. split; [reflexivity|].
    split; [done|]. split; [done|]. split; [done|].
    rewrite Update_esc by done. unfold leave_step. cbn -[pop_state].
    edestruct (pop_state_push m (state m)) as [Hst Hpr]; [|
      split; [reflexivity|]; split; [exact Hst|]; split; [exact Hpr|]].
    + done.
    + unfold pop_state. by case_match.
Qed.

(** X15: on the result screen, enter, tab, escape and backspace all do the
    same: the result and the error are discarded and the command selection
    comes back, reset, with the command chosen before still recorded and
    the stack untouched. *)
Theorem X15_result_screen_returns_to_commands (m : Model T) key :
  state m = StateShowResult →
  key ∈ ["enter"; "tab"; "esc"; "backspace"] →
  ∃ m',
    Update m (KeyMsg key) = Some (m', cmd_nil)
    ∧ state m' = StateSelectCommand
    ∧ result m' = EmptyString
    ∧ err m' = None
    ∧ cmdSelector m' = FL.Reset (cmdSelector m)
    ∧ command m' = command m
    ∧ prevStates m' = prevStates m.
Proof.
  intros Hst Hk. unfold Update, update_key.
  case_decide as Hv; [by rewrite Hst in Hv|].
  repeat (apply elem_of_cons in Hk as [->|Hk]);
    [..|by apply elem_of_nil in Hk]; eval_keys;
    unfold inputEmpty, leave_step, goBack, handleEnter; rewrite Hst;
    simpl; by eexists.
Qed.

(** X16: a failed load is shown on the selector it was for and nothing
    else moves: for each of the six load messages that carries an error,
    the state, the stack and the command stay, no command is issued, the
    selector records the error and stops loading, and it keeps the items
    and the matches it had. *)
Theorem X16_failed_load_stays_in_place (m : Model T) e items :
  let after msg sel :=
    ∃ m', Update m msg = Some (m', cmd_nil)
          ∧ state m' = state m
          ∧ prevStates m' = prevStates m
          ∧ FL.err (sel m') = Some e
          ∧ FL.loading (sel m') = false
          ∧ FL.items (sel m') = FL.items (sel m)
          ∧ FL.filtered (sel m') = FL.filtered (sel m)
          ∧ FL.filteredRecent (sel m') = FL.filteredRecent (sel m) in
  after (NamespacesLoadedMsg items (Some e)) nsSelector
  ∧ after (KubeConfigsLoadedMsg items (Some e)) kcSelector
  ∧ after (DeploymentsLoadedMsg items (Some e)) depSelector
  ∧ after (PodsLoadedMsg items (Some e)) podSelector
  ∧ after (ContainersLoadedMsg items (Some e)) contSelector
  ∧ after (AssetFoldersLoadedMsg items (Some e)) assetSelector.
Proof. simpl. repeat split; by eexists. Qed.

(** X17: a failure of the execution always leads to the result screen
    with its error: the five messages that report one set the state to the
    result display and record the error, whatever the state was.  A
    successful command result is recorded too, and the error recorded
    before it, if any, is left in place. *)
Theorem X17_execution_failure_shows_result (m : Model T) e r path client :
  let failed msg :=
    ∃ m', Update m msg = Some (m', cmd_nil)
          ∧ state m' = StateShowResult
          ∧ err m' = Some e
          ∧ prevStates m' = prevStates m in
  failed (CommandResultMsg r (Some e))
  ∧ failed (FastDeployCompleteMsg r (Some e))
  ∧ failed (ExecCompleteMsg (Some e))
  ∧ failed (LogsLoadedMsg r (Some e))
  ∧ failed (KubeConfigChangedMsg client path (Some e))
  ∧ (∃ m', Update m (CommandResultMsg r None) = Some (m', cmd_nil)
           ∧ state m' = StateShowResult
           ∧ result m' = r
           ∧ err m' = err m)
  ∧ Update m (ExecCompleteMsg None) = Some (m, cmd_Quit).
Proof. simpl. repeat split; by eexists. Qed.

(** X18: confirming nothing does nothing: with no item under the cursor
    of the active selector, enter and tab leave the model as it is; with
    an empty value input they only record the empty input, and the state,
    the stack and the command stay. *)
Theorem X18_empty_confirmation_is_ignored (m : Model T) key :
  key ∈ ["enter"; "tab"] →
  (∀ f, activeSelector m = Some f → FL.GetSelected f = EmptyString →
        Update m (KeyMsg key) = Some (m, cmd_nil))
  ∧ (state m = StateInputValue →
     textinput.Value (valueInput m) = EmptyString →
     Update m (KeyMsg key) = Some (set_inputValue EmptyString m, cmd_nil)).
Proof.
  intros Hk.
  assert (state m ≠ StateViewLogs → Update m (KeyMsg key) = handleEnter m)
    as Hu.
  { intros Hv. unfold Update, update_key. case_decide; [done|].
    repeat (apply elem_of_cons in Hk as [->|Hk]);
      [..|by apply elem_of_nil in Hk]; by eval_keys. }
  split.
  - intros f Hf Hsel. unfold activeSelector in Hf.
    rewrite Hu by (intros Hv; by rewrite Hv in Hf).
    unfold handleEnter.
    destruct (state m); try done; injection Hf as ->; rewrite Hsel;
      by case_decide.
  - intros Hst Hval. rewrite Hu by (by rewrite Hst).
    unfold handleEnter. rewrite Hst, Hval.
    cbn [inputValue set_inputValue]. by case_decide.
Qed.

(** X19: leaving the log view with escape or q cancels a running stream,
    records a search text that is not empty as the most recent search
    (an empty one leaves the preferences alone), and returns to the
    command selection without touching the stack; ctrl+c cancels the
    stream too and quits. *)
Theorem X19_leaving_the_log_view (m : Model T) key :
  state m = StateViewLogs → key ∈ ["esc"; "q"] →
  (∃ m',
     Update m (KeyMsg key) = Some (m', cmd_nil)
     ∧ state m' = StateSelectCommand
     ∧ prevStates m' = prevStates m
     ∧ cmdSelector m' = FL.Reset (cmdSelector m)
     ∧ (cancelStream m = true → streaming m' = false)
     ∧ (streaming m = true → cancelStream m = true →
        streamCtx m' = Some true)
     ∧ (LV.GetSearchQuery (logViewer m) ≠ EmptyString →
        head (config.GetRecentLogSearches (config m'))
        = Some (LV.GetSearchQuery (logViewer m)))
     ∧ (LV.GetSearchQuery (logViewer m) = EmptyString →
        config m' = config m))
  ∧ (∃ m',
       Update m (KeyMsg "ctrl+c") = Some (m', cmd_Quit)
       ∧ (cancelStream m = true → streaming m' = false)
       ∧ (streaming m = true → cancelStream m = true →
          streamCtx m' = Some true)).
Proof.
  intros Hst Hk. unfold Update. rewrite Hst.
  case_decide; [|done]. unfold update_key_logs. split.
  - repeat (apply elem_of_cons in Hk as [->|Hk]);
      [..|by apply elem_of_nil in Hk]; eval_keys;
      (eexists; split; [reflexivity|]);
      unfold cancel_stream;
      destruct (streaming m) eqn:Hs, (cancelStream m) eqn:Hc; simpl;
      destruct (decide (LV.GetSearchQuery (logViewer m) ≠ EmptyString))
        as [Hq|Hq]; simpl;
      repeat split; try done;
      try (intros _; unfold config.AddRecentLogSearch;
           case_decide; [done|]; simpl; by rewrite addToRecent_take).
  - eval_keys. eexists; split; [reflexivity|].
    unfold cancel_stream.
    by destruct (streaming m) eqn:Hs, (cancelStream m) eqn:Hc.
Qed.

(** X20: outside the log view the key q quits whatever the state, also
    while a selector or the value input is taking text: the model, and so
    the text typed, is left as it is. *)
Theorem X20_q_always_quits (m : Model T) :
  state m ≠ StateViewLogs →
  Update m (KeyMsg "q") = Some (m, cmd_Quit)
  ∧ Update m (KeyMsg "ctrl+c") = Some (m, cmd_Quit).
Proof.
  intros Hv. unfold Update, update_key.
  case_decide; [done|]. by eval_keys.
Qed.

End wizard_more.

Section wizard_stack.
Context {T : Type} {TI : textinput.Model T} {FZ : fuzzy.Finder}
        {LW : Lowering}.
Import Wizard WizSpec WizMore.

Ltac stack_cases :=
  intros m m' c; repeat case_match; intros; simplify_eq; done.

Lemma executeCommand_stack : keeps_stack executeCommand.
Proof. unfold keeps_stack, executeCommand. stack_cases. Qed.

Lemma proceedAfterContainer_stack : keeps_stack proceedAfterContainer.
Proof.
  unfold keeps_stack, proceedAfterContainer. intros m m' c.
  repeat case_match; intros; simplify_eq; try done.
  by erewrite executeCommand_stack by done.
Qed.

Lemma proceedAfterPod_stack : keeps_stack proceedAfterPod.
Proof.
  unfold keeps_stack, proceedAfterPod. intros m m' c.
  repeat case_match; intros; simplify_eq; try done.
  by erewrite executeCommand_stack by done.
Qed.

Lemma proceedAfterCommand_stack : keeps_stack proceedAfterCommand.
Proof.
  unfold keeps_stack, proceedAfterCommand. intros m m' c.
  repeat case_match; intros; simplify_eq; try done.
  by erewrite executeCommand_stack by done.
Qed.

Lemma goBack_stack : keeps_stack goBack.
Proof. unfold keeps_stack, goBack. stack_cases. Qed.

Lemma handleEnter_stack : keeps_stack handleEnter.
Proof.
  unfold keeps_stack, handleEnter. intros m m' c.
  repeat case_match; intros; simplify_eq; try done.
  - by erewrite proceedAfterCommand_stack by done.
  - by erewrite proceedAfterCommand_stack by done.
  - by erewrite proceedAfterPod_stack by done.
  - by erewrite proceedAfterContainer_stack by done.
  - by erewrite executeCommand_stack by done.
Qed.

Lemma update_selector_stack (m m' : Model T) msg c :
  update_selector m msg = (m', c) → prevStates m' = prevStates m.
Proof. unfold update_selector. case_match; by intros [= <- <-]. Qed.

Lemma last_take_snoc {A} (l : list A) x :
  last l = Some x → l = take (length l - 1) l ++ [x].
Proof.
  destruct l as [|a l _] using rev_ind; [done|].
  rewrite last_snoc. intros [= ->]. rewrite length_app. simpl.
  replace (length l + 1 - 1)%nat with (length l) by lia.
  by rewrite take_app_le, take_ge by lia.
Qed.

(** The stack after a detour is left: one state shorter, the state popped
    being the current one, or unchanged when it was empty. *)
Lemma pop_state_stack (m : Model T) :
  prevStates m = prevStates (pop_state m) ++ [state (pop_state m)]
  ∨ (prevStates m = [] ∧ pop_state m = m).
Proof.
  unfold pop_state. destruct (last (prevStates m)) as [s|] eqn:Hl.
  - left. simpl. by apply last_take_snoc.
  - right. by apply last_None in Hl.
Qed.

Lemma leave_step_stack (m m' : Model T) c :
  leave_step m = Some (m', c) →
  prevStates m' = prevStates m
  ∨ prevStates m = prevStates m' ++ [state m'].
Proof.
  unfold leave_step. repeat case_match; intros; simplify_eq.
  - destruct (pop_state_stack (set_showKubeConfigChange false m))
      as [Hp|[_ ->]]; [by right|by left].
  - destruct (pop_state_stack (set_showNamespaceChange false m))
      as [Hp|[_ ->]]; [by right|by left].
  - left. by eapply goBack_stack.
Qed.

(** X21: the stack of states moves by one state at most and only on four
    keys.  Every message leaves it as it is, pushes the current state, or
    pops the state that becomes current; and every message other than the
    keys ctrl+n, ctrl+k, esc and backspace leaves it as it is.  So does a
    confirmation: enter and tab never pop, also when they confirm the
    namespace chosen in a detour. *)
Theorem X21_stack_moves_on_four_keys (m m' : Model T) msg c :
  Update m msg = Some (m', c) →
  (prevStates m' = prevStates m
   ∨ prevStates m' = prevStates m ++ [state m]
   ∨ prevStates m = prevStates m' ++ [state m'])
  ∧ ((∀ key, msg = KeyMsg key →
             key ∉ ["ctrl+n"; "ctrl+k"; "esc"; "backspace"]) →
     prevStates m' = prevStates m).
Proof.
  intros Hu.
  destruct msg as [key| | | | | | | | | | | | | | | |];
    try (assert (prevStates m' = prevStates m) as Hsame;
         [|split; [by left|done]];
         revert Hu; unfold Update, loaded;
         repeat case_match; intros; simplify_eq; try done;
         first [ by erewrite proceedAfterContainer_stack by done
               | by eapply update_selector_stack ]).
  unfold Update in Hu. case_decide as Hv.
  - assert (prevStates m' = prevStates m) as Hsame; [|split; [by left|done]].
    revert Hu. unfold update_key_logs, cancel_stream.
    repeat case_match; intros; by simplify_eq.
  - unfold update_key in Hu.
    destruct (key_in key ["ctrl+c"; "q"]) eqn:K1;
      [simplify_eq; split; [by left|done]|].
    destruct (key_in key ["ctrl+n"]) eqn:K2.
    { apply bool_decide_eq_true_1, list_elem_of_singleton in K2 as ->.
      split; [|intros Hk; exfalso; apply (Hk _ eq_refl); set_solver].
      case_decide; simplify_eq; [by right; left|left].
      by eapply update_selector_stack. }
    destruct (key_in key ["ctrl+k"]) eqn:K3.
    { apply bool_decide_eq_true_1, list_elem_of_singleton in K3 as ->.
      split; [|intros Hk; exfalso; apply (Hk _ eq_refl); set_solver].
      case_decide; simplify_eq; [by right; left|left].
      by eapply update_selector_stack. }
    destruct (key_in key ["esc"]) eqn:K4.
    { apply bool_decide_eq_true_1, list_elem_of_singleton in K4 as ->.
      split; [|intros Hk; exfalso; apply (Hk _ eq_refl); set_solver].
      destruct (leave_step_stack _ _ _ Hu); [by left|by right; right]. }
    destruct (key_in key ["backspace"]) eqn:K5.
    { apply bool_decide_eq_true_1, list_elem_of_singleton in K5 as ->.
      split; [|intros Hk; exfalso; apply (Hk _ eq_refl); set_solver].
      case_match.
      - destruct (leave_step_stack _ _ _ Hu); [by left|by right; right].
      - left. simplify_eq. by eapply update_selector_stack. }
    assert (prevStates m' = prevStates m) as Hsame; [|split; [by left|done]].
    revert Hu. repeat case_match; intros Hu.
    + by eapply handleEnter_stack.
    + by eapply handleEnter_stack.
    + simplify_eq. by eapply update_selector_stack.
Qed.

End wizard_stack.


(** ** Text helpers *)

Section bytes_of_strings.
Import GoStrings.

Lemma string_app_nil (b : string) : EmptyString +:+ b = b.
Proof. reflexivity. Qed.

Lemma string_app_cons c (a b : string) :
  String c a +:+ b = String c (a +:+ b).
Proof. reflexivity. Qed.

Lemma take_drop_bytes n s : take_bytes n s +:+ drop_bytes n s = s.
Proof.
  revert s. induction n as [|n IH]; intros [|c s]; simpl; try done.
  rewrite string_app_cons. f_equal. apply IH.
Qed.

Lemma length_take_bytes n s :
  String.length (take_bytes n s) = min n (String.length s).
Proof.
  revert s. induction n as [|n IH]; intros [|c s]; simpl; try done.
  f_equal. apply IH.
Qed.

Lemma length_drop_bytes n s :
  String.length (drop_bytes n s) = (String.length s - n)%nat.
Proof. revert s. induction n as [|n IH]; intros [|c s]; simpl; by try done. Qed.

Lemma string_app_assoc (a b c : string) : (a +:+ b) +:+ c = a +:+ (b +:+ c).
Proof.
  induction a as [|x a IH]; [done|]. rewrite !string_app_cons.
  f_equal. apply IH.
Qed.

Lemma string_app_length (a b : string) :
  String.length (a +:+ b) = (String.length a + String.length b)%nat.
Proof.
  induction a as [|x a IH]; [done|]. rewrite string_app_cons. simpl.
  f_equal. apply IH.
Qed.

Lemma HasPrefix_split s p :
  HasPrefix s p = true → s = p +:+ drop_bytes (String.length p) s.
Proof.
  revert s. induction p as [|c p IH]; intros [|d s]; simpl; try done.
  case_decide as Hc; [|done]. intros Hp.
  rewrite Hc, string_app_cons. f_equal. by apply IH.
Qed.

Lemma HasPrefix_take n s p :
  HasPrefix (take_bytes n s) p = true → HasPrefix s p = true.
Proof.
  revert n s. induction p as [|c p IH]; intros n s; [by destruct s|].
  destruct n as [|n], s as [|d s]; simpl; try done.
  case_decide; [|done]. apply IH.
Qed.

(** [Index_from] is -1 or an offset of the string, counted from [i]. *)
Lemma Index_from_range i s sep :
  0 <= i →
  Index_from i s sep = -1
  ∨ ∃ k : nat, Index_from i s sep = i + Z.of_nat k
               ∧ (k ≤ String.length s)%nat.
Proof.
  revert i. induction s as [|c s IH]; intros i Hi; cbn [Index_from].
  - destruct (HasPrefix EmptyString sep);
      [right; exists 0%nat; simpl; lia|by left].
  - destruct (HasPrefix (String c s) sep);
      [right; exists 0%nat; simpl; lia|].
    destruct (IH (i + 1)) as [->|(k & -> & Hk)]; [lia|by left|].
    right. exists (S k). simpl. lia.
Qed.

(** At the offset found, the string is cut in the part before, the
    separator and the part after, and the part before holds no
    separator. *)
Lemma Index_from_found s sep :
  ∀ i (k : nat),
    0 <= i → Index_from i s sep = i + Z.of_nat k →
    s = take_bytes k s +:+ sep +:+ drop_bytes (k + String.length sep) s
    ∧ (sep ≠ EmptyString → Index_from i (take_bytes k s) sep = -1).
Proof.
  induction s as [|c s IH]; intros i k Hi; cbn [Index_from].
  - destruct (HasPrefix EmptyString sep) eqn:Hp; [|lia].
    intros Hk. assert (k = 0%nat) as -> by lia. simpl.
    split; [by apply HasPrefix_split in Hp|].
    intros Hne. by destruct sep.
  - destruct (HasPrefix (String c s) sep) eqn:Hp.
    + intros Hk. assert (k = 0%nat) as -> by lia. simpl.
      split; [by apply HasPrefix_split in Hp|].
      intros Hne. by destruct sep.
    + intros Hk.
      destruct (Index_from_range (i + 1) s sep) as [Hm|(k' & Hk' & _)];
        [lia|lia|].
      assert (k = S k') as -> by lia.
      destruct (IH (i + 1) k') as [Hcut Hno]; [lia|lia|].
      split.
      * cbn [take_bytes].
        change (S k' + String.length sep)%nat
          with (S (k' + String.length sep)).
        cbn [drop_bytes]. rewrite string_app_cons. f_equal. exact Hcut.
      * intros Hne. cbn [take_bytes Index_from].
        destruct (HasPrefix (String c (take_bytes k' s)) sep) eqn:Hp'.
        -- apply (HasPrefix_take (S k') (String c s)) in Hp'. congruence.
        -- by apply Hno.
Qed.

Lemma Index_found s sep (k : nat) :
  Index s sep = Z.of_nat k →
  s = take_bytes k s +:+ sep +:+ drop_bytes (k + String.length sep) s
  ∧ (sep ≠ EmptyString → Index (take_bytes k s) sep = -1).
Proof. intros. by apply Index_from_found. Qed.

(** Cutting at a single byte gives one piece more than the byte occurs. *)
Lemma split_single_length c cur s :
  length (split_go (String c EmptyString) 0 cur s)
  = S (UIText.count_byte c s).
Proof.
  revert cur. induction s as [|d s IH]; intros cur; [done|].
  cbn [split_go HasPrefix UIText.count_byte String.length].
  case_decide.
  - rewrite HasPrefix_empty. simpl. by rewrite IH.
  - by rewrite IH.
Qed.

End bytes_of_strings.

Section itoa_facts.
Import GoStrings UIText.

Lemma digit_of_digit_byte d : 0 <= d <= 9 → digit_of (digit_byte d) = Some d.
Proof.
  intros Hd.
  assert (d = 0 ∨ d = 1 ∨ d = 2 ∨ d = 3 ∨ d = 4 ∨ d = 5 ∨ d = 6 ∨ d = 7
          ∨ d = 8 ∨ d = 9) as Hcases by lia.
  by repeat destruct Hcases as [->|Hcases]; try subst d.
Qed.

Lemma digits_value_snoc l c acc :
  digits_value acc (String.string_of_list_ascii (l ++ [c]))
  = v ← digits_value acc (String.string_of_list_ascii l);
    d ← digit_of c; Some (10 * v + d).
Proof.
  revert acc. induction l as [|x l IH]; intros acc; simpl.
  - by destruct (digit_of c).
  - destruct (digit_of x); [apply IH|done].
Qed.

(** The digits written by the loop, read first to last, are the number;
    with [n < 2 ^ rounds] the loop is not cut short. *)
Lemma itoa_digits_value rounds :
  ∀ n, 0 <= n < 2 ^ Z.of_nat rounds →
       digits_value 0
         (String.string_of_list_ascii (reverse (itoa_digits rounds n)))
       = Some n.
Proof.
  induction rounds as [|k IH]; intros n Hn.
  - simpl in *. f_equal. lia.
  - cbn [itoa_digits]. case_bool_decide as Hpos; [|simpl; f_equal; lia].
    rewrite reverse_cons, digits_value_snoc.
    pose proof (Z.quot_rem' n 10) as Hqr.
    pose proof (Z.rem_bound_pos n 10 ltac:(lia) ltac:(lia)) as Hr.
    assert (0 <= Z.quot n 10) as Hq0 by (apply Z.quot_pos; lia).
    rewrite IH.
    + simpl. rewrite digit_of_digit_byte by lia. simpl. f_equal. lia.
    + split; [done|].
      rewrite Nat2Z.inj_succ, Z.pow_succ_r in Hn by lia. lia.
Qed.

Lemma log2_rounds n : 0 < n → n < 2 ^ Z.of_nat (S (Z.to_nat (Z.log2 n))).
Proof.
  intros Hn. pose proof (Z.log2_nonneg n).
  rewrite Nat2Z.inj_succ, Z2Nat.id by done.
  by apply Z.log2_spec.
Qed.

Lemma itoa_digits_first rounds n :
  0 < n → (0 < rounds)%nat →
  ∃ d l, 0 <= d <= 9 ∧ itoa_digits rounds n = digit_byte d :: l.
Proof.
  intros Hn Hr. destruct rounds as [|k]; [lia|]. cbn [itoa_digits].
  rewrite bool_decide_eq_true_2 by lia.
  pose proof (Z.rem_bound_pos n 10 ltac:(lia) ltac:(lia)).
  eexists _, _. split; [|done]. lia.
Qed.

(** A text that starts with a digit and is made of digits is parsed as its
    value, when the value is an [int]. *)
Lemma ParseInt10_digits c s v :
  is_Some (digit_of c) → digits_value 0 (String c s) = Some v →
  0 <= v <= int_max → ParseInt10 (String c s) = Some v.
Proof.
  intros [d Hd] Hv Hrange. unfold ParseInt10.
  assert (c ≠ "-"%char ∧ c ≠ "+"%char) as [Hm Hp].
  { split; intros ->; vm_compute in Hd; discriminate. }
  assert ((match String c s with
           | String "-" s' => (true, s')
           | String "+" s' => (false, s')
           | _ => (false, String c s)
           end) = (false, String c s)) as ->.
  { destruct c as [[] [] [] [] [] [] [] []]; try done. }
  rewrite Hv. rewrite bool_decide_eq_true_2; [done|].
  unfold int_min. lia.
Qed.

End itoa_facts.

Section text_helpers.
Import GoStrings UIText.

Lemma itoa_digits_more rounds :
  ∀ n extra, 0 <= n < 2 ^ Z.of_nat rounds →
             itoa_digits (rounds + extra) n = itoa_digits rounds n.
Proof.
  induction rounds as [|k IH]; intros n extra Hn.
  - simpl in Hn. destruct extra; [done|]. simpl.
    by rewrite bool_decide_eq_false_2 by lia.
  - cbn [Nat.add itoa_digits]. case_bool_decide; [|done]. f_equal.
    apply IH. split; [apply Z.quot_pos; lia|].
    rewrite Nat2Z.inj_succ, Z.pow_succ_r in Hn by lia.
    pose proof (Z.quot_rem' n 10).
    pose proof (Z.rem_bound_pos n 10 ltac:(lia) ltac:(lia)). lia.
Qed.

(** X22: [itoa] writes the decimal digits of a number that is not
    negative: parsing its result with [Atoi] gives the number back.  A
    negative number gives the empty string.  The bound on the rounds of
    its loop is never reached: more rounds write the same digits. *)
Theorem X22_itoa_round_trip n :
  (n < 0 → itoa n = EmptyString)
  ∧ (0 <= n <= int_max → Atoi (itoa n) = Some n)
  ∧ (0 < n → ∀ extra,
       itoa_digits (S (Z.to_nat (Z.log2 n)) + extra) n
       = itoa_digits (S (Z.to_nat (Z.log2 n))) n).
Proof.
  split; [|split].
  - intros Hn. unfold itoa. case_decide; [lia|].
    cbn [itoa_digits]. by rewrite bool_decide_eq_false_2 by lia.
  - intros Hn. unfold itoa, Atoi. case_decide as Hz; [by subst|].
    assert (0 < n) as Hpos by lia.
    pose proof (itoa_digits_value _ n (conj (proj1 Hn) (log2_rounds n Hpos)))
      as Hv.
    destruct (itoa_digits_first (S (Z.to_nat (Z.log2 n))) n Hpos ltac:(lia))
      as (d & l & _ & Hd).
    rewrite Hd in *. rewrite reverse_cons in *.
    destruct (reverse l ++ [digit_byte d]) as [|c s] eqn:Hrev.
    { by destruct (reverse l). }
    cbn [String.string_of_list_ascii] in *.
    apply ParseInt10_digits; [|done|done].
    cbn [digits_value] in Hv. by destruct (digit_of c).
  - intros Hn extra. apply itoa_digits_more.
    split; [lia|by apply log2_rounds].
Qed.

Lemma find_break_bounds text lo n b :
  find_break text lo n = Some b → (lo + 2 ≤ b ≤ lo + n + 1)%nat.
Proof.
  induction n as [|k IH]; [done|]. cbn [find_break].
  case_match; [intros [= <-]; lia|]. intros Hb. apply IH in Hb. lia.
Qed.

Lemma break_at_bounds text width :
  (1 ≤ width)%nat → (1 ≤ break_at text width ≤ width + 1)%nat.
Proof.
  intros Hw. unfold break_at.
  destruct (find_break _ _ _) as [b|] eqn:Hb; simpl; [|lia].
  apply find_break_bounds in Hb.
  pose proof (Nat.Div0.div_le_upper_bound width 2 width ltac:(lia)).
  assert (width / 2 ≤ width)%nat by (apply Nat.Div0.div_le_upper_bound; lia).
  lia.
Qed.

Lemma wrap_pieces_nonempty rounds text width :
  wrap_pieces rounds text width ≠ [].
Proof. destruct rounds; simpl; [done|]. by case_bool_decide. Qed.

Lemma concat_cons_nonempty sep x l :
  l ≠ [] → String.concat sep (x :: l) = x +:+ sep +:+ String.concat sep l.
Proof. by destruct l. Qed.

Lemma wrap_loop_pieces rounds :
  ∀ text width,
    wrap_loop rounds text width
    = String.concat "
" (wrap_pieces rounds text width)
    ∧ String.concat "" (wrap_pieces rounds text width) = text.
Proof.
  induction rounds as [|k IH]; intros text width; [done|].
  cbn [wrap_loop wrap_pieces]. case_bool_decide; [|done].
  rewrite !concat_cons_nonempty by apply wrap_pieces_nonempty.
  destruct (IH (drop_bytes (break_at text width) text) width) as [-> ->].
  split; [done|]. rewrite string_app_nil. apply take_drop_bytes.
Qed.

Lemma wrap_pieces_bound rounds :
  ∀ text width,
    (1 ≤ width)%nat → (String.length text ≤ rounds)%nat →
    Forall (λ p, (String.length p ≤ width + 1)%nat)
      (wrap_pieces rounds text width)
    ∧ (∃ p, last (wrap_pieces rounds text width) = Some p
            ∧ (String.length p ≤ width)%nat).
Proof.
  induction rounds as [|k IH]; intros text width Hw Hlen.
  - simpl. split; [constructor; [lia|done]|]. exists text. split; [done|lia].
  - cbn [wrap_pieces]. case_bool_decide as Hlong.
    + pose proof (break_at_bounds text width Hw) as Hb.
      destruct (IH (drop_bytes (break_at text width) text) width Hw)
        as [Hall (p & Hlast & Hp)].
      { rewrite length_drop_bytes. lia. }
      split.
      * constructor; [rewrite length_take_bytes; lia|done].
      * exists p. split; [|done].
        destruct (wrap_pieces k _ width) eqn:Hw'; [done|].
        by rewrite last_cons_cons.
    + split; [constructor; [lia|done]|]. exists text. split; [done|lia].
Qed.

(** X23: [wordWrap] only inserts line breaks: the pieces it writes, put
    end to end, are the text.  For a positive width no piece is longer
    than the width plus one byte, and the last is no longer than the
    width; the extra byte is the break byte found at the width itself, as
    in "ab cd" wrapped at 2.  A width that is not positive, or a text no
    longer than the width, gives the text back. *)
Theorem X23_wordWrap_keeps_the_text text width :
  (width <= 0 → wordWrap text width = text)
  ∧ (0 < width →
     let pieces := wrap_pieces (String.length text) text (Z.to_nat width) in
     wordWrap text width = String.concat "
" pieces
     ∧ String.concat "" pieces = text
     ∧ Forall (λ p, Z.of_nat (String.length p) <= width + 1) pieces
     ∧ (∃ p, last pieces = Some p ∧ Z.of_nat (String.length p) <= width)
     ∧ (Z.of_nat (String.length text) <= width →
        wordWrap text width = text))
  ∧ wordWrap "ab cd" 2 = "ab 
cd".
Proof.
  split; [|split; [|done]].
  - intros Hw. unfold wordWrap. by rewrite bool_decide_eq_true_2.
  - intros Hw. cbv zeta. unfold wordWrap.
    rewrite bool_decide_eq_false_2 by lia.
    destruct (wrap_loop_pieces (String.length text) text (Z.to_nat width))
      as [Hloop Hcat].
    destruct (wrap_pieces_bound (String.length text) text (Z.to_nat width))
      as [Hall (p & Hlast & Hp)]; [lia|lia|].
    split; [exact Hloop|]. split; [exact Hcat|]. split; [|split].
    + eapply Forall_impl; [exact Hall|]. simpl. intros. lia.
    + exists p. split; [done|lia].
    + intros Hshort. destruct (String.length text) eqn:Hl; [done|].
      cbn [wrap_loop]. rewrite bool_decide_eq_false_2; [done|]. lia.
Qed.

(** X24: [extractPodName] returns a prefix of its argument that holds no
    " (": the argument itself when it holds none, the part before the
    first one otherwise; applying it twice changes nothing more. *)
Theorem X24_extractPodName_strips_status podStr :
  (∃ rest, podStr = Wizard.extractPodName podStr +:+ rest)
  ∧ Index (Wizard.extractPodName podStr) " (" = -1
  ∧ (Index podStr " (" = -1 → Wizard.extractPodName podStr = podStr)
  ∧ Wizard.extractPodName (Wizard.extractPodName podStr)
    = Wizard.extractPodName podStr.
Proof.
  assert (∀ s, Index s " (" = -1 → Wizard.extractPodName s = s) as Hnone.
  { intros s Hs. unfold Wizard.extractPodName. rewrite Hs. by case_decide. }
  assert (Index (Wizard.extractPodName podStr) " (" = -1
          ∧ ∃ rest, podStr = Wizard.extractPodName podStr +:+ rest)
    as [Hno Hpre].
  { destruct (Index_from_range 0 podStr " (") as [Hm|(k & Hk & _)]; [done| |].
    - fold (Index podStr " (") in Hm. rewrite (Hnone _ Hm).
      split; [done|]. exists EmptyString.
      clear. induction podStr as [|c s IH]; [done|].
      rewrite string_app_cons. by f_equal.
    - fold (Index podStr " (") in Hk. rewrite Z.add_0_l in Hk.
      unfold Wizard.extractPodName. rewrite Hk.
      case_decide; [|lia]. rewrite Nat2Z.id.
      destruct (Index_found podStr " (" k Hk) as [Hcut Hfree].
      split; [by apply Hfree|]. eexists. exact Hcut. }
  split; [exact Hpre|]. split; [exact Hno|]. split; [apply Hnone|].
  by apply Hnone.
Qed.

End text_helpers.

Section wizard_commands.
Context {T : Type} {TI : textinput.Model T} {FZ : fuzzy.Finder}
        {LW : Lowering}.
Import Wizard WizSpec WizMore.

(** The tests of [executeCommand] on the name of a catalog command,
    decided. *)
Ltac eval_names :=
  repeat match goal with
         | |- context [decide (@eq string ?a ?b)] =>
             let r := eval vm_compute in (bool_decide (a = b)) in
             match r with
             | true =>
                 rewrite (decide_True (P := a = b)) by (by vm_compute)
             | false =>
                 rewrite (decide_False (P := a = b))
                   by (by vm_compute; discriminate)
             end
         end.

Lemma executeCommand_named (m : Model T) c name :
  command m = Some c → Name c = name →
  command (set_state StateExecuting m) = Some c ∧ Name c = name.
Proof. done. Qed.

(** X25: the set-env command cuts its input at the first "=": an input
    without "=" is refused with an error message and no call to the
    client; otherwise the client is asked to set the key before the first
    "=" to the value after it, the key holds no "=" and key, "=" and value
    put together are the input. *)
Theorem X25_set_env_cuts_at_first_equals (m : Model T) c :
  command m = Some c → Name c = "set-env" →
  (GoStrings.Contains (inputValue m) "=" = false →
   executeCommand m
   = Some (set_state StateExecuting m,
           cmd_msg (CommandResultMsg EmptyString
                      (Some "invalid format, use KEY=VALUE"))))
  ∧ (GoStrings.Contains (inputValue m) "=" = true →
     ∃ k v,
       executeCommand m
       = Some (set_state StateExecuting m, cmd_client (SetEnvVar k v))
       ∧ inputValue m = k +:+ "=" +:+ v
       ∧ GoStrings.Contains k "=" = false).
Proof.
  intros Hc Hn.
  assert (executeCommand m
          = match GoStrings.SplitN2 (inputValue m) "=" with
            | [k; v] =>
                Some (set_state StateExecuting m, cmd_client (SetEnvVar k v))
            | _ =>
                Some (set_state StateExecuting m,
                      cmd_msg (CommandResultMsg EmptyString
                                 (Some "invalid format, use KEY=VALUE")))
            end) as ->.
  { unfold executeCommand. cbn [command set_state]. rewrite Hc, Hn.
    by eval_names. }
  unfold GoStrings.SplitN2, GoStrings.Contains.
  destruct (Index_from_range 0 (inputValue m) "=") as [Hm|(k & Hk & _)];
    [done| |]; fold (GoStrings.Index (inputValue m) "=") in *.
  - rewrite Hm. split; [done|]. intros Ht.
    by apply bool_decide_eq_true_1 in Ht.
  - rewrite Z.add_0_l in Hk. rewrite Hk. split.
    + intros Hf. apply bool_decide_eq_false_1 in Hf. lia.
    + intros _. rewrite bool_decide_eq_false_2 by lia. rewrite Nat2Z.id.
      destruct (Index_found _ _ _ Hk) as [Hcut Hfree].
      eexists _, _. split; [reflexivity|]. split; [exact Hcut|].
      rewrite Hfree by done. apply bool_decide_eq_false_2. lia.
Qed.

(** X26: the port-forward command never calls the client from the wizard
    and checks only the shape of its input: with exactly one ":" the
    wizard is told to quit so that the forward can run, whatever stands on
    the two sides; with none or several an error message is delivered.
    The rollback command refuses a text that is not a 64-bit integer, and
    passes the integer on otherwise. *)
Theorem X26_port_forward_wants_one_colon (m : Model T) c :
  command m = Some c →
  (Name c = "port-forward" →
   (UIText.count_byte ":" (inputValue m) = 1%nat →
    executeCommand m
    = Some (set_state StateExecuting m, cmd_msg (ExecCompleteMsg None)))
   ∧ (UIText.count_byte ":" (inputValue m) ≠ 1%nat →
      executeCommand m
      = Some (set_state StateExecuting m,
              cmd_msg (CommandResultMsg EmptyString
                         (Some "invalid port format, use local:remote")))))
  ∧ (Name c = "rollback" →
     (GoStrings.ParseInt10 (inputValue m) = None →
      executeCommand m
      = Some (set_state StateExecuting m,
              cmd_msg (CommandResultMsg EmptyString
                         (Some ("invalid revision number: "
                                +:+ inputValue m)))))
     ∧ (∀ v, GoStrings.ParseInt10 (inputValue m) = Some v →
             executeCommand m
             = Some (set_state StateExecuting m,
                     cmd_client (RollbackDeployment v))
             ∧ int_min <= v <= int_max)).
Proof.
  intros Hc. split; intros Hn.
  - assert (length (GoStrings.Split (inputValue m) ":")
            = S (UIText.count_byte ":" (inputValue m))) as Hlen
        by apply split_single_length.
    unfold executeCommand. cbn [command set_state]. rewrite Hc, Hn.
    eval_names. cbn [inputValue set_state].
    split; intros Hcount; case_decide; try done; lia.
  - unfold executeCommand. cbn [command set_state]. rewrite Hc, Hn.
    eval_names. cbn [inputValue set_state].
    split; [by intros ->|]. intros v Hv. rewrite Hv. split; [done|].
    unfold GoStrings.ParseInt10 in Hv.
    repeat case_match; simplify_eq; by case_bool_decide.
Qed.

Lemma run_app (m : Model T) msgs1 msgs2 :
  run m (msgs1 ++ msgs2) = m' ← run m msgs1; run m' msgs2.
Proof.
  revert m. induction msgs1 as [|msg msgs1 IH]; intros m; [done|].
  simpl. destruct (Update m msg) as [[m1 c]|]; [apply IH|done].
Qed.

(** X27: the lines of a stream are appended once each and in the order
    they arrive, in whatever state the wizard is, and each asks for the
    next line; the state and the stack do not move.  The end of the stream
    switches streaming off in the wizard and in the viewer and keeps the
    state. *)
Theorem X27_stream_lines_arrive_in_order (m : Model T) lines e :
  (∃ m',
     run m (logStreamMsg <$> lines) = Some m'
     ∧ LV.allLines (logViewer m') = LV.allLines (logViewer m) ++ lines
     ∧ state m' = state m
     ∧ prevStates m' = prevStates m)
  ∧ (∀ line, ∃ m', Update m (logStreamMsg line) = Some (m', cmd_readNextLine))
  ∧ (∃ m',
       Update m (LogStreamEndMsg e) = Some (m', cmd_nil)
       ∧ streaming m' = false
       ∧ LV.IsStreaming (logViewer m') = false
       ∧ LV.allLines (logViewer m') = LV.allLines (logViewer m)
       ∧ state m' = state m).
Proof.
  split; [|split].
  - revert m. induction lines as [|line lines IH]; intros m.
    + exists m. by rewrite app_nil_r.
    + cbn [fmap list_fmap run Update].
      destruct (IH (set_logViewer (LV.AppendLog line (logViewer m)) m))
        as (m' & Hrun & Hall & Hst & Hpr).
      exists m'. split; [exact Hrun|]. split; [|done].
      rewrite Hall. cbn [logViewer set_logViewer].
      by rewrite allLines_AppendLog, <- app_assoc.
  - intros line. by eexists.
  - destruct e; by eexists.
Qed.

End wizard_commands.

Section wizard_catalog.
Context {T : Type} {TI : textinput.Model T} {FZ : fuzzy.Finder}
        {LW : Lowering}.
Import Wizard WizSpec WizMore.

Lemma head_addToRecent l item :
  head (config.addToRecent l item) = Some item.
Proof.
  unfold config.addToRecent. by case_decide.
Qed.

(** X28: every command of the catalog is found again from its line in the
    command list ("name - description"): confirming that line sets the
    command to exactly that entry, puts the line at the head of the recent
    commands, leaves the stack alone and goes to the first step the entry
    asks for: pod selection, else container selection, else the input
    prompt, else execution. *)
Theorem X28_catalog_line_finds_its_command (m : Model T) c :
  c ∈ AvailableCommands →
  state m = StateSelectCommand →
  FL.GetSelected (cmdSelector m) = display c →
  ∃ m' cmd,
    handleEnter m = Some (m', cmd)
    ∧ command m' = Some c
    ∧ state m' = first_step c
    ∧ head (config.GetRecentCommands (config m')) = Some (display c)
    ∧ prevStates m' = prevStates m.
Proof.
  intros Hin Hst Hsel. unfold handleEnter. rewrite Hst, Hsel.
  pose proof (head_addToRecent
                (config.GetRecentCommands (config m)) (display c)) as Hhead.
  repeat (apply elem_of_cons in Hin as [->|Hin]);
    [..|by apply elem_of_nil in Hin];
    match goal with
    | |- context [GoStrings.Split ?s ?sep] =>
        let r := eval vm_compute in (GoStrings.Split s sep) in
        change (GoStrings.Split s sep) with r
    end;
    cbn [head default List.find Name bool_decide decide_rel];
    (eexists _, _; split; [reflexivity|]); done.
Qed.

End wizard_catalog.

Section wizard_back_and_forward.
Context {T : Type} {TI : textinput.Model T} {FZ : fuzzy.Finder}
        {LW : Lowering}.
Import Wizard WizSpec WizMore.

Lemma catalog_fast_deploy c :
  c ∈ AvailableCommands → Name c = "fast-deploy" → NeedsContainer c = true.
Proof.
  intros Hin.
  repeat (apply elem_of_cons in Hin as [->|Hin]);
    [..|by apply elem_of_nil in Hin]; by vm_compute.
Qed.

Lemma command_is_spec (m : Model T) c name :
  command m = Some c → command_is name m = bool_decide (Name c = name).
Proof. unfold command_is. by intros ->. Qed.

(** X29: for a command of the catalog, the back step undoes each forward
    step of the wizard.  When the command asks for a further step after
    the command selection, that step is entered and going back from it
    leads to the command selection; likewise the step after the pod
    selection leads back to the pod selection and the step after the
    container selection, the asset folders of fast-deploy included, leads
    back to the container selection. *)
Theorem X29_back_undoes_a_forward_step (m : Model T) c :
  c ∈ AvailableCommands → command m = Some c →
  (first_step c ≠ StateExecuting →
   ∃ m1 cmd1 m2 cmd2,
     proceedAfterCommand m = Some (m1, cmd1) ∧ state m1 = first_step c
     ∧ goBack m1 = Some (m2, cmd2) ∧ state m2 = StateSelectCommand)
  ∧ (NeedsPod c = true → NeedsContainer c || NeedsInput c = true →
     ∃ m1 cmd1 m2 cmd2,
       proceedAfterPod m = Some (m1, cmd1)
       ∧ state m1 ∈ [StateSelectContainer; StateInputValue]
       ∧ goBack m1 = Some (m2, cmd2) ∧ state m2 = StateSelectPod)
  ∧ (NeedsContainer c = true →
     (Name c = "fast-deploy" ∨ NeedsInput c = true) →
     ∃ m1 cmd1 m2 cmd2,
       proceedAfterContainer m = Some (m1, cmd1)
       ∧ state m1 ∈ [StateSelectAssetFolder; StateInputValue]
       ∧ goBack m1 = Some (m2, cmd2) ∧ state m2 = StateSelectContainer).
Proof.
  intros Hin Hc. pose proof (catalog_fast_deploy c Hin) as Hfd.
  split; [|split].
  - unfold first_step, proceedAfterCommand. rewrite Hc. intros Hfirst.
    destruct (NeedsPod c) eqn:Hp; [by eexists _, _, _, _|].
    destruct (NeedsContainer c) eqn:Hk.
    { eexists _, _, _, _. split; [done|]. split; [done|].
      unfold goBack. cbn. by rewrite Hc, Hp. }
    destruct (NeedsInput c) eqn:Hi; [|done].
    eexists _, _, _, _. split; [done|]. split; [done|].
    unfold goBack, command_is. cbn. rewrite Hc, Hk, Hp.
    rewrite bool_decide_eq_false_2; [done|]. intros Hn. by apply Hfd in Hn.
  - unfold proceedAfterPod. rewrite Hc. intros Hp Hnext.
    destruct (NeedsContainer c) eqn:Hk.
    { eexists _, _, _, _. split; [done|].
      split; [cbn; apply list_elem_of_here|].
      unfold goBack. cbn. by rewrite Hc, Hp. }
    simpl in Hnext. rewrite Hnext.
    eexists _, _, _, _. split; [done|].
    split; [cbn; apply list_elem_of_further, list_elem_of_here|].
    unfold goBack, command_is. cbn. rewrite Hc, Hk, Hp.
    rewrite bool_decide_eq_false_2; [done|]. intros Hn. by apply Hfd in Hn.
  - unfold proceedAfterContainer. rewrite Hc. intros Hk Hnext.
    case_decide as Hn.
    { eexists _, _, _, _. split; [done|].
      split; [cbn; apply list_elem_of_here|]. by unfold goBack. }
    destruct Hnext as [?|Hi]; [done|]. rewrite Hi.
    eexists _, _, _, _. split; [done|].
    split; [cbn; apply list_elem_of_further, list_elem_of_here|].
    unfold goBack, command_is. cbn. rewrite Hc, Hk.
    by rewrite bool_decide_eq_false_2.
Qed.

(** X30: a list of exactly one container is not shown for a choice: the
    container is taken at once and the wizard goes on as if it had been
    confirmed, whatever state it is in; any other list stays on screen.
    For a command that asks for a container and an input the back step
    from the input prompt therefore does not get past a single container:
    it asks for the containers again, and their arrival leads to the
    prompt again. *)
Theorem X30_single_container_is_taken_at_once (m : Model T) c x :
  command m = Some c → Name c ≠ "fast-deploy" → NeedsInput c = true →
  (∃ m',
     Update m (ContainersLoadedMsg [x] None) = Some (m', cmd_nil)
     ∧ container m' = x ∧ state m' = StateInputValue
     ∧ FL.items (contSelector m') = [x])
  ∧ (∀ containers, length containers ≠ 1%nat →
       ∃ m',
         Update m (ContainersLoadedMsg containers None) = Some (m', cmd_nil)
         ∧ container m' = container m ∧ state m' = state m
         ∧ FL.items (contSelector m') = containers)
  ∧ (state m = StateInputValue → NeedsContainer c = true →
     ∃ m1 m2,
       Update m (KeyMsg "esc") = Some (m1, cmd_loadContainers)
       ∧ state m1 = StateSelectContainer
       ∧ Update m1 (ContainersLoadedMsg [x] None) = Some (m2, cmd_nil)
       ∧ state m2 = StateInputValue).
Proof.
  intros Hc Hn Hi.
  assert (∀ m0 : Model T, command m0 = Some c →
            ∃ m',
              Update m0 (ContainersLoadedMsg [x] None) = Some (m', cmd_nil)
              ∧ container m' = x ∧ state m' = StateInputValue
              ∧ FL.items (contSelector m') = [x]) as Hone.
  { intros m0 Hc0. cbn [Update]. unfold proceedAfterContainer.
    cbn [command set_container set_contSelector]. rewrite Hc0.
    rewrite decide_False by done. rewrite Hi. by eexists. }
  split; [by apply Hone|]. split.
  - intros containers Hlen. cbn [Update].
    destruct containers as [|y [|z containers]]; [|done|]; by eexists.
  - intros Hst Hk.
    assert (Update m (KeyMsg "esc")
            = Some (set_contSelector (FL.Reset (contSelector m))
                      (set_state StateSelectContainer m),
                    cmd_loadContainers)) as Hesc.
    { cbn [Update]. rewrite decide_False by (by rewrite Hst).
      unfold update_key. eval_keys.
      unfold leave_step, goBack, command_is. rewrite Hst, Hc, Hk.
      by rewrite (bool_decide_eq_false_2 (Name c = "fast-deploy")). }
    destruct (Hone (set_contSelector (FL.Reset (contSelector m))
                      (set_state StateSelectContainer m)) Hc)
      as (m2 & Hup & _ & Hst2 & _).
    eexists _, m2. split; [exact Hesc|]. by split.
Qed.

End wizard_back_and_forward.

(** ** The further properties on examples *)

Section further_examples.
Import Wizard WizSpec WizMore Examples.

Lemma greek_list_reachable :
  FLSpec.reachable (FZ := fuzzy.Find_spec) FLSpec.greek_list.
Proof. repeat constructor. Qed.

Lemma X4_witness :
  ∃ mt,
    FLMore.shown_matches FLSpec.greek_list
      !! Z.to_nat (FL.cursor FLSpec.greek_list) = Some mt
    ∧ FL.GetSelected FLSpec.greek_list = fuzzy.Str mt.
Proof.
  apply (X4_GetSelected_under_cursor (FZ := fuzzy.Find_spec) FLSpec.greek_list
           greek_list_reachable).
  vm_compute. reflexivity.
Defined.

Lemma X8_witness :
  FLMore.cursor_visible
    (FL.Update (FZ := fuzzy.Find_spec) FLSpec.greek_list (KeyMsg "down")).
Proof.
  apply (X8_navigation_keeps_cursor_visible (FZ := fuzzy.Find_spec) FLSpec.greek_list
           "down" greek_list_reachable).
  - do 2 apply list_elem_of_further. apply list_elem_of_here.
  - split; vm_compute; [discriminate|reflexivity].
Defined.

Lemma X9_witness :
  FL.Update (FZ := fuzzy.Find_spec) FLSpec.greek_list (KeyMsg "up") = FLSpec.greek_list.
Proof.
  apply (X9_up_and_down_are_inverse (FZ := fuzzy.Find_spec) FLSpec.greek_list
           greek_list_reachable).
  vm_compute. reflexivity.
Defined.

Lemma X11_witness :
  LV.GetSearchQuery LVSpec.one_line_viewer
  = textinput.Value (LV.searchInput LVSpec.one_line_viewer).
Proof.
  apply (X11_search_query_is_the_typed_text LVSpec.one_line_viewer).
  repeat constructor.
Defined.

Lemma X12_witness :
  LV.selectedIndex (LV.AppendLog "c" paused_viewer)
  = LV.selectedIndex paused_viewer.
Proof.
  apply (X12_append_without_follow_keeps_selection paused_viewer "c").
  - repeat constructor.
  - vm_compute. reflexivity.
Defined.

Lemma X14_witness :
  ∃ m1 m2,
    Update (FZ := fuzzy.Find_spec) at_commands (KeyMsg "ctrl+n")
    = Some (m1, cmd_loadNamespaces)
    ∧ Update (FZ := fuzzy.Find_spec) m1 (KeyMsg "esc") = Some (m2, cmd_nil)
    ∧ state m2 = state at_commands.
Proof.
  assert (state at_commands = StateSelectCommand) as Hst
    by (vm_compute; reflexivity).
  destruct (X14_detour_then_escape (FZ := fuzzy.Find_spec) at_commands) as [H _].
  { rewrite Hst. discriminate. }
  destruct H as (m1 & m2 & Hu & _ & _ & _ & Hesc & Hs & _).
  { rewrite Hst. discriminate. }
  exists m1, m2. split; [exact Hu|]. split; [exact Hesc|exact Hs].
Defined.

Lemma X15_witness :
  ∃ m',
    Update (FZ := fuzzy.Find_spec) failed_command (KeyMsg "esc") = Some (m', cmd_nil)
    ∧ state m' = StateSelectCommand
    ∧ err m' = None.
Proof.
  destruct (X15_result_screen_returns_to_commands (FZ := fuzzy.Find_spec)
              failed_command "esc")
    as (m' & Hu & Hs & _ & He & _).
  - vm_compute. reflexivity.
  - do 2 apply list_elem_of_further. apply list_elem_of_here.
  - exists m'. split; [exact Hu|]. split; [exact Hs|exact He].
Defined.

Lemma X18_witness :
  Update (FZ := fuzzy.Find_spec) start (KeyMsg "enter") = Some (start, cmd_nil).
Proof.
  assert ("enter" ∈ ["enter"; "tab"]) as Hk by apply list_elem_of_here.
  apply (proj1 (X18_empty_confirmation_is_ignored (FZ := fuzzy.Find_spec) start
                  "enter" Hk) (depSelector start)).
  - vm_compute. reflexivity.
  - vm_compute. reflexivity.
Defined.

Lemma X19_witness :
  ∃ m',
    Update (FZ := fuzzy.Find_spec) logs_shown (KeyMsg "esc") = Some (m', cmd_nil)
    ∧ state m' = StateSelectCommand.
Proof.
  destruct (X19_leaving_the_log_view (FZ := fuzzy.Find_spec) logs_shown "esc")
    as [(m' & Hu & Hs & _) _].
  - vm_compute. reflexivity.
  - apply list_elem_of_here.
  - exists m'. split; [exact Hu|exact Hs].
Defined.

Lemma X20_witness :
  Update (FZ := fuzzy.Find_spec) typed_s (KeyMsg "q") = Some (typed_s, cmd_Quit).
Proof.
  apply (X20_q_always_quits (FZ := fuzzy.Find_spec) typed_s).
  intros H. vm_compute in H. discriminate H.
Defined.

Lemma X21_witness :
  ∃ m' c,
    Update (FZ := fuzzy.Find_spec) at_commands (KeyMsg "ctrl+n") = Some (m', c)
    ∧ (prevStates m' = prevStates at_commands
       ∨ prevStates m' = prevStates at_commands ++ [state at_commands]
       ∨ prevStates at_commands = prevStates m' ++ [state m']).
Proof.
  destruct (Update (FZ := fuzzy.Find_spec) at_commands (KeyMsg "ctrl+n"))
    as [[m' c]|] eqn:Hu.
  - exists m', c. split; [reflexivity|].
    apply (X21_stack_moves_on_four_keys (FZ := fuzzy.Find_spec) at_commands m'
             (KeyMsg "ctrl+n") c Hu).
  - vm_compute in Hu. discriminate Hu.
Defined.

Lemma X25_witness :
  ∃ k v,
    executeCommand set_env_confirmed
    = Some (set_state StateExecuting set_env_confirmed,
            cmd_client (SetEnvVar k v))
    ∧ inputValue set_env_confirmed = k +:+ "=" +:+ v
    ∧ GoStrings.Contains k "=" = false.
Proof.
  apply (X25_set_env_cuts_at_first_equals set_env_confirmed
           {| Name := "set-env"; Description := "Set environment variable";
              NeedsPod := false; NeedsContainer := true;
              NeedsInput := true; InputPrompt := "Enter KEY=VALUE:" |}).
  - vm_compute. reflexivity.
  - reflexivity.
  - vm_compute. reflexivity.
Defined.

Lemma X26_witness :
  executeCommand port_forward_confirmed
  = Some (set_state StateExecuting port_forward_confirmed,
          cmd_msg (ExecCompleteMsg None)).
Proof.
  apply (X26_port_forward_wants_one_colon port_forward_confirmed
           {| Name := "port-forward"; Description := "Forward port to pod";
              NeedsPod := true; NeedsContainer := false;
              NeedsInput := true;
              InputPrompt := "Enter ports (local:remote):" |}).
  - vm_compute. reflexivity.
  - reflexivity.
  - vm_compute. reflexivity.
Defined.

Lemma X28_witness :
  ∃ m' cmd,
    handleEnter (FZ := fuzzy.Find_spec) at_commands = Some (m', cmd)
    ∧ Name <$> command m' = Some "logs"
    ∧ state m' = StateSelectPod.
Proof.
  destruct (X28_catalog_line_finds_its_command (FZ := fuzzy.Find_spec) at_commands
              {| Name := "logs"; Description := "View container logs";
                 NeedsPod := true; NeedsContainer := true;
                 NeedsInput := false; InputPrompt := "" |})
    as (m' & cmd & Hu & Hc & Hs & _).
  - apply list_elem_of_here.
  - vm_compute. reflexivity.
  - vm_compute. reflexivity.
  - exists m', cmd. split; [exact Hu|]. split; [|exact Hs].
    rewrite Hc. reflexivity.
Defined.

Lemma X29_witness :
  ∃ m1 cmd1 m2 cmd2,
    proceedAfterContainer (FZ := fuzzy.Find_spec) set_env_chosen
    = Some (m1, cmd1)
    ∧ state m1 ∈ [StateSelectAssetFolder; StateInputValue]
    ∧ goBack (FZ := fuzzy.Find_spec) m1 = Some (m2, cmd2)
    ∧ state m2 = StateSelectContainer.
Proof.
  apply (X29_back_undoes_a_forward_step (FZ := fuzzy.Find_spec)
           set_env_chosen
           {| Name := "set-env"; Description := "Set environment variable";
              NeedsPod := false; NeedsContainer := true;
              NeedsInput := true; InputPrompt := "Enter KEY=VALUE:" |}).
  - do 8 apply list_elem_of_further. apply list_elem_of_here.
  - vm_compute. reflexivity.
  - reflexivity.
  - right. reflexivity.
Defined.

Lemma X30_witness :
  ∃ m1 m2,
    Update (FZ := fuzzy.Find_spec) set_env_prompt (KeyMsg "esc")
    = Some (m1, cmd_loadContainers)
    ∧ state m1 = StateSelectContainer
    ∧ Update (FZ := fuzzy.Find_spec) m1 (ContainersLoadedMsg ["app"] None)
      = Some (m2, cmd_nil)
    ∧ state m2 = StateInputValue.
Proof.
  apply (X30_single_container_is_taken_at_once (FZ := fuzzy.Find_spec) set_env_prompt
           {| Name := "set-env"; Description := "Set environment variable";
              NeedsPod := false; NeedsContainer := true;
              NeedsInput := true; InputPrompt := "Enter KEY=VALUE:" |}
           "app").
  - vm_compute. reflexivity.
  - discriminate.
  - reflexivity.
  - vm_compute. reflexivity.
  - reflexivity.
Defined.

End further_examples.
